(** * cpumembusy: the adaptive resource engine

    A shallow embedding of the Go program (the CPU duty-cycle controller,
    the memory balloon, and the probabilistic controller of [main.go]) and
    the properties its specification states about it.

    Conventions of the embedding:
    - [float64] is IEEE binary64, taken from the Standard Library's executable
      specification [SpecFloat] with [prec = 53] and [emax = 1024]; every
      arithmetic operation rounds to nearest, ties to even, as Go's does,
      and a product and a sum are rounded one after the other (the amd64
      baseline has no fused multiply-add);
    - [uint64] and [int] are [Z] with the wrap-around written out;
    - conversions between floats and integers follow the code that the Go
      compiler emits for [GOARCH=amd64], the target of the build script;
    - global variables, the random source and the logger are fields of an
      explicit [World] threaded through a small state monad. *)

From Stdlib Require Import Decimal DecimalString DecimalNat Permutation.
From Stdlib Require Import ZArith Lia List Bool String Ascii SpecFloat Zpower.
Import ListNotations.
Local Open Scope Z_scope.

(* ================================================================== *)
(** * Part I: definitions                                               *)
(* ================================================================== *)

(** ** Machine integers *)

Module U64.

Definition modulus : Z := 2 ^ 64.

(** [uint64] arithmetic wraps modulo [2^64]. *)
Definition wrap (x : Z) : Z := x mod modulus.

Definition add (x y : Z) : Z := wrap (x + y).
Definition sub (x y : Z) : Z := wrap (x - y).
Definition mul (x y : Z) : Z := wrap (x * y).

End U64.

(** ** float64 *)

Module F64.

Definition prec : Z := 53.
Definition emax : Z := 1024.

Definition t : Type := spec_float.

(** [float64(n)] for an integer [n]: the nearest binary64 value. *)
Definition of_int (n : Z) : t := binary_normalize prec emax n 0 false.

Definition mul : t -> t -> t := SFmul prec emax.
Definition add : t -> t -> t := SFadd prec emax.
Definition sub : t -> t -> t := SFsub prec emax.
Definition div : t -> t -> t := SFdiv prec emax.
Definition neg : t -> t := SFopp.

(** Go's [x < y], [x <= y], [x > y], [x >= y]: all false on NaN. *)
Definition lt (x y : t) : bool := SFltb x y.
Definition le (x y : t) : bool := SFleb x y.
Definition gt (x y : t) : bool := SFltb y x.
Definition ge (x y : t) : bool := SFleb y x.

(** The float64 value of a decimal literal [n / d] of the source text
    ([0.8] is [lit 8 10]): numerator and denominator are exact, and the
    IEEE division rounds their quotient correctly. *)
Definition lit (n d : Z) : t := div (of_int n) (of_int d).

Definition is_nan (x : t) : bool :=
  match x with S754_nan => true | _ => false end.

(** The integer part of a finite float, rounded toward zero. *)
Definition trunc (x : t) : option Z :=
  match x with
  | S754_zero _ => Some 0
  | S754_finite s m e =>
      let mag := if 0 <=? e then Zpos m * 2 ^ e else Zpos m / 2 ^ (- e) in
      Some (if s then - mag else mag)
  | S754_infinity _ | S754_nan => None
  end.

(** x86-64 [CVTTSD2SI r64, xmm]: truncation when the result fits an
    [int64], the "integer indefinite" value [-2^63] otherwise. *)
Definition cvttsd2sq (x : t) : Z :=
  match trunc x with
  | Some z => if (- 2 ^ 63 <=? z) && (z <? 2 ^ 63) then z else - 2 ^ 63
  | None => - 2 ^ 63
  end.

(** Go's [int(x)] on amd64. *)
Definition to_int (x : t) : Z := cvttsd2sq x.

Definition two63 : t := of_int (2 ^ 63).

(** Go's [uint64(x)] on amd64: below [2^63] the signed conversion is
    reinterpreted; from [2^63] on (and for NaN), the compiler converts
    [x - 2^63] and sets the top bit.  A value that [uint64] cannot hold has
    no result fixed by the language; this is the one the build target
    gives. *)
Definition to_uint64 (x : t) : Z :=
  if lt x two63 then U64.wrap (cvttsd2sq x)
  else U64.wrap (Z.lor (cvttsd2sq (sub x two63)) (- 2 ^ 63)).

End F64.

(** ** The CPU load engine *)

Module Cpu.

(** Only [count] takes part in the arithmetic of the controller; the
    mutex, context and wait group of the Go struct guard the worker pool. *)
Record CPUController : Type := { count : Z }.

Definition initCount : Z := 10000.

Definition cpuController : CPUController := {| count := initCount |}.

Definition c1_001 : F64.t := Eval vm_compute in F64.lit 1001 1000.
Definition c0_999 : F64.t := Eval vm_compute in F64.lit 999 1000.

(** [AdjustCountRandom]: returns (success, direction, new count) and the
    controller after the atomic store. *)
Definition AdjustCountRandom (shouldIncrease : bool) (cc : CPUController)
  : (bool * bool * Z) * CPUController :=
  let currentCount := count cc in
  let newCount :=
    if shouldIncrease then
      F64.to_uint64 (F64.mul (F64.of_int currentCount) c1_001)
    else
      let n := F64.to_uint64 (F64.mul (F64.of_int currentCount) c0_999) in
      if n <? 1 then 1 else n in
  ((true, shouldIncrease, newCount), {| count := newCount |}).

Definition GetCount (cc : CPUController) : Z := count cc.

(** A run of adjustment steps; the trace lists, call by call, the
    returned count and the stored count after the call. *)
Fixpoint run (dirs : list bool) (cc : CPUController)
  : list (Z * Z) * CPUController :=
  match dirs with
  | [] => ([], cc)
  | d :: dirs' =>
      let '((_, _, n), cc') := AdjustCountRandom d cc in
      let '(tr, cc'') := run dirs' cc' in
      ((n, GetCount cc') :: tr, cc'')
  end.

(** *** The workers

    [cpuWorker] is a loop that never ends by itself.  Each pass first looks
    at the context, then counts, reads [count] and sleeps when the counter
    is a multiple of it; [counter % count] panics when [count] is 0. *)

(** What one pass of the loop of [cpuWorker] does. *)
Inductive WorkerStep : Type :=
| WorkerReturned
| WorkerPanicked
| WorkerContinues (counter : Z) (slept : bool).

Definition cpuWorkerIter (done : bool) (count counter : Z) : WorkerStep :=
  if done then WorkerReturned
  else
    let counter := U64.add counter 1 in
    if count =? 0 then WorkerPanicked
    else WorkerContinues counter (counter mod count =? 0).

(** Where a worker stands after some passes: still in its loop, with its
    counter and the number of times it has slept, or out of it. *)
Inductive Worker : Type :=
| Running (counter : Z) (sleeps : nat)
| Returned (sleeps : nat)
| Panicked.

(** The worker over the passes it makes: [obs] gives, pass by pass,
    whether the context is done and the [count] the pass reads.  The
    result is where the worker stands after them and how often it has
    slept. *)
Fixpoint cpuWorker (obs : list (bool * Z)) (counter : Z) (sleeps : nat)
  : Worker :=
  match obs with
  | [] => Running counter sleeps
  | (done, count) :: obs' =>
      match cpuWorkerIter done count counter with
      | WorkerContinues counter' slept =>
          cpuWorker obs' counter' (if slept then S sleeps else sleeps)
      | WorkerReturned => Returned sleeps
      | WorkerPanicked => Panicked
      end
  end.

(** What [Start] and [Stop] guard: whether [ctx] is set, and the workers
    that are running, by their id. *)
Record RunState : Type := { started : bool; workers : list Z }.

(** [Start]; [numCPU] is what [runtime.NumCPU] returns. *)
Definition Start (numCPU : Z) (rs : RunState) : RunState :=
  if started rs then rs
  else
    let numCPU := if numCPU <=? 0 then 4 else numCPU in
    {| started := true;
       workers := workers rs ++ map Z.of_nat (seq 0 (Z.to_nat numCPU)) |}.

(** [Stop]: cancels the context and waits for the workers, which all
    return at their next pass. *)
Definition Stop (rs : RunState) : RunState :=
  if started rs then {| started := false; workers := [] |} else rs.

End Cpu.

(** ** The memory load engine *)

Module Mem.

Definition blockSize : Z := 1024 * 1024.

(** One [[]byte] of the buffer.  A block made by [allocateMemory] holds
    [blockSize] bytes, byte [j] being [j % 256]; the block is kept
    symbolic instead of as a list of [2^20] bytes. *)
Record Block : Type := { blk_len : Z }.

Definition blk_byte (b : Block) (j : Z) : option Z :=
  if (0 <=? j) && (j <? blk_len b) then Some (j mod 256) else None.

Definition new_block : Block := {| blk_len := blockSize |}.

Record MemoryController : Type := {
  buffer : list Block;
  totalMemory : Z
}.

Definition memoryController : MemoryController :=
  {| buffer := []; totalMemory := 0 |}.

(** [uint64(len(mc.buffer))] *)
Definition len (mc : MemoryController) : Z :=
  U64.wrap (Z.of_nat (List.length (buffer mc))).

Definition getCurrentProgramMemory (mc : MemoryController) : Z :=
  U64.mul (len mc) blockSize.

Definition allocateMemory (bytes : Z) (mc : MemoryController)
  : MemoryController :=
  let blocks := U64.sub (U64.add bytes blockSize) 1 / blockSize in
  {| buffer := buffer mc ++ repeat new_block (Z.to_nat blocks);
     totalMemory := totalMemory mc |}.

Definition releaseMemory (bytes : Z) (mc : MemoryController)
  : MemoryController :=
  let blocks := U64.sub (U64.add bytes blockSize) 1 / blockSize in
  let blocks := if len mc <? blocks then len mc else blocks in
  if 0 <? blocks then
    {| buffer :=
         firstn (Z.to_nat (Z.of_nat (List.length (buffer mc)) - blocks))
                (buffer mc);
       totalMemory := totalMemory mc |}
  else mc.

Definition adjustTo (targetBytes : Z) (mc : MemoryController)
  : Z * MemoryController :=
  let currentBytes := getCurrentProgramMemory mc in
  let mc' :=
    if currentBytes <? targetBytes then
      allocateMemory (U64.sub targetBytes currentBytes) mc
    else if targetBytes <? currentBytes then
      releaseMemory (U64.sub currentBytes targetBytes) mc
    else mc in
  (getCurrentProgramMemory mc', mc').

(** [AdjustMemoryRandom]: returns (success, direction, bytes held after
    the call) and the controller after the call. *)
Definition AdjustMemoryRandom (shouldIncrease : bool) (mc : MemoryController)
  : (bool * bool * Z) * MemoryController :=
  let currentProgramBytes := getCurrentProgramMemory mc in
  let adjustBytes := totalMemory mc / 1000 in
  let targetProgramBytes :=
    if shouldIncrease then U64.add currentProgramBytes adjustBytes
    else if adjustBytes <? currentProgramBytes
         then U64.sub currentProgramBytes adjustBytes
         else 0 in
  let '(actualBytes, mc') := adjustTo targetProgramBytes mc in
  ((true, shouldIncrease, actualBytes), mc').

Definition SetTotalMemory (total : Z) (mc : MemoryController)
  : MemoryController :=
  {| buffer := buffer mc; totalMemory := total |}.

Definition GetCurrentMemory (mc : MemoryController) : Z :=
  getCurrentProgramMemory mc.

(** A run of adjustment steps. *)
Definition run (steps : list bool) (mc : MemoryController)
  : MemoryController :=
  fold_left (fun m d => snd (AdjustMemoryRandom d m)) steps mc.

(** The bytes the increase steps of a run have asked for: each asks for
    [totalMemory / 1000]. *)
Definition requested (total : Z) (steps : list bool) : Z :=
  Z.of_nat (count_occ bool_dec steps true) * (total / 1000).

(** The same requests, each rounded up to whole blocks. *)
Definition blocksPerStep (total : Z) : Z :=
  (total / 1000 + blockSize - 1) / blockSize.

Definition requestedBlocks (total : Z) (steps : list bool) : Z :=
  Z.of_nat (count_occ bool_dec steps true) * blocksPerStep total.

End Mem.

(** ** main.go: configuration, target calculator and controller *)

Module Main.

Definition defaultPeakUsage : Z := 40.
Definition hardPeakLimit : Z := 70.
Definition minPeakUsage : Z := 5.

Record SystemStats : Type := {
  CPUPercent : F64.t;
  MemoryPercent : F64.t;
  TotalMemory : Z;
  UsedMemory : Z
}.

Inductive Resource : Type := Memory | CPU.

(** What the logger receives.  Each constructor stands for one call of
    [logger.Warn] or [logger.Info] and carries the values the call
    prints; the formatting of percentages to text is left out. *)
Inductive Event : Type :=
| WarnEnvInvalid (value : string)
| WarnEnvOutOfRange (value : Z)
| WarnEnvTooLow (value : Z)
| WarnOverHardPeak (r : Resource) (current_percent : F64.t)
| InfoForcedDecrease (r : Resource) (current_percent : F64.t)
| InfoSkip (r : Resource) (current_percent : F64.t)
| InfoAdjust (r : Resource) (current_percent increaseProb : F64.t)
             (increased : bool)
| InfoPeakUsageUpdate (origin old new : Z) (minValue : F64.t).

(** The process and what it reads from outside: the environment, the
    clock, and the values [rand.Float64] is going to return. *)
Record World : Type := {
  environ : string -> option string;
  utc_hour : Z;
  rand_src : nat -> F64.t;
  rand_pos : nat;
  log : list Event;
  peakUsageOrigin : Z;
  peakUsage : Z;
  cpuController : Cpu.CPUController;
  memoryController : Mem.MemoryController
}.

Definition set_rand_pos (n : nat) (w : World) : World :=
  {| environ := environ w; utc_hour := utc_hour w; rand_src := rand_src w;
     rand_pos := n; log := log w; peakUsageOrigin := peakUsageOrigin w;
     peakUsage := peakUsage w; cpuController := cpuController w;
     memoryController := memoryController w |}.

Definition set_log (l : list Event) (w : World) : World :=
  {| environ := environ w; utc_hour := utc_hour w; rand_src := rand_src w;
     rand_pos := rand_pos w; log := l; peakUsageOrigin := peakUsageOrigin w;
     peakUsage := peakUsage w; cpuController := cpuController w;
     memoryController := memoryController w |}.

Definition set_peakUsage (p : Z) (w : World) : World :=
  {| environ := environ w; utc_hour := utc_hour w; rand_src := rand_src w;
     rand_pos := rand_pos w; log := log w;
     peakUsageOrigin := peakUsageOrigin w;
     peakUsage := p; cpuController := cpuController w;
     memoryController := memoryController w |}.

Definition set_cpuController (c : Cpu.CPUController) (w : World) : World :=
  {| environ := environ w; utc_hour := utc_hour w; rand_src := rand_src w;
     rand_pos := rand_pos w; log := log w;
     peakUsageOrigin := peakUsageOrigin w;
     peakUsage := peakUsage w; cpuController := c;
     memoryController := memoryController w |}.

Definition set_memoryController (m : Mem.MemoryController) (w : World)
  : World :=
  {| environ := environ w; utc_hour := utc_hour w; rand_src := rand_src w;
     rand_pos := rand_pos w; log := log w;
     peakUsageOrigin := peakUsageOrigin w;
     peakUsage := peakUsage w; cpuController := cpuController w;
     memoryController := m |}.

(** *** The state monad of the process *)

Definition M (A : Type) : Type := World -> A * World.

Definition ret {A : Type} (a : A) : M A := fun w => (a, w).

Definition bind {A B : Type} (m : M A) (k : A -> M B) : M B :=
  fun w => let (a, w') := m w in k a w'.

Notation "x <- m ;; k" := (bind m (fun x => k))
  (at level 61, m at next level, right associativity).
Notation "m ;; k" := (bind m (fun _ => k))
  (at level 61, right associativity).

Definition gets {A : Type} (f : World -> A) : M A := fun w => (f w, w).
Definition modify (f : World -> World) : M unit := fun w => (tt, f w).

Definition logger (e : Event) : M unit :=
  modify (fun w => set_log (log w ++ [e]) w).

(** [rand.Float64()]: the next value of the source. *)
Definition rand_Float64 : M F64.t :=
  fun w => (rand_src w (rand_pos w), set_rand_pos (S (rand_pos w)) w).

(** [os.Getenv]: the empty string when the variable is not set. *)
Definition Getenv (key : string) : M string :=
  gets (fun w => match environ w key with
                 | Some v => v
                 | None => EmptyString
                 end).

(** *** strconv.Atoi

    The Go library function, for a 64-bit [int]: an optional sign, then
    one or more decimal digits and nothing else; [None] stands for a
    returned error (bad syntax, or a value that does not fit). *)

Definition is_digit (c : ascii) : bool :=
  let n := Z.of_N (N_of_ascii c) in (48 <=? n) && (n <=? 57).

Fixpoint digits_value (acc : Z) (s : string) : option Z :=
  match s with
  | EmptyString => Some acc
  | String c s' =>
      if is_digit c
      then digits_value (acc * 10 + (Z.of_N (N_of_ascii c) - 48)) s'
      else None
  end.

Definition Atoi (s : string) : option Z :=
  match s with
  | EmptyString => None
  | String c rest =>
      let neg := Ascii.eqb c "-"%char in
      let body := if neg || Ascii.eqb c "+"%char then rest else s in
      match body with
      | EmptyString => None
      | _ =>
          match digits_value 0 body with
          | None => None
          | Some n =>
              let v := if neg then - n else n in
              if (- 2 ^ 63 <=? v) && (v <=? 2 ^ 63 - 1) then Some v
              else None
          end
      end
  end.

(** *** getPeakUsage *)

Definition getPeakUsage : M Z :=
  value <- Getenv "P" ;;
  value <- (if String.eqb value EmptyString then Getenv "p" else ret value) ;;
  if String.eqb value EmptyString then ret defaultPeakUsage
  else
    match Atoi value with
    | None => logger (WarnEnvInvalid value) ;; ret defaultPeakUsage
    | Some peakUsage =>
        if (peakUsage <? 1) || (100 <? peakUsage) then
          logger (WarnEnvOutOfRange peakUsage) ;; ret defaultPeakUsage
        else if peakUsage <? minPeakUsage then
          logger (WarnEnvTooLow peakUsage) ;; ret minPeakUsage
        else ret peakUsage
    end.

(** *** The target calculator *)

Definition isNightTime : M bool :=
  hour <- gets utc_hour ;;
  ret ((16 <=? hour) && (hour <? 20)).

Definition c0_8 : F64.t := Eval vm_compute in F64.lit 8 10.

Definition calculateExpectedUsage (userPeakUsage : Z) : M F64.t :=
  night <- isNightTime ;;
  let expectedUsage :=
    if night then F64.of_int userPeakUsage
    else F64.mul (F64.of_int userPeakUsage) c0_8 in
  let expectedUsage :=
    if F64.gt expectedUsage (F64.of_int hardPeakLimit)
    then F64.of_int hardPeakLimit
    else expectedUsage in
  ret expectedUsage.

(** *** The probability tables *)

Definition c0_90 : F64.t := Eval vm_compute in F64.lit 90 100.
Definition c0_80 : F64.t := Eval vm_compute in F64.lit 80 100.
Definition c0_70 : F64.t := Eval vm_compute in F64.lit 70 100.
Definition c0_65 : F64.t := Eval vm_compute in F64.lit 65 100.
Definition c0_60 : F64.t := Eval vm_compute in F64.lit 60 100.
Definition c0_55 : F64.t := Eval vm_compute in F64.lit 55 100.
Definition c0_45 : F64.t := Eval vm_compute in F64.lit 45 100.
Definition c0_40 : F64.t := Eval vm_compute in F64.lit 40 100.
Definition c0_35 : F64.t := Eval vm_compute in F64.lit 35 100.
Definition c0_30 : F64.t := Eval vm_compute in F64.lit 30 100.
Definition c0_20 : F64.t := Eval vm_compute in F64.lit 20 100.
Definition c0_10 : F64.t := Eval vm_compute in F64.lit 10 100.

Definition abs (x : F64.t) : F64.t :=
  if F64.lt x (F64.of_int 0) then F64.neg x else x.

Definition calculateAdjustProbability (diff : F64.t) : F64.t :=
  if F64.gt diff (F64.of_int 5) then c0_90
  else if F64.ge diff (F64.of_int 2) then c0_70
  else c0_60.

Definition calculateDirectionProbability (diff expectedUsage : F64.t)
  : F64.t :=
  let absDiff := abs diff in
  if F64.lt diff (F64.of_int 0) then
    if F64.gt absDiff (F64.of_int 50) then c0_90
    else if F64.gt absDiff (F64.of_int 20) then c0_80
    else if F64.gt absDiff (F64.of_int 10) then c0_70
    else if F64.gt absDiff (F64.of_int 5) then c0_65
    else if F64.ge absDiff (F64.of_int 2) then c0_60
    else c0_55
  else
    if F64.gt absDiff (F64.of_int 50) then c0_10
    else if F64.gt absDiff (F64.of_int 20) then c0_20
    else if F64.gt absDiff (F64.of_int 10) then c0_30
    else if F64.gt absDiff (F64.of_int 5) then c0_35
    else if F64.ge absDiff (F64.of_int 2) then c0_40
    else c0_45.

Definition shouldAdjust (probability : F64.t) : M bool :=
  r <- rand_Float64 ;;
  ret (F64.lt r probability).

(** *** The controller *)

Definition AdjustMemoryRandom (shouldIncrease : bool)
  : M (bool * bool * Z) :=
  fun w =>
    let (r, mc) := Mem.AdjustMemoryRandom shouldIncrease (memoryController w)
    in (r, set_memoryController mc w).

Definition AdjustCountRandom (shouldIncrease : bool)
  : M (bool * bool * Z) :=
  fun w =>
    let (r, cc) := Cpu.AdjustCountRandom shouldIncrease (cpuController w)
    in (r, set_cpuController cc w).

Definition adjustMemory (stats : SystemStats) (expectedUsage : F64.t)
  : M unit :=
  let currentPercent := MemoryPercent stats in
  if F64.gt currentPercent (F64.of_int hardPeakLimit) then
    logger (WarnOverHardPeak Memory currentPercent) ;;
    res <- AdjustMemoryRandom false ;;
    let '(success, _, _) := res in
    if success : bool then logger (InfoForcedDecrease Memory currentPercent)
    else ret tt
  else
    let diff := F64.sub currentPercent expectedUsage in
    let adjustProb := calculateAdjustProbability (abs diff) in
    go <- shouldAdjust adjustProb ;;
    if negb go then logger (InfoSkip Memory currentPercent)
    else
      let increaseProb := calculateDirectionProbability diff expectedUsage in
      r <- rand_Float64 ;;
      let shouldIncrease := F64.lt r increaseProb in
      res <- AdjustMemoryRandom shouldIncrease ;;
      let '(success, increased, _) := res in
      if success : bool
      then logger (InfoAdjust Memory currentPercent increaseProb increased)
      else ret tt.

Definition adjustCPU (stats : SystemStats) (expectedUsage : F64.t)
  : M unit :=
  let currentPercent := CPUPercent stats in
  if F64.gt currentPercent (F64.of_int hardPeakLimit) then
    logger (WarnOverHardPeak CPU currentPercent) ;;
    res <- AdjustCountRandom false ;;
    let '(success, _, _) := res in
    if success : bool then logger (InfoForcedDecrease CPU currentPercent)
    else ret tt
  else
    let diff := F64.sub currentPercent expectedUsage in
    let adjustProb := calculateAdjustProbability (abs diff) in
    go <- shouldAdjust adjustProb ;;
    if negb go then logger (InfoSkip CPU currentPercent)
    else
      let increaseProb := calculateDirectionProbability diff expectedUsage in
      r <- rand_Float64 ;;
      let shouldIncrease := F64.lt r increaseProb in
      res <- AdjustCountRandom shouldIncrease ;;
      let '(success, increasedCount, _) := res in
      if success : bool
      then logger (InfoAdjust CPU currentPercent increaseProb increasedCount)
      else ret tt.

Definition adjustResources (stats : SystemStats) (expectedUsage : F64.t)
  : M unit :=
  adjustMemory stats expectedUsage ;;
  adjustCPU stats expectedUsage.

(** *** The drift of the ceiling *)

Definition c0_2 : F64.t := Eval vm_compute in F64.lit 2 10.

Definition updatePeakUsage : M unit :=
  oldPeakUsage <- gets peakUsage ;;
  origin <- gets peakUsageOrigin ;;
  let minValue := F64.mul (F64.of_int origin) c0_2 in
  let maxValue := F64.of_int origin in
  r <- rand_Float64 ;;
  let newValue := F64.add minValue (F64.mul r (F64.sub maxValue minValue)) in
  let p := F64.to_int newValue in
  let p := if p <? F64.to_int minValue then F64.to_int minValue else p in
  let p := if p <? minPeakUsage then minPeakUsage else p in
  modify (set_peakUsage p) ;;
  logger (InfoPeakUsageUpdate origin oldPeakUsage p minValue).

End Main.

(** ** The specification's wording of the tables and of the target *)

Module Spec.

Import Main.

(** "desired = ceiling during the night window, ceiling x 0.8 outside
    it; the result is clamped to at most the hard safety ceiling". *)
Definition target (ceiling : Z) (night : bool) : F64.t :=
  let desired :=
    if night then F64.of_int ceiling
    else F64.mul (F64.of_int ceiling) c0_8 in
  if F64.le desired (F64.of_int 70) then desired else F64.of_int 70.

(** "> 5 -> 0.90, [2,5] -> 0.70, else -> 0.60". *)
Definition adjust_probability (magnitude : F64.t) : F64.t :=
  if F64.gt magnitude (F64.of_int 5) then F64.lit 90 100
  else if F64.le (F64.of_int 2) magnitude && F64.le magnitude (F64.of_int 5)
       then F64.lit 70 100
  else F64.lit 60 100.

(** The six magnitude classes of the direction tables:
    > 50, > 20, > 10, > 5, >= 2, otherwise. *)
Definition by_magnitude (magnitude : F64.t) (p50 p20 p10 p5 p2 p0 : F64.t)
  : F64.t :=
  if F64.gt magnitude (F64.of_int 50) then p50
  else if F64.gt magnitude (F64.of_int 20) then p20
  else if F64.gt magnitude (F64.of_int 10) then p10
  else if F64.gt magnitude (F64.of_int 5) then p5
  else if F64.ge magnitude (F64.of_int 2) then p2
  else p0.

(** "diff < 0: 0.90 / 0.80 / 0.70 / 0.65 / 0.60 / 0.55". *)
Definition increase_probability_under (magnitude : F64.t) : F64.t :=
  by_magnitude magnitude
    (F64.lit 90 100) (F64.lit 80 100) (F64.lit 70 100)
    (F64.lit 65 100) (F64.lit 60 100) (F64.lit 55 100).

(** "diff >= 0: 0.10 / 0.20 / 0.30 / 0.35 / 0.40 / 0.45". *)
Definition increase_probability_over (magnitude : F64.t) : F64.t :=
  by_magnitude magnitude
    (F64.lit 10 100) (F64.lit 20 100) (F64.lit 30 100)
    (F64.lit 35 100) (F64.lit 40 100) (F64.lit 45 100).

End Spec.

(** ** Vocabulary of the proofs about rounding *)

(** What [k] steps of [shr_1] keep true of the mantissa [mx] they started
    from: the quotient, and that a set round or sticky bit means a
    remainder was lost. *)
Definition shr_inv (mx k : Z) (mrs : shr_record) : Prop :=
  0 <= shr_m mrs /\
  shr_m mrs * 2 ^ k <= mx < (shr_m mrs + 1) * 2 ^ k /\
  (shr_r mrs || shr_s mrs = true -> shr_m mrs * 2 ^ k < mx).

(** The float that [binary_round_aux] builds from a rounded mantissa [m1]
    at exponent [e1]. *)
Definition pack (s : bool) (m1 e1 : Z) : spec_float :=
  match m1 with
  | Z0 => S754_zero s
  | Zpos p =>
      if (p =? 9007199254740992)%positive then
        if e1 + 1 <=? 971 then S754_finite s 4503599627370496 (e1 + 1)
        else S754_infinity s
      else if e1 <=? 971 then S754_finite s p e1 else S754_infinity s
  | Zneg _ => S754_nan
  end.

Definition at_least_one (x : F64.t) : Prop :=
  match x with
  | S754_finite false m e => e < 0 -> 2 ^ (- e) <= Zpos m
  | S754_infinity false => True
  | _ => False
  end.

(** The value [m * 2^e] of a float, in units of [2^-2200]: an integer as
    long as [-2200 <= e]. *)
Definition sval (m e : Z) : Z := m * 2 ^ (e + 2200).

(** What the drift needs of each origin: the shape of [minValue] and of
    [maxValue - minValue], and that their exact sum is at most
    [origin + 1/2]. *)
Definition drift_facts (o : Z) : bool :=
  let minValue := F64.mul (F64.of_int o) Main.c0_2 in
  match minValue, F64.sub (F64.of_int o) minValue,
        binary_normalize 53 1024 (2 * o + 1) (-1) false with
  | S754_finite false mn en, S754_finite false md ed,
    S754_finite false mt et =>
      bounded 53 1024 md ed && bounded 53 1024 mt et
      && (-1000 <=? en) && (en <=? 971) && (-1000 <=? ed)
      && (sval (Zpos mn) en + sval (Zpos md) ed <=? sval (Zpos mt) et)
      && (sval (Zpos mt) et <=? (2 * o + 1) * 2 ^ 2199)
      && (F64.to_int minValue <=? o)
  | _, _, _ => false
  end.

(** ** The collectors of system.go *)

Module System.

(** [strconv.ParseUint(s, 10, 64)]: one or more decimal digits and nothing
    else, the value fitting a [uint64]; [None] stands for a returned
    error. *)
Definition ParseUint (s : string) : option Z :=
  match s with
  | EmptyString => None
  | _ =>
      match Main.digits_value 0 s with
      | Some n => if n <? 2 ^ 64 then Some n else None
      | None => None
      end
  end.

(** A file of /proc as the collectors see it: the lines that
    [scanner.Scan] delivers, each one already cut by [strings.Fields] into
    its fields, and whether [scanner.Err] reports an error at the end.
    [None] for the file stands for a failing [os.Open]. *)
Record File : Type := {
  lines : list (list string);
  scan_err : bool
}.

Inductive Error : Type :=
| OpenFailed
| ScanFailed
| NoTotalMemory
| CannotReadStat
| InvalidCPULine
| MemoryFailed (cause : Error)
| CPUFailed (cause : Error).

(** The body of the loop of [getMemoryStats] on one line. *)
Definition meminfo_line (acc : Z * Z) (fields : list string) : Z * Z :=
  let '(memTotal, memAvailable) := acc in
  match fields with
  | key :: field1 :: _ =>
      match ParseUint field1 with
      | None => acc
      | Some value =>
          let value := U64.mul value 1024 in
          if String.eqb key "MemTotal:" then (value, memAvailable)
          else if String.eqb key "MemAvailable:" then (memTotal, value)
          else acc
      end
  | _ => acc
  end.

(** [getMemoryStats]: the returned error and the [stats] the pointer
    refers to afterwards. *)
Definition getMemoryStats (meminfo : option File) (stats : Main.SystemStats)
  : option Error * Main.SystemStats :=
  match meminfo with
  | None => (Some OpenFailed, stats)
  | Some file =>
      let '(memTotal, memAvailable) :=
        fold_left meminfo_line (lines file) (0, 0) in
      if scan_err file then (Some ScanFailed, stats)
      else if memTotal =? 0 then (Some NoTotalMemory, stats)
      else
        let used := U64.sub memTotal memAvailable in
        (None,
         {| Main.CPUPercent := Main.CPUPercent stats;
            Main.MemoryPercent :=
              F64.mul (F64.div (F64.of_int used) (F64.of_int memTotal))
                      (F64.of_int 100);
            Main.TotalMemory := memTotal;
            Main.UsedMemory := used |})
  end.

(** *** getCPUStats *)

(** The map of [getCPUStats] from field names to counters.  A key that is
    absent reads as 0, as a Go map gives the zero value. *)
Definition CPUTimes : Type := list (string * Z).

Definition get (m : CPUTimes) (key : string) : Z :=
  match find (fun kv => String.eqb (fst kv) key) m with
  | Some kv => snd kv
  | None => 0
  end.

Definition set (key : string) (v : Z) (m : CPUTimes) : CPUTimes :=
  (key, v) :: filter (fun kv => negb (String.eqb (fst kv) key)) m.

(** [fmt.Sprintf("field%d", n)] for [n >= 0]. *)
Definition Sprintf_field (n : nat) : string :=
  String.append "field" (NilEmpty.string_of_uint (Nat.to_uint n)).

(** The loop [for i := 1; i < len(fields); i++], from index [i] on, over
    the fields that are left. *)
Fixpoint parseCPUTimes (i : nat) (rest : list string) (cpuTimes : CPUTimes)
  : CPUTimes :=
  match rest with
  | [] => cpuTimes
  | field :: rest' =>
      parseCPUTimes (S i) rest'
        (match ParseUint field with
         | Some val => set (Sprintf_field (i - 1)) val cpuTimes
         | None => cpuTimes
         end)
  end.

(** [for _, v := range m { total += v }].  Go visits the entries in an
    order of its choice; the sum does not depend on it. *)
Definition total (m : CPUTimes) : Z :=
  fold_left (fun acc kv => U64.add acc (snd kv)) m 0.

(** [t.Sub(u)] for two readings of the monotonic clock, in nanoseconds:
    the difference, kept within the range of a [Duration]. *)
Definition Time_Sub (t u : Z) : Z :=
  let d := t - u in
  if d <? - 2 ^ 63 then - 2 ^ 63
  else if 2 ^ 63 - 1 <? d then 2 ^ 63 - 1
  else d.

(** [d.Seconds()] *)
Definition Duration_Seconds (d : Z) : F64.t :=
  let sec := Z.quot d 1000000000 in
  let nsec := Z.rem d 1000000000 in
  F64.add (F64.of_int sec)
          (F64.div (F64.of_int nsec) (F64.of_int 1000000000)).

(** The package variables [lastCPUStats] and [lastCPUTime]; [None] is the
    zero [time.Time]. *)
Record CPUState : Type := {
  lastCPUStats : CPUTimes;
  lastCPUTime : option Z
}.

Definition initial : CPUState :=
  {| lastCPUStats := []; lastCPUTime := None |}.

Definition set_CPUPercent (p : F64.t) (stats : Main.SystemStats)
  : Main.SystemStats :=
  {| Main.CPUPercent := p;
     Main.MemoryPercent := Main.MemoryPercent stats;
     Main.TotalMemory := Main.TotalMemory stats;
     Main.UsedMemory := Main.UsedMemory stats |}.

(** [getCPUStats]: [stat] is /proc/stat, [now] what [time.Now] returns. *)
Definition getCPUStats (stat : option File) (now : Z)
           (st : CPUState) (stats : Main.SystemStats)
  : option Error * CPUState * Main.SystemStats :=
  match stat with
  | None => (Some OpenFailed, st, stats)
  | Some file =>
      match lines file with
      | [] => (Some CannotReadStat, st, stats)
      | fields :: _ =>
          if (Z.of_nat (List.length fields) <? 8)
             || negb (String.eqb (hd EmptyString fields) "cpu")
          then (Some InvalidCPULine, st, stats)
          else
            let cpuTimes := parseCPUTimes 1 (tl fields) [] in
            let totalTime := total cpuTimes in
            match lastCPUTime st with
            | None =>
                (None,
                 {| lastCPUStats := cpuTimes; lastCPUTime := Some now |},
                 set_CPUPercent (F64.of_int 0) stats)
            | Some last =>
                let elapsed := Duration_Seconds (Time_Sub now last) in
                if F64.le elapsed (F64.of_int 0) then
                  (None, st, set_CPUPercent (F64.of_int 0) stats)
                else
                  let idle :=
                    U64.add (get cpuTimes "field3") (get cpuTimes "field4") in
                  let lastIdle :=
                    U64.add (get (lastCPUStats st) "field3")
                            (get (lastCPUStats st) "field4") in
                  let idleDelta := U64.sub idle lastIdle in
                  let lastTotal := total (lastCPUStats st) in
                  let totalDelta := U64.sub totalTime lastTotal in
                  let percent :=
                    if totalDelta =? 0 then F64.of_int 0
                    else
                      F64.mul
                        (F64.div (F64.of_int (U64.sub totalDelta idleDelta))
                                 (F64.of_int totalDelta))
                        (F64.of_int 100) in
                  (None,
                   {| lastCPUStats := cpuTimes; lastCPUTime := Some now |},
                   set_CPUPercent percent stats)
            end
      end
  end.

(** [GetSystemStats] *)
Definition GetSystemStats (meminfo stat : option File) (now : Z)
           (st : CPUState)
  : (Error + Main.SystemStats) * CPUState :=
  let stats :=
    {| Main.CPUPercent := F64.of_int 0; Main.MemoryPercent := F64.of_int 0;
       Main.TotalMemory := 0; Main.UsedMemory := 0 |} in
  match getMemoryStats meminfo stats with
  | (Some err, _) => (inl (MemoryFailed err), st)
  | (None, stats) =>
      match getCPUStats stat now st stats with
      | (Some err, st', _) => (inl (CPUFailed err), st')
      | (None, st', stats) => (inr stats, st')
      end
  end.

End System.

(** ** The program: [main] and its loop *)

Module Program.

(** A line of the log of the process: a line that one of the functions
    called by [main] writes, or one of the lines of [main] itself, with
    the values it prints. *)
Inductive Line : Type :=
| Controller (e : Main.Event)
| Started (peak_usage_origin peak_usage hard_peak_limit : Z)
| InitFailed (error : System.Error)
| InitOk (total_memory_gb cpu_cores : Z)
| GcTriggered
| StatsFailed (error : System.Error)
| Monitor (cpu_percent memory_percent expected_usage : F64.t)
          (is_night_time : bool) (current_memory_mb cpu_count : Z).

(** The process: the package variables of the three files, the worker
    pool, the variable [lastStats] of [main], and the log written so
    far. *)
Record Process : Type := {
  world : Main.World;
  collector : System.CPUState;
  pool : Cpu.RunState;
  lastStats : Main.SystemStats;
  out : list Line
}.

(** One of the three tickers fires.  A monitor tick comes with what the
    process reads from outside while it handles the tick: the two files
    of /proc, the clock of [getCPUStats], and the hour of the day at the
    two calls that ask for it. *)
Inductive Tick : Type :=
| GcTick
| PeakUsageTick
| MonitorTick (meminfo stat : option System.File) (now : Z)
              (hour_target hour_log : Z).

Definition set_world (w : Main.World) (p : Process) : Process :=
  {| world := w; collector := collector p; pool := pool p;
     lastStats := lastStats p; out := out p |}.

Definition write (l : Line) (p : Process) : Process :=
  {| world := world p; collector := collector p; pool := pool p;
     lastStats := lastStats p; out := out p ++ [l] |}.

Definition at_hour (hour : Z) (w : Main.World) : Main.World :=
  {| Main.environ := Main.environ w; Main.utc_hour := hour;
     Main.rand_src := Main.rand_src w; Main.rand_pos := Main.rand_pos w;
     Main.log := Main.log w;
     Main.peakUsageOrigin := Main.peakUsageOrigin w;
     Main.peakUsage := Main.peakUsage w;
     Main.cpuController := Main.cpuController w;
     Main.memoryController := Main.memoryController w |}.

Definition set_peakUsageOrigin (origin : Z) (w : Main.World) : Main.World :=
  {| Main.environ := Main.environ w; Main.utc_hour := Main.utc_hour w;
     Main.rand_src := Main.rand_src w; Main.rand_pos := Main.rand_pos w;
     Main.log := Main.log w;
     Main.peakUsageOrigin := origin;
     Main.peakUsage := Main.peakUsage w;
     Main.cpuController := Main.cpuController w;
     Main.memoryController := Main.memoryController w |}.

(** A call of one of the functions of main.go: the lines it hands to the
    logger go to the log of the process, in the order they were
    written. *)
Definition call {A : Type} (m : Main.M A) (p : Process) : A * Process :=
  let '(a, w) := m (Main.set_log [] (world p)) in
  (a,
   {| world := Main.set_log [] w; collector := collector p; pool := pool p;
      lastStats := lastStats p;
      out := out p ++ map Controller (Main.log w) |}).

(** [&SystemStats{}] *)
Definition zeroStats : Main.SystemStats :=
  {| Main.CPUPercent := F64.of_int 0; Main.MemoryPercent := F64.of_int 0;
     Main.TotalMemory := 0; Main.UsedMemory := 0 |}.

(** The process before [main] runs: the package variables at their
    initial values, in the environment [environ] and with the random
    source [rand_src]. *)
Definition boot (environ : string -> option string) (rand_src : nat -> F64.t)
  : Process :=
  {| world :=
       {| Main.environ := environ; Main.utc_hour := 0;
          Main.rand_src := rand_src; Main.rand_pos := 0; Main.log := [];
          Main.peakUsageOrigin := 0; Main.peakUsage := 0;
          Main.cpuController := Cpu.cpuController;
          Main.memoryController := Mem.memoryController |};
     collector := System.initial;
     pool := {| Cpu.started := false; Cpu.workers := [] |};
     lastStats := zeroStats;
     out := [] |}.

(** [main] up to its loop.  [numCPU] is what [runtime.NumCPU] returns. *)
Definition main_init (numCPU : Z) (meminfo stat : option System.File)
           (now : Z) (p : Process) : Process :=
  let '(origin, p) := call Main.getPeakUsage p in
  let p :=
    set_world (Main.set_peakUsage origin
                 (set_peakUsageOrigin origin (world p))) p in
  let p := write (Started origin origin Main.hardPeakLimit) p in
  let '(res, collector') :=
    System.GetSystemStats meminfo stat now (collector p) in
  let p :=
    {| world := world p; collector := collector'; pool := pool p;
       lastStats := lastStats p; out := out p |} in
  let '(stats, p) :=
    match res with
    | inl err => (zeroStats, write (InitFailed err) p)
    | inr stats =>
        let p :=
          set_world
            (Main.set_memoryController
               (Mem.SetTotalMemory (Main.TotalMemory stats)
                                   (Main.memoryController (world p)))
               (world p)) p in
        (stats,
         write (InitOk (Main.TotalMemory stats / (1024 * 1024 * 1024)) numCPU)
               p)
    end in
  {| world := world p; collector := collector p;
     pool := Cpu.Start numCPU (pool p);
     lastStats := stats; out := out p |}.

(** One pass of the loop of [main]. *)
Definition main_tick (p : Process) (t : Tick) : Process :=
  match t with
  | GcTick => write GcTriggered p
  | PeakUsageTick => snd (call Main.updatePeakUsage p)
  | MonitorTick meminfo stat now hour_target hour_log =>
      let '(res, collector') :=
        System.GetSystemStats meminfo stat now (collector p) in
      let p :=
        {| world := world p; collector := collector'; pool := pool p;
           lastStats := lastStats p; out := out p |} in
      let '(currentStats, p) :=
        match res with
        | inl err => (lastStats p, write (StatsFailed err) p)
        | inr currentStats =>
            (currentStats,
             {| world := world p; collector := collector p; pool := pool p;
                lastStats := currentStats; out := out p |})
        end in
      let currentPeakUsage := Main.peakUsage (world p) in
      let '(expectedUsage, p) :=
        call (Main.calculateExpectedUsage currentPeakUsage)
             (set_world (at_hour hour_target (world p)) p) in
      let '(isNightTime, p) :=
        call Main.isNightTime (set_world (at_hour hour_log (world p)) p) in
      let p :=
        write (Monitor (Main.CPUPercent currentStats)
                       (Main.MemoryPercent currentStats)
                       expectedUsage isNightTime
                       (Mem.GetCurrentMemory (Main.memoryController (world p))
                        / (1024 * 1024))
                       (Cpu.GetCount (Main.cpuController (world p)))) p in
      snd (call (Main.adjustResources currentStats expectedUsage) p)
  end.

(** [main], as far as the ticks go. *)
Definition main (environ : string -> option string)
           (rand_src : nat -> F64.t)
           (numCPU : Z) (meminfo stat : option System.File) (now : Z)
           (ticks : list Tick) : Process :=
  fold_left main_tick ticks
            (main_init numCPU meminfo stat now (boot environ rand_src)).

End Program.

(** ** Vocabulary of the further properties *)

(** The balloon as a counter of requests: an increase adds one, a decrease
    takes one away unless there is none. *)
Definition level (steps : list bool) : nat :=
  fold_left (fun k (d : bool) => if d then S k else Nat.pred k) steps 0%nat.

(** The balloon and one more request fit a [uint64] byte count. *)
Definition fits (mc : Mem.MemoryController) : Prop :=
  0 <= Mem.totalMemory mc < 2 ^ 64 /\
  (Z.of_nat (List.length (Mem.buffer mc))
   + Mem.blocksPerStep (Mem.totalMemory mc) + 1) * Mem.blockSize < 2 ^ 64.

(** What the counts up to 1000 are checked for: an increase step leaves
    the count as it is, a decrease step takes one away, down to 1. *)
Definition low_region_ok (c : Z) : bool :=
  (snd (fst (Cpu.AdjustCountRandom true {| Cpu.count := c |})) =? c)
  && (snd (fst (Cpu.AdjustCountRandom false {| Cpu.count := c |}))
      =? Z.max 1 (c - 1)).

(** A call of [Start] or of [Stop]. *)
Inductive PoolCall : Type := CallStart (numCPU : Z) | CallStop.

Definition pool_call (rs : Cpu.RunState) (c : PoolCall) : Cpu.RunState :=
  match c with CallStart n => Cpu.Start n rs | CallStop => Cpu.Stop rs end.

(** The parts of the world a controller pass leaves alone. *)
Definition same_outside (w w' : Main.World) : Prop :=
  Main.environ w' = Main.environ w /\
  Main.utc_hour w' = Main.utc_hour w /\
  Main.rand_src w' = Main.rand_src w /\
  Main.peakUsageOrigin w' = Main.peakUsageOrigin w /\
  Main.peakUsage w' = Main.peakUsage w.

(** The resource a log line of the controller is about. *)
Definition event_resource (e : Main.Event) : option Main.Resource :=
  match e with
  | Main.WarnOverHardPeak r _ | Main.InfoForcedDecrease r _
  | Main.InfoSkip r _ | Main.InfoAdjust r _ _ _ => Some r
  | _ => None
  end.

(** The two bits that carry a location, put back under the mantissa. *)
Definition with_location (q : positive) (c : comparison) : positive :=
  match c with
  | Lt => q~0~1
  | Eq => q~1~0
  | Gt => q~1~1
  end%positive.

(** The floats that [Seconds] adds: zero, or a float of the format with the
    sign of the duration. *)
Definition signed_or_zero (s : bool) (x : F64.t) : Prop :=
  x = S754_zero false \/
  exists (m : positive) (e : Z),
    x = S754_finite s m e /\ bounded 53 1024 m e = true.

(** The byte count a line of /proc/meminfo gives for [key], if the line
    is one the loop of [getMemoryStats] takes into account. *)
Definition meminfo_entry (key : string) (fields : list string) : option Z :=
  match fields with
  | k :: field1 :: _ =>
      if String.eqb k key then
        match System.ParseUint field1 with
        | Some value => Some (U64.mul value 1024)
        | None => None
        end
      else None
  | _ => None
  end.

(** The last entry for [key] in the file, 0 when there is none. *)
Definition last_entry (key : string) (ls : list (list string)) : Z :=
  last (flat_map (fun fields => match meminfo_entry key fields with
                                | Some v => [v]
                                | None => []
                                end) ls) 0.

(** The sum of the counters of a map, before it is cut to 64 bits. *)
Definition sum_values (m : System.CPUTimes) : Z :=
  fold_right (fun kv acc => snd kv + acc) 0 m.

Definition sum_list (l : list Z) : Z := fold_right Z.add 0 l.

(** A field of /proc/stat that holds the counter [c]. *)
Definition holds (field : string) (c : Z) : Prop :=
  System.ParseUint field = Some c.

(** The draws of [rand.Float64]: floats of the format in [0,1). *)
Definition unit_draws (rand_src : nat -> F64.t) : Prop :=
  forall n : nat,
    valid_binary 53 1024 (rand_src n) = true /\
    F64.le (F64.of_int 0) (rand_src n) = true /\
    F64.lt (rand_src n) (F64.of_int 1) = true.

(** What stays true of the package variables once [main] has set them
    up. *)
Definition settled (origin total : Z) (rand_src : nat -> F64.t)
           (w : Main.World) : Prop :=
  Main.peakUsageOrigin w = origin /\
  5 <= Main.peakUsage w <= origin /\
  1 <= Cpu.count (Main.cpuController w) /\
  Mem.totalMemory (Main.memoryController w) = total /\
  Main.rand_src w = rand_src.

(* ================================================================== *)
(** * Part II: properties                                               *)
(* ================================================================== *)

(** ** Comparisons *)

Lemma SFcompare_antisym (x y : spec_float) (c : comparison) :
  SFcompare x y = Some c -> SFcompare y x = Some (CompOpp c).
Proof.
  destruct x as [sx|sx| |sx mx ex], y as [sy|sy| |sy my ey]; simpl;
    try discriminate;
    try (destruct sx; intros [= <-]; reflexivity);
    try (destruct sy; intros [= <-]; reflexivity);
    try (destruct sx, sy; intros [= <-]; reflexivity).
  change PosDef.Pos.compare_cont with Pos.compare_cont.
  rewrite (Z.compare_antisym ex ey), !Pos.compare_cont_spec. simpl.
  rewrite (Pos.compare_antisym mx my).
  destruct sx, sy; intros [= <-]; try reflexivity;
    destruct (ex ?= ey); simpl; try reflexivity;
    destruct (mx ?= my)%positive; reflexivity.
Qed.

Lemma gt_false_le (x y : F64.t) :
  F64.is_nan x = false -> F64.is_nan y = false ->
  F64.gt x y = false -> F64.le x y = true.
Proof.
  unfold F64.gt, F64.le, SFltb, SFleb. intros Hx Hy.
  destruct (SFcompare y x) as [c|] eqn:E.
  - rewrite (SFcompare_antisym _ _ _ E). destruct c; simpl; congruence.
  - destruct x, y; simpl in *; try discriminate; destruct s; discriminate.
Qed.

Lemma le_not_nan_r (x y : F64.t) : F64.le x y = true -> F64.is_nan y = false.
Proof. unfold F64.le, SFleb. destruct x, y; simpl; congruence. Qed.

(** ** Rounding *)

Lemma digits2_bounds (p : positive) :
  2 ^ (Zpos (digits2_pos p) - 1) <= Zpos p < 2 ^ Zpos (digits2_pos p).
Proof.
  induction p as [p IH|p IH|]; cbn [digits2_pos].
  - rewrite Pos2Z.inj_succ.
    replace (Z.succ (Zpos (digits2_pos p)) - 1)
      with (Z.succ (Zpos (digits2_pos p) - 1)) by lia.
    rewrite !Z.pow_succ_r by lia. lia.
  - rewrite Pos2Z.inj_succ.
    replace (Z.succ (Zpos (digits2_pos p)) - 1)
      with (Z.succ (Zpos (digits2_pos p) - 1)) by lia.
    rewrite !Z.pow_succ_r by lia. lia.
  - simpl. lia.
Qed.

Lemma fexp_eq (e : Z) : fexp 53 1024 e = Z.max (e - 53) (-1074).
Proof. reflexivity. Qed.

Lemma shr_1_spec (m : Z) (r s : bool) :
  0 <= m ->
  shr_1 {| shr_m := m; shr_r := r; shr_s := s |} =
  {| shr_m := m / 2; shr_r := Z.odd m; shr_s := r || s |}.
Proof.
  intros Hm. rewrite <- Z.div2_div.
  destruct m as [|[p|p|]|p]; try reflexivity. lia.
Qed.


Lemma shr_inv_step (mx k : Z) (mrs : shr_record) :
  0 <= k -> shr_inv mx k mrs -> shr_inv mx (k + 1) (shr_1 mrs).
Proof.
  intros Hk (Hm & Hb & Hl). destruct mrs as [m r s]. simpl in Hm, Hb, Hl.
  rewrite shr_1_spec by assumption. unfold shr_inv; simpl.
  rewrite Z.pow_add_r, Z.pow_1_r by lia.
  pose proof (Z.pow_pos_nonneg 2 k ltac:(lia) Hk) as Hp.
  pose proof (Z.div_mod m 2 ltac:(lia)) as Hd.
  pose proof (Z.mod_pos_bound m 2 ltac:(lia)) as Hr.
  assert (Ho : Z.odd m = true -> m mod 2 = 1).
  { rewrite Zmod_odd. intros ->. reflexivity. }
  split; [apply Z.div_pos; lia|]. split; [nia|].
  intros H. destruct (Z.odd m) eqn:Eo.
  - specialize (Ho eq_refl). nia.
  - simpl in H. specialize (Hl H). nia.
Qed.

Lemma shr_inv_iter (mx : Z) (p : positive) :
  forall (k : Z) (mrs : shr_record),
    0 <= k -> shr_inv mx k mrs ->
    shr_inv mx (k + Zpos p) (iter_pos shr_1 p mrs).
Proof.
  induction p as [p IH|p IH|]; intros k mrs Hk H; cbn [iter_pos].
  - replace (k + Zpos p~1) with (k + 1 + Zpos p + Zpos p) by lia.
    apply IH; [lia|]. apply IH; [lia|]. apply shr_inv_step; assumption.
  - replace (k + Zpos p~0) with (k + Zpos p + Zpos p) by lia.
    apply IH; [lia|]. apply IH; assumption.
  - apply shr_inv_step; assumption.
Qed.


Lemma round_nearest_even_cases (mrs : shr_record) :
  let m1 := round_nearest_even (shr_m mrs) (loc_of_shr_record mrs) in
  m1 = shr_m mrs \/ (m1 = shr_m mrs + 1 /\ shr_r mrs || shr_s mrs = true).
Proof.
  destruct mrs as [m [|] [|]]; simpl; auto.
  destruct (Z.even m); auto.
Qed.

Lemma shr_fexp_final (s : bool) (m1 e1 : Z) :
  0 <= m1 <= 2 ^ 53 -> -1074 <= e1 ->
  (let '(mrs, e2) := shr_fexp 53 1024 m1 e1 loc_Exact in
   match shr_m mrs with
   | Z0 => S754_zero s
   | Zpos m => if e2 <=? 1024 - 53 then S754_finite s m e2 else S754_infinity s
   | Zneg _ => S754_nan
   end) = pack s m1 e1.
Proof.
  intros Hm He. unfold shr_fexp. rewrite fexp_eq.
  destruct m1 as [|p|p]; [| |lia].
  - simpl Zdigits2. unfold shr.
    destruct (Z.max (0 + e1 - 53) (-1074) - e1) eqn:E; try reflexivity. lia.
  - simpl Zdigits2. pose proof (digits2_bounds p) as Hd.
    unfold pack. destruct (Pos.eqb_spec p 9007199254740992) as [->|Hne].
    + vm_compute digits2_pos.
      replace (Z.max (54 + e1 - 53) (-1074) - e1) with 1 by lia.
      simpl.
      replace (e1 + 1 <=? 971) with (e1 + 1 <=? 1024 - 53) by reflexivity.
      reflexivity.
    + assert (Zpos p <> 2 ^ 53) by (intros [= ->]; auto).
      assert (Zpos p < 2 ^ 53) by lia.
      assert (Zpos (digits2_pos p) <= 53).
      { destruct (Z_le_gt_dec (Zpos (digits2_pos p)) 53) as [|Hgt];
          [assumption|].
        assert (2 ^ 53 <= 2 ^ (Zpos (digits2_pos p) - 1))
          by (apply Z.pow_le_mono_r; lia).
        lia. }
      unfold shr.
      destruct (Z.max (Zpos (digits2_pos p) + e1 - 53) (-1074) - e1) eqn:E;
        try reflexivity. lia.
Qed.

(** [binary_round_aux] on an exact positive mantissa: the mantissa is cut
    to the exponent of its binade, and goes up by one only when something
    was cut off. *)
Lemma binary_round_aux_exact (s : bool) (mx : positive) (ex : Z) :
  let n := Z.max 0 (fexp 53 1024 (Zpos (digits2_pos mx) + ex) - ex) in
  exists m' m1 : Z,
    0 <= m' /\
    m' * 2 ^ n <= Zpos mx < (m' + 1) * 2 ^ n /\
    (m1 = m' \/ (m1 = m' + 1 /\ m' * 2 ^ n < Zpos mx)) /\
    m1 <= 2 ^ 53 /\
    binary_round_aux 53 1024 s (Zpos mx) ex loc_Exact = pack s m1 (ex + n).
Proof.
  intros n. unfold binary_round_aux.
  pose proof (digits2_bounds mx) as Hd.
  set (d := Zpos (digits2_pos mx)) in *.
  assert (Hn : n = Z.max 0 (Z.max (d + ex - 53) (-1074) - ex)) by reflexivity.
  assert (Hshr : exists mrs,
             shr_fexp 53 1024 (Zpos mx) ex loc_Exact = (mrs, ex + n)
             /\ shr_inv (Zpos mx) n mrs).
  { unfold shr_fexp, shr. cbn [Zdigits2]. fold d. rewrite fexp_eq.
    cbn [shr_record_of_loc].
    destruct (Z.max (d + ex - 53) (-1074) - ex) as [|q|q] eqn:E.
    - exists {| shr_m := Zpos mx; shr_r := false; shr_s := false |}.
      replace n with 0 by lia. rewrite Z.add_0_r. split; [reflexivity|].
      unfold shr_inv; simpl. split; [lia|]. split; [lia|]. discriminate.
    - exists (iter_pos shr_1 q
                {| shr_m := Zpos mx; shr_r := false; shr_s := false |}).
      replace n with (Zpos q) by lia. split; [reflexivity|].
      replace (Zpos q) with (0 + Zpos q) at 1 by lia.
      apply shr_inv_iter; [lia|].
      unfold shr_inv; simpl. split; [lia|]. split; [lia|]. discriminate.
    - exists {| shr_m := Zpos mx; shr_r := false; shr_s := false |}.
      replace n with 0 by lia. rewrite Z.add_0_r. split; [reflexivity|].
      unfold shr_inv; simpl. split; [lia|]. split; [lia|]. discriminate. }
  destruct Hshr as (mrs & -> & (Hm0 & Hb & Hl)).
  pose proof (round_nearest_even_cases mrs) as Hr. cbv zeta in Hr.
  set (m1 := round_nearest_even (shr_m mrs) (loc_of_shr_record mrs)) in *.
  assert (Hn0 : 0 <= n) by lia.
  pose proof (Z.pow_pos_nonneg 2 n ltac:(lia) Hn0) as Hp.
  assert (Hlt : shr_m mrs < 2 ^ 53).
  { destruct (Z_lt_ge_dec (shr_m mrs) (2 ^ 53)) as [|Hge]; [assumption|exfalso].
    assert (2 ^ 53 * 2 ^ n <= Zpos mx) by nia.
    assert (d <= 53 + n) by lia.
    assert (2 ^ d <= 2 ^ (53 + n)) by (apply Z.pow_le_mono_r; lia).
    rewrite Z.pow_add_r in * by lia. lia. }
  exists (shr_m mrs), m1.
  split; [assumption|]. split; [assumption|].
  split.
  { destruct Hr as [Hr|[Hr Hrs]]; [left; exact Hr|right; split; [exact Hr|auto]]. }
  split; [lia|].
  apply shr_fexp_final; lia.
Qed.

Lemma pack_not_nan (s : bool) (m1 e1 : Z) :
  0 <= m1 -> F64.is_nan (pack s m1 e1) = false.
Proof.
  intros H. unfold pack. destruct m1 as [|p|p]; [reflexivity| |lia].
  destruct (p =? _)%positive; [destruct (_ <=? _)|destruct (_ <=? _)];
    reflexivity.
Qed.

Lemma binary_round_aux_not_nan (s : bool) (mx : positive) (ex : Z) :
  F64.is_nan (binary_round_aux 53 1024 s (Zpos mx) ex loc_Exact) = false.
Proof.
  destruct (binary_round_aux_exact s mx ex)
    as (m' & m1 & H0 & _ & Hm1 & _ & ->).
  apply pack_not_nan. lia.
Qed.

Lemma shl_align_spec (mx : positive) (ex ex' : Z) :
  exists k : Z,
    0 <= k /\
    shl_align mx ex ex' = (Z.to_pos (Zpos mx * 2 ^ k), ex - k) /\
    k = Z.max 0 (ex - ex').
Proof.
  unfold shl_align. destruct (ex' - ex) as [|q|q] eqn:E.
  - exists 0. rewrite Z.pow_0_r, Z.mul_1_r, Z.sub_0_r. simpl.
    split; [lia|]. split; [reflexivity|lia].
  - exists 0. rewrite Z.pow_0_r, Z.mul_1_r, Z.sub_0_r. simpl.
    split; [lia|]. split; [reflexivity|lia].
  - exists (Zpos q). split; [lia|]. split; [|lia].
    f_equal; [|lia].
    change (Pos.iter xO mx q) with (shift_pos q mx).
    pose proof (Z.pow_pos_nonneg 2 (Zpos q) ltac:(lia) ltac:(lia)).
    apply Pos2Z.inj. rewrite shift_pos_correct, Z.pow_pos_fold.
    rewrite Z2Pos.id; lia.
Qed.

(** ** Floats that are at least one *)


Lemma pack_at_least_one (m1 e1 : Z) :
  0 < m1 -> (e1 < 0 -> 2 ^ (- e1) <= m1) -> at_least_one (pack false m1 e1).
Proof.
  intros Hpos Hge. unfold pack. destruct m1 as [|p|p]; try lia.
  destruct (Pos.eqb_spec p 9007199254740992) as [->|_].
  - destruct (e1 + 1 <=? 971); simpl; [|exact I].
    intros He. specialize (Hge ltac:(lia)).
    change (Zpos 9007199254740992) with (2 ^ 53) in Hge.
    change (Zpos 4503599627370496) with (2 ^ 52).
    apply Z.pow_le_mono_r_iff in Hge; [|lia|lia].
    apply Z.pow_le_mono_r; lia.
  - destruct (e1 <=? 971); simpl; [exact Hge|exact I].
Qed.

Lemma binary_round_aux_at_least_one (mx : positive) (ex : Z) :
  (ex < 0 -> 2 ^ (- ex) <= Zpos mx) ->
  at_least_one (binary_round_aux 53 1024 false (Zpos mx) ex loc_Exact).
Proof.
  intros Hge.
  destruct (binary_round_aux_exact false mx ex)
    as (m' & m1 & Hm0 & Hb & Hm1 & _ & ->).
  pose proof (digits2_bounds mx) as Hd. rewrite fexp_eq in *.
  set (d := Zpos (digits2_pos mx)) in *.
  set (n := Z.max 0 (Z.max (d + ex - 53) (-1074) - ex)) in *.
  assert (Hd1 : 1 <= d + ex).
  { destruct (Z_lt_ge_dec ex 0) as [Hneg|]; [|lia].
    specialize (Hge Hneg).
    assert (2 ^ (- ex) < 2 ^ d) as Hlt by lia.
    apply Z.pow_lt_mono_r_iff in Hlt; lia. }
  assert (Hn : n = Z.max 0 (d - 53)) by lia.
  assert (Hn0 : 0 <= n) by lia.
  pose proof (Z.pow_pos_nonneg 2 n ltac:(lia) Hn0) as Hp.
  assert (Hm' : 0 < m').
  { destruct (Z_lt_ge_dec 0 m') as [|Hle]; [assumption|exfalso].
    assert (m' = 0) by lia. subst m'.
    assert (2 ^ (d - 1) < 2 ^ n) as Hlt by lia.
    apply Z.pow_lt_mono_r_iff in Hlt; lia. }
  assert (Hlow : ex + n < 0 -> 2 ^ (- (ex + n)) <= m').
  { intros He. specialize (Hge ltac:(lia)).
    replace (- ex) with (- (ex + n) + n) in Hge by lia.
    rewrite Z.pow_add_r in Hge by lia.
    pose proof (Z.pow_pos_nonneg 2 (- (ex + n)) ltac:(lia) ltac:(lia)).
    nia. }
  apply pack_at_least_one; [lia|]. intros He. specialize (Hlow He). lia.
Qed.

Lemma of_int_at_least_one (c : Z) : 1 <= c -> at_least_one (F64.of_int c).
Proof.
  intros Hc. destruct c as [|p|p]; try lia.
  unfold F64.of_int, binary_normalize, binary_round.
  destruct (shl_align_spec p 0
              (fexp F64.prec F64.emax (Zpos (digits2_pos p) + 0)))
    as (k & Hk & -> & _).
  pose proof (Z.pow_pos_nonneg 2 k ltac:(lia) Hk) as Hp.
  assert (Hz : Zpos (Z.to_pos (Zpos p * 2 ^ k)) = Zpos p * 2 ^ k)
    by (apply Z2Pos.id; nia).
  apply binary_round_aux_at_least_one. rewrite Hz. intros _.
  replace (- (0 - k)) with k by lia. nia.
Qed.

Lemma mul_at_least_one (x : F64.t) (m : positive) (e : Z) :
  at_least_one x -> at_least_one (S754_finite false m e) ->
  at_least_one (F64.mul x (S754_finite false m e)).
Proof.
  destruct x as [s|[|]| |[|] mx ex]; simpl; try contradiction; [trivial|].
  intros Hx Hy. apply binary_round_aux_at_least_one.
  rewrite Pos2Z.inj_mul. intros He.
  destruct (Z_lt_ge_dec ex 0) as [Hex|Hex], (Z_lt_ge_dec e 0) as [Hey|Hey].
  - specialize (Hx Hex). specialize (Hy Hey).
    replace (- (ex + e)) with (- ex + - e) by lia.
    rewrite Z.pow_add_r by lia.
    pose proof (Z.pow_pos_nonneg 2 (- ex) ltac:(lia) ltac:(lia)).
    pose proof (Z.pow_pos_nonneg 2 (- e) ltac:(lia) ltac:(lia)). nia.
  - specialize (Hx Hex).
    assert (2 ^ (- (ex + e)) <= 2 ^ (- ex)) by (apply Z.pow_le_mono_r; lia).
    nia.
  - specialize (Hy Hey).
    assert (2 ^ (- (ex + e)) <= 2 ^ (- e)) by (apply Z.pow_le_mono_r; lia).
    nia.
  - lia.
Qed.

Lemma wrap_lor_top (z : Z) : 1 <= U64.wrap (Z.lor z (- 2 ^ 63)).
Proof.
  unfold U64.wrap, U64.modulus.
  pose proof (Z.mod_pos_bound (Z.lor z (- 2 ^ 63)) (2 ^ 64) ltac:(lia)) as Hb.
  assert (Hne : Z.lor z (- 2 ^ 63) mod 2 ^ 64 <> 0); [|lia].
  intros H0.
  assert (Hbit : Z.testbit (Z.lor z (- 2 ^ 63) mod 2 ^ 64) 63 = true).
  { rewrite Z.mod_pow2_bits_low by lia. rewrite Z.lor_spec.
    apply orb_true_r. }
  rewrite H0 in Hbit. discriminate.
Qed.

Lemma trunc_at_least_one (x : F64.t) (z : Z) :
  at_least_one x -> F64.trunc x = Some z -> 1 <= z.
Proof.
  destruct x as [s|[|]| |[|] m e]; cbn [at_least_one F64.trunc];
    try contradiction; try discriminate.
  intros Hx Heq.
  assert (Hz : (if 0 <=? e then Zpos m * 2 ^ e else Zpos m / 2 ^ (- e)) = z)
    by congruence.
  clear Heq. subst z. destruct (Z.leb_spec 0 e) as [He|He].
  - pose proof (Z.pow_pos_nonneg 2 e ltac:(lia) He). nia.
  - specialize (Hx He).
    pose proof (Z.pow_pos_nonneg 2 (- e) ltac:(lia) ltac:(lia)).
    apply Z.div_le_lower_bound; lia.
Qed.

Lemma to_uint64_at_least_one (x : F64.t) :
  at_least_one x -> 1 <= F64.to_uint64 x.
Proof.
  intros Hx. unfold F64.to_uint64.
  destruct (F64.lt x F64.two63); [|apply wrap_lor_top].
  unfold F64.cvttsd2sq.
  destruct (F64.trunc x) as [z|] eqn:Et; [|vm_compute; discriminate].
  pose proof (trunc_at_least_one x z Hx Et) as Hz.
  destruct ((- 2 ^ 63 <=? z) && (z <? 2 ^ 63)) eqn:Er;
    [|vm_compute; discriminate].
  apply andb_true_iff in Er. destruct Er as [_ Hlt%Z.ltb_lt].
  unfold U64.wrap, U64.modulus. rewrite Z.mod_small; [lia|].
  assert (2 ^ 63 < 2 ^ 64) by reflexivity. lia.
Qed.

Lemma AdjustCountRandom_at_least_one (d : bool) (cc : Cpu.CPUController) :
  1 <= Cpu.count cc ->
  exists n : Z,
    Cpu.AdjustCountRandom d cc = ((true, d, n), {| Cpu.count := n |}) /\ 1 <= n.
Proof.
  intros Hc. unfold Cpu.AdjustCountRandom. destruct d.
  - eexists; split; [reflexivity|].
    apply to_uint64_at_least_one, mul_at_least_one.
    + apply of_int_at_least_one; assumption.
    + simpl. lia.
  - eexists; split; [reflexivity|].
    cbv zeta.
    destruct (Z.ltb_spec
                (F64.to_uint64
                   (F64.mul (F64.of_int (Cpu.count cc)) Cpu.c0_999)) 1); lia.
Qed.

Lemma run_at_least_one (dirs : list bool) :
  forall cc : Cpu.CPUController,
    1 <= Cpu.count cc ->
    Forall (fun r => 1 <= fst r /\ 1 <= snd r) (fst (Cpu.run dirs cc)) /\
    1 <= Cpu.count (snd (Cpu.run dirs cc)).
Proof.
  induction dirs as [|d dirs IH]; intros cc Hc; cbn [Cpu.run].
  - split; [constructor|assumption].
  - destruct (AdjustCountRandom_at_least_one d cc Hc) as (n & -> & Hn).
    specialize (IH {| Cpu.count := n |} Hn).
    destruct (Cpu.run dirs {| Cpu.count := n |}) as [tr cc''].
    cbn [fst snd Cpu.GetCount Cpu.count] in *.
    destruct IH as [IH1 IH2].
    split; [constructor; [cbn [fst snd]; lia|assumption]|assumption].
Qed.

(** ** The CPU load engine *)

Lemma run_length (dirs : list bool) :
  forall cc : Cpu.CPUController,
    List.length (fst (Cpu.run dirs cc)) = List.length dirs.
Proof.
  induction dirs as [|d dirs IH]; intros cc; cbn [Cpu.run]; [reflexivity|].
  unfold Cpu.AdjustCountRandom. cbv zeta.
  match goal with |- context [Cpu.run dirs ?c] =>
    specialize (IH c); destruct (Cpu.run dirs c) end.
  cbn [fst List.length] in *. congruence.
Qed.

(** C3: starting from the initial intensity 10000, whatever the finite
    sequence of increase and decrease directions, every call of
    [AdjustCountRandom] returns a count of at least 1 and leaves a stored
    count of at least 1.  The trace of [Cpu.run] has one entry per call. *)
Theorem C3_intensity_at_least_one (dirs : list bool) :
  Cpu.GetCount Cpu.cpuController = 10000 /\
  List.length (fst (Cpu.run dirs Cpu.cpuController)) = List.length dirs /\
  Forall (fun r => 1 <= fst r /\ 1 <= snd r)
         (fst (Cpu.run dirs Cpu.cpuController)) /\
  1 <= Cpu.GetCount (snd (Cpu.run dirs Cpu.cpuController)).
Proof.
  split; [reflexivity|]. split; [apply run_length|].
  apply run_at_least_one. vm_compute. discriminate.
Qed.

Example AdjustCountRandom_examples :
  Cpu.AdjustCountRandom false {| Cpu.count := 10000 |}
  = ((true, false, 9990), {| Cpu.count := 9990 |}) /\
  Cpu.AdjustCountRandom true {| Cpu.count := 1000 |}
  = ((true, true, 1000), {| Cpu.count := 1000 |}) /\
  Cpu.AdjustCountRandom true {| Cpu.count := 2 ^ 63 |}
  = ((true, true, 9232595408891629568),
     {| Cpu.count := 9232595408891629568 |}) /\
  Cpu.AdjustCountRandom true {| Cpu.count := 2 ^ 64 - 1 |}
  = ((true, true, 2 ^ 63), {| Cpu.count := 2 ^ 63 |}).
Proof. vm_compute. repeat split. Qed.

(** C7, as the specification states it, fails: from 10000 an increase step
    does not yield 10010. *)
Lemma C7_counterexample :
  snd (fst (Cpu.AdjustCountRandom true {| Cpu.count := 10000 |})) <> 10010.
Proof. vm_compute. discriminate. Qed.

(** C7, amended: an increase step stores [uint64(float64(count) * 1.001)],
    a decrease step [uint64(float64(count) * 0.999)] raised to 1 when it is
    below 1, the products being float64 products; from 10000 an increase
    step yields exactly 10009, the product being the float64 just below
    10010, and from 1 a decrease step yields exactly 1. *)
Theorem C7_adjust_step (c : Z) :
  (let n := F64.to_uint64 (F64.mul (F64.of_int c) (F64.lit 1001 1000)) in
   Cpu.AdjustCountRandom true {| Cpu.count := c |}
   = ((true, true, n), {| Cpu.count := n |})) /\
  (let n :=
     Z.max 1 (F64.to_uint64 (F64.mul (F64.of_int c) (F64.lit 999 1000))) in
   Cpu.AdjustCountRandom false {| Cpu.count := c |}
   = ((true, false, n), {| Cpu.count := n |})) /\
  F64.mul (F64.of_int 10000) (F64.lit 1001 1000)
  = S754_finite false 5503055697018879 (-39) /\
  F64.lt (F64.mul (F64.of_int 10000) (F64.lit 1001 1000)) (F64.of_int 10010)
  = true /\
  Cpu.AdjustCountRandom true {| Cpu.count := 10000 |}
  = ((true, true, 10009), {| Cpu.count := 10009 |}) /\
  Cpu.AdjustCountRandom false {| Cpu.count := 1 |}
  = ((true, false, 1), {| Cpu.count := 1 |}).
Proof.
  split; [reflexivity|]. split.
  - cbv zeta. unfold Cpu.AdjustCountRandom. cbv zeta. cbn [Cpu.count].
    change Cpu.c0_999 with (F64.lit 999 1000).
    destruct (Z.ltb_spec
                (F64.to_uint64 (F64.mul (F64.of_int c) (F64.lit 999 1000))) 1);
      [rewrite Z.max_l by lia|rewrite Z.max_r by lia]; reflexivity.
  - repeat split; vm_compute; reflexivity.
Qed.

(** ** The memory load engine *)

(** C6, as the specification states it, fails: with 10 GiB of total memory
    the first increase step does not leave 10 blocks or 10,485,760 bytes. *)
Lemma C6_counterexample :
  let mc := Mem.SetTotalMemory (10 * 2 ^ 30) Mem.memoryController in
  ~ (List.length (Mem.buffer (snd (Mem.AdjustMemoryRandom true mc))) = 10%nat /\
     snd (fst (Mem.AdjustMemoryRandom true mc)) = 10485760 /\
     Mem.GetCurrentMemory (snd (Mem.AdjustMemoryRandom true mc)) = 10485760).
Proof. vm_compute. intros (H & _). discriminate. Qed.

(** C6, amended: with total memory 10 GiB and the balloon empty, one
    [AdjustMemoryRandom(true)] asks for 10 GiB / 1000 = 10,737,418 bytes
    (integer division), which is more than 10 blocks, and appends 11 whole
    1 MiB blocks; the call returns, and [GetCurrentMemory] reports, exactly
    11,534,336 bytes. *)
Theorem C6_first_step_of_10GiB :
  let mc := Mem.SetTotalMemory (10 * 2 ^ 30) Mem.memoryController in
  Mem.totalMemory mc / 1000 = 10737418 /\
  10 * Mem.blockSize < 10737418 <= 11 * Mem.blockSize /\
  Mem.AdjustMemoryRandom true mc
  = ((true, true, 11534336),
     {| Mem.buffer := repeat Mem.new_block 11;
        Mem.totalMemory := 10 * 2 ^ 30 |}) /\
  Mem.GetCurrentMemory (snd (Mem.AdjustMemoryRandom true mc)) = 11534336.
Proof. vm_compute. repeat split; discriminate. Qed.

Lemma wrap_small (x : Z) : 0 <= x < 2 ^ 64 -> U64.wrap x = x.
Proof. intros H. apply Z.mod_small. exact H. Qed.

Lemma wrap_range (x : Z) : 0 <= U64.wrap x < 2 ^ 64.
Proof. apply Z.mod_pos_bound. reflexivity. Qed.

Lemma wrap_le (x : Z) : 0 <= x -> U64.wrap x <= x.
Proof. intros H. apply Z.mod_le; [exact H|reflexivity]. Qed.

Lemma releaseMemory_length (bytes : Z) (mc : Mem.MemoryController) :
  (List.length (Mem.buffer (Mem.releaseMemory bytes mc))
   <= List.length (Mem.buffer mc))%nat.
Proof.
  unfold Mem.releaseMemory. cbv zeta.
  destruct (0 <? _); [|apply Nat.le_refl].
  cbn [Mem.buffer]. rewrite length_firstn. apply Nat.le_min_r.
Qed.

Lemma AdjustMemoryRandom_totalMemory (d : bool) (mc : Mem.MemoryController) :
  Mem.totalMemory (snd (Mem.AdjustMemoryRandom d mc)) = Mem.totalMemory mc.
Proof.
  unfold Mem.AdjustMemoryRandom, Mem.adjustTo, Mem.allocateMemory,
    Mem.releaseMemory.
  cbv zeta. cbn [snd].
  repeat match goal with |- context [if ?b then _ else _] => destruct b end;
    reflexivity.
Qed.

(** One step adds at most the blocks of one rounded-up request, and only
    when it is an increase step. *)
Lemma AdjustMemoryRandom_length (d : bool) (mc : Mem.MemoryController) :
  0 <= Mem.totalMemory mc < 2 ^ 64 ->
  Z.of_nat (List.length (Mem.buffer (snd (Mem.AdjustMemoryRandom d mc))))
  <= Z.of_nat (List.length (Mem.buffer mc))
     + (if d then Mem.blocksPerStep (Mem.totalMemory mc) else 0).
Proof.
  intros Ht. unfold Mem.AdjustMemoryRandom, Mem.adjustTo. cbv zeta. cbn [snd].
  set (cur := Mem.getCurrentProgramMemory mc).
  set (adj := Mem.totalMemory mc / 1000).
  assert (Hcur : 0 <= cur < 2 ^ 64) by apply wrap_range.
  assert (Hadj : 0 <= adj /\ adj * 1000 <= Mem.totalMemory mc).
  { unfold adj. split; [apply Z.div_pos; lia|].
    rewrite Z.mul_comm. apply Z.mul_div_le. lia. }
  pose proof (releaseMemory_length) as Hrel.
  assert (H64 : 2 ^ 64 = 18446744073709551616) by reflexivity.
  assert (Hbps : 0 <= Mem.blocksPerStep (Mem.totalMemory mc)).
  { unfold Mem.blocksPerStep. fold adj.
    apply Z.div_pos; unfold Mem.blockSize; lia. }
  destruct d.
  - set (target := U64.add cur adj).
    destruct (Z.ltb_spec cur target) as [Hlt|Hge].
    + assert (Htar : target = cur + adj).
      { unfold target, U64.add, U64.wrap, U64.modulus in *.
        rewrite H64 in *.
        destruct (Z_lt_ge_dec (cur + adj) 18446744073709551616) as [Hs|Hs].
        - apply Z.mod_small; lia.
        - exfalso.
          assert ((cur + adj) mod 18446744073709551616
                  = cur + adj - 18446744073709551616).
          { symmetry. apply Z.mod_unique with (q := 1); lia. }
          lia. }
      unfold Mem.allocateMemory. cbv zeta. cbn [Mem.buffer].
      rewrite length_app, repeat_length, Nat2Z.inj_add.
      apply Z.add_le_mono_l.
      assert (Hb : U64.sub (U64.add (U64.sub target cur) Mem.blockSize) 1
                   = adj + Mem.blockSize - 1).
      { unfold U64.sub, U64.add. rewrite Htar.
        replace (cur + adj - cur) with adj by lia.
        unfold Mem.blockSize.
        rewrite (wrap_small adj) by lia.
        rewrite (wrap_small (adj + 1024 * 1024)) by lia.
        apply wrap_small. lia. }
      rewrite Hb. fold adj. unfold Mem.blocksPerStep. fold adj.
      rewrite Z2Nat.id; [lia|]. apply Z.div_pos; unfold Mem.blockSize; lia.
    + destruct (target <? cur);
        [specialize (Hrel (U64.sub cur target) mc)|]; lia.
  - set (target := if adj <? cur then U64.sub cur adj else 0).
    assert (Htar : target <= cur).
    { unfold target. destruct (Z.ltb_spec adj cur); [|lia].
      unfold U64.sub. rewrite wrap_small; lia. }
    destruct (Z.ltb_spec cur target); [lia|].
    destruct (target <? cur);
      [specialize (Hrel (U64.sub cur target) mc)|]; lia.
Qed.

Lemma run_totalMemory (steps : list bool) :
  forall mc, Mem.totalMemory (Mem.run steps mc) = Mem.totalMemory mc.
Proof.
  unfold Mem.run.
  induction steps as [|d steps IH]; intros mc; cbn [fold_left]; [reflexivity|].
  rewrite IH. apply AdjustMemoryRandom_totalMemory.
Qed.

Lemma run_length_bound (steps : list bool) :
  forall mc,
    0 <= Mem.totalMemory mc < 2 ^ 64 ->
    Z.of_nat (List.length (Mem.buffer (Mem.run steps mc)))
    <= Z.of_nat (List.length (Mem.buffer mc))
       + Mem.requestedBlocks (Mem.totalMemory mc) steps.
Proof.
  unfold Mem.run, Mem.requestedBlocks.
  induction steps as [|d steps IH]; intros mc Ht; cbn [fold_left].
  - cbn [count_occ]. lia.
  - pose proof (AdjustMemoryRandom_length d mc Ht) as Hstep.
    pose proof (AdjustMemoryRandom_totalMemory d mc) as Htot.
    specialize (IH (snd (Mem.AdjustMemoryRandom d mc))).
    rewrite Htot in IH. specialize (IH Ht).
    destruct d.
    + rewrite count_occ_cons_eq by reflexivity. lia.
    + rewrite count_occ_cons_neq by discriminate. lia.
Qed.

Lemma getCurrentProgramMemory_blocks (mc : Mem.MemoryController) :
  Mem.getCurrentProgramMemory mc mod Mem.blockSize = 0 /\
  0 <= Mem.getCurrentProgramMemory mc
    <= Z.of_nat (List.length (Mem.buffer mc)) * Mem.blockSize.
Proof.
  unfold Mem.getCurrentProgramMemory, U64.mul, Mem.len.
  set (n := Z.of_nat (List.length (Mem.buffer mc))).
  assert (Hn : 0 <= n) by apply Nat2Z.is_nonneg.
  pose proof (wrap_range n) as Hw. pose proof (wrap_le n Hn) as Hle.
  assert (Hbs : Mem.blockSize = 2 ^ 20) by reflexivity.
  split.
  - unfold U64.wrap at 1. unfold U64.modulus.
    rewrite Z.mod_mod_divide.
    + apply Z.mod_mul. rewrite Hbs. lia.
    + exists (2 ^ 44). rewrite Hbs. reflexivity.
  - split; [apply wrap_range|].
    etransitivity; [apply wrap_le; rewrite Hbs; lia|]. rewrite Hbs. nia.
Qed.

(** C4, as the specification states it, fails: with 16 GiB of total memory
    one increase step asks for 17,179,869 bytes and the balloon then holds
    17 blocks, 17,825,792 bytes. *)
Lemma C4_counterexample :
  ~ (Mem.GetCurrentMemory
       (Mem.run [true] (Mem.SetTotalMemory (16 * 2 ^ 30) Mem.memoryController))
     <= Mem.requested (16 * 2 ^ 30) [true]).
Proof. vm_compute. intros H. apply H. reflexivity. Qed.

(** C4, amended: for every finite sequence of [AdjustMemoryRandom] calls
    from an empty balloon with any fixed total memory, the balloon size is
    an exact non-negative multiple of the 1 MiB block size and never exceeds
    the bytes requested by the increase steps so far once each request
    (0.1% of total memory) is rounded up to whole blocks; the bound without
    rounding holds when the request is itself a whole number of blocks. *)
Theorem C4_balloon_blocks (total : Z) (steps : list bool) :
  0 <= total < 2 ^ 64 ->
  let mc := Mem.run steps (Mem.SetTotalMemory total Mem.memoryController) in
  (exists k : Z, 0 <= k /\ Mem.GetCurrentMemory mc = k * Mem.blockSize) /\
  Mem.GetCurrentMemory mc <= Mem.requestedBlocks total steps * Mem.blockSize /\
  ((total / 1000) mod Mem.blockSize = 0 ->
   Mem.GetCurrentMemory mc <= Mem.requested total steps).
Proof.
  intros Ht mc.
  pose proof (getCurrentProgramMemory_blocks mc) as (Hmod & H0 & Hle).
  pose proof (run_length_bound steps
                (Mem.SetTotalMemory total Mem.memoryController) Ht) as Hlen.
  cbn [Mem.SetTotalMemory Mem.totalMemory Mem.buffer Mem.memoryController
       List.length Z.of_nat] in Hlen.
  fold mc in Hlen. unfold Mem.GetCurrentMemory.
  assert (Hbs : 0 < Mem.blockSize) by reflexivity.
  assert (Hbound : Mem.getCurrentProgramMemory mc
                   <= Mem.requestedBlocks total steps * Mem.blockSize) by nia.
  split; [|split].
  - exists (Mem.getCurrentProgramMemory mc / Mem.blockSize). split.
    + apply Z.div_pos; lia.
    + pose proof (Z.div_mod (Mem.getCurrentProgramMemory mc) Mem.blockSize
                    ltac:(lia)). lia.
  - exact Hbound.
  - intros Hwhole.
    assert (Hreq : Mem.requestedBlocks total steps * Mem.blockSize
                   = Mem.requested total steps); [|lia].
    unfold Mem.requestedBlocks, Mem.requested, Mem.blocksPerStep.
    rewrite <- Z.mul_assoc. f_equal.
    pose proof (Z.div_mod (total / 1000) Mem.blockSize ltac:(lia)) as Hd.
    rewrite Hwhole, Z.add_0_r in Hd.
    set (q := total / 1000 / Mem.blockSize) in *.
    replace (total / 1000 + Mem.blockSize - 1)
      with (q * Mem.blockSize + (Mem.blockSize - 1)) by lia.
    rewrite Z.div_add_l by lia.
    rewrite (Z.div_small (Mem.blockSize - 1)) by lia. lia.
Qed.

Lemma C4_balloon_blocks_witness :
  0 <= 16 * 2 ^ 30 < 2 ^ 64 /\
  Mem.GetCurrentMemory
    (Mem.run [true; true; false]
       (Mem.SetTotalMemory (16 * 2 ^ 30) Mem.memoryController))
  <= Mem.requestedBlocks (16 * 2 ^ 30) [true; true; false] * Mem.blockSize.
Proof.
  assert (H : 0 <= 16 * 2 ^ 30 < 2 ^ 64) by (split; [discriminate|reflexivity]).
  split; [exact H|].
  exact (proj1 (proj2 (C4_balloon_blocks (16 * 2 ^ 30) [true; true; false] H))).
Defined.

(** ** The controller *)

(** C1: on a controller pass for either resource, a measured percentage
    strictly above the hard ceiling of 70 makes the controller warn, issue
    one decrease step to that resource's engine and report it as forced,
    and nothing else: the outcome mentions neither the target nor the
    random source, of which no value is drawn. *)
Theorem C1_hard_override
  (stats : Main.SystemStats) (expectedUsage : F64.t) (w : Main.World) :
  (F64.gt (Main.CPUPercent stats) (F64.of_int 70) = true ->
   Main.adjustCPU stats expectedUsage w
   = (tt,
      Main.set_log
        ((Main.log w ++ [Main.WarnOverHardPeak Main.CPU (Main.CPUPercent stats)])
           ++ [Main.InfoForcedDecrease Main.CPU (Main.CPUPercent stats)])
        (Main.set_cpuController
           (snd (Cpu.AdjustCountRandom false (Main.cpuController w))) w)) /\
   Main.rand_pos (snd (Main.adjustCPU stats expectedUsage w))
   = Main.rand_pos w) /\
  (F64.gt (Main.MemoryPercent stats) (F64.of_int 70) = true ->
   Main.adjustMemory stats expectedUsage w
   = (tt,
      Main.set_log
        ((Main.log w
            ++ [Main.WarnOverHardPeak Main.Memory (Main.MemoryPercent stats)])
           ++ [Main.InfoForcedDecrease Main.Memory (Main.MemoryPercent stats)])
        (Main.set_memoryController
           (snd (Mem.AdjustMemoryRandom false (Main.memoryController w))) w)) /\
   Main.rand_pos (snd (Main.adjustMemory stats expectedUsage w))
   = Main.rand_pos w).
Proof.
  split; intros H.
  - unfold Main.adjustCPU. cbv zeta.
    change (F64.of_int Main.hardPeakLimit) with (F64.of_int 70).
    rewrite H. split; reflexivity.
  - unfold Main.adjustMemory. cbv zeta.
    change (F64.of_int Main.hardPeakLimit) with (F64.of_int 70).
    rewrite H.
    unfold Main.bind, Main.logger, Main.modify, Main.AdjustMemoryRandom.
    cbn [Main.memoryController Main.set_log].
    unfold Mem.AdjustMemoryRandom. cbv zeta.
    destruct (Mem.adjustTo _ _) as [actual mc']. split; reflexivity.
Qed.

Lemma C1_hard_override_witness :
  let stats := {| Main.CPUPercent := F64.of_int 85;
                  Main.MemoryPercent := F64.lit 705 10;
                  Main.TotalMemory := 16 * 2 ^ 30;
                  Main.UsedMemory := 12 * 2 ^ 30 |} in
  let w := {| Main.environ := fun _ => None; Main.utc_hour := 3;
              Main.rand_src := fun _ => F64.lit 1 2; Main.rand_pos := 0;
              Main.log := []; Main.peakUsageOrigin := 40;
              Main.peakUsage := 40;
              Main.cpuController := Cpu.cpuController;
              Main.memoryController :=
                Mem.SetTotalMemory (16 * 2 ^ 30) Mem.memoryController |} in
  Cpu.GetCount (Main.cpuController (snd (Main.adjustCPU stats (F64.of_int 32) w)))
  = 9990 /\
  Main.rand_pos (snd (Main.adjustMemory stats (F64.of_int 32) w)) = 0%nat.
Proof.
  intros stats w.
  destruct (C1_hard_override stats (F64.of_int 32) w) as [Hcpu Hmem].
  split.
  - destruct (Hcpu eq_refl) as [-> _]. reflexivity.
  - destruct (Hmem eq_refl) as [_ ->]. reflexivity.
Defined.

(** ** Configuration *)

Example Atoi_examples :
  Main.Atoi "40" = Some 40 /\ Main.Atoi "+7" = Some 7 /\
  Main.Atoi "-3" = Some (-3) /\ Main.Atoi "007" = Some 7 /\
  Main.Atoi "4.5" = None /\ Main.Atoi " 40" = None /\
  Main.Atoi "4_0" = None /\ Main.Atoi "0x28" = None /\
  Main.Atoi "-" = None /\ Main.Atoi "abc" = None /\
  Main.Atoi "9223372036854775807" = Some 9223372036854775807 /\
  Main.Atoi "9223372036854775808" = None.
Proof. vm_compute. repeat split. Qed.

Lemma Atoi_empty : Main.Atoi EmptyString = None.
Proof. reflexivity. Qed.

(** C9: [getPeakUsage] reads the ceiling from the variable [P], or from [p]
    when [P] is unset or empty.  A missing value or one that [Atoi] rejects
    gives the default 40; an integer below 1 or above 100 gives 40; an
    integer in [1,5) gives the floor 5; an integer in [5,100] is returned
    unchanged; the result is always in [5,100]. *)
Theorem C9_getPeakUsage (w : Main.World) :
  let getenv k :=
    match Main.environ w k with Some v => v | None => EmptyString end in
  let value :=
    if String.eqb (getenv "P"%string) EmptyString then getenv "p"%string
    else getenv "P"%string in
  let r := fst (Main.getPeakUsage w) in
  (Main.environ w "P"%string = None -> Main.environ w "p"%string = None ->
   r = 40) /\
  (Main.Atoi value = None -> r = 40) /\
  (forall n : Z,
      Main.Atoi value = Some n ->
      (n < 1 \/ 100 < n -> r = 40) /\
      (1 <= n < 5 -> r = 5) /\
      (5 <= n <= 100 -> r = n)) /\
  5 <= r <= 100.
Proof.
  intros getenv value r.
  assert (Hr : r = if String.eqb value EmptyString then 40
                   else match Main.Atoi value with
                        | None => 40
                        | Some n =>
                            if (n <? 1) || (100 <? n) then 40
                            else if n <? 5 then 5 else n
                        end).
  { unfold r, Main.getPeakUsage, Main.bind, Main.Getenv, Main.gets, Main.ret,
      Main.logger, Main.modify.
    fold (getenv "P"%string). fold (getenv "p"%string).
    destruct (String.eqb (getenv "P"%string) EmptyString) eqn:EP;
      fold value; unfold value; rewrite ?EP;
      fold (getenv "p"%string); fold (getenv "P"%string).
    - destruct (String.eqb (getenv "p"%string) EmptyString); [reflexivity|].
      destruct (Main.Atoi (getenv "p"%string)) as [n|]; [|reflexivity].
      destruct ((n <? 1) || (100 <? n)); [reflexivity|].
      change Main.minPeakUsage with 5. destruct (n <? 5); reflexivity.
    - destruct (Main.Atoi (getenv "P"%string)) as [n|]; [|reflexivity].
      destruct ((n <? 1) || (100 <? n)); [reflexivity|].
      change Main.minPeakUsage with 5. destruct (n <? 5); reflexivity. }
  assert (Hempty : String.eqb value EmptyString = true -> Main.Atoi value = None).
  { intros H. apply String.eqb_eq in H. rewrite H. reflexivity. }
  split; [|split; [|split]].
  - intros HP Hp. rewrite Hr. unfold value, getenv. rewrite HP, Hp. reflexivity.
  - intros HA. rewrite Hr, HA. destruct (String.eqb value EmptyString); reflexivity.
  - intros n HA. rewrite Hr, HA.
    destruct (String.eqb value EmptyString) eqn:E.
    { specialize (Hempty eq_refl). congruence. }
    repeat split; intros Hn.
    + destruct (Z.ltb_spec n 1), (Z.ltb_spec 100 n); cbn [orb]; try reflexivity; lia.
    + destruct (Z.ltb_spec n 1), (Z.ltb_spec 100 n); cbn [orb]; try lia.
      destruct (Z.ltb_spec n 5); lia.
    + destruct (Z.ltb_spec n 1), (Z.ltb_spec 100 n); cbn [orb]; try lia.
      destruct (Z.ltb_spec n 5); lia.
  - rewrite Hr. destruct (String.eqb value EmptyString); [lia|].
    destruct (Main.Atoi value) as [n|]; [|lia].
    destruct (Z.ltb_spec n 1), (Z.ltb_spec 100 n); cbn [orb]; try lia.
    destruct (Z.ltb_spec n 5); lia.
Qed.

Lemma C9_getPeakUsage_witness :
  let w P := {| Main.environ :=
                  fun k => if String.eqb k "P" then Some P else None;
                Main.utc_hour := 0;
                Main.rand_src := fun _ => F64.of_int 0; Main.rand_pos := 0;
                Main.log := []; Main.peakUsageOrigin := 0;
                Main.peakUsage := 0;
                Main.cpuController := Cpu.cpuController;
                Main.memoryController := Mem.memoryController |} in
  fst (Main.getPeakUsage (w "3"%string)) = 5 /\
  fst (Main.getPeakUsage (w "77"%string)) = 77 /\
  fst (Main.getPeakUsage (w "101"%string)) = 40 /\
  fst (Main.getPeakUsage (w "4.5"%string)) = 40.
Proof.
  intros w.
  pose proof (C9_getPeakUsage (w "3"%string)) as (_ & _ & H3 & _).
  pose proof (C9_getPeakUsage (w "77"%string)) as (_ & _ & H77 & _).
  pose proof (C9_getPeakUsage (w "101"%string)) as (_ & _ & H101 & _).
  pose proof (C9_getPeakUsage (w "4.5"%string)) as (_ & Hbad & _).
  split; [|split; [|split]].
  - apply (H3 3); [reflexivity|lia].
  - apply (H77 77); [reflexivity|lia].
  - apply (H101 101); [reflexivity|lia].
  - apply Hbad. reflexivity.
Defined.

(** ** The probability tables *)

Lemma gt_true_le_false (x y : F64.t) :
  F64.gt x y = true -> F64.le x y = false.
Proof.
  unfold F64.gt, F64.le, SFltb, SFleb.
  destruct (SFcompare y x) as [c|] eqn:E; [|discriminate].
  rewrite (SFcompare_antisym _ _ _ E). destruct c; simpl; congruence.
Qed.

Lemma le_true_lt_false (x y : F64.t) :
  F64.le x y = true -> F64.lt y x = false.
Proof.
  unfold F64.lt, F64.le, SFltb, SFleb.
  destruct (SFcompare x y) as [c|] eqn:E; [|discriminate].
  rewrite (SFcompare_antisym _ _ _ E). destruct c; simpl; congruence.
Qed.

Lemma calculateAdjustProbability_spec (magnitude : F64.t) :
  Main.calculateAdjustProbability magnitude = Spec.adjust_probability magnitude.
Proof.
  unfold Main.calculateAdjustProbability, Spec.adjust_probability.
  destruct (F64.gt magnitude (F64.of_int 5)) eqn:E5; [reflexivity|].
  change (F64.ge magnitude (F64.of_int 2)) with (F64.le (F64.of_int 2) magnitude).
  destruct (F64.le (F64.of_int 2) magnitude) eqn:E2; [|reflexivity].
  rewrite (gt_false_le magnitude (F64.of_int 5)); try reflexivity; try assumption.
  apply (le_not_nan_r _ _ E2).
Qed.

(** C8: the tables of the code are the step functions of the
    specification.  For every magnitude the adjust-or-skip probability is
    0.90 above 5, 0.70 in [2,5] and 0.60 otherwise.  For every difference
    [diff = current - target]: when [diff < 0] the magnitude [abs diff]
    that the controller passes on is [-diff], the adjust-or-skip
    probability is the step function of [-diff], and the probability of
    increasing is 0.90 / 0.80 / 0.70 / 0.65 / 0.60 / 0.55 for [-diff]
    > 50 / > 20 / > 10 / > 5 / >= 2 / otherwise; when [diff >= 0] the
    magnitude is [diff] itself, the adjust-or-skip probability is the step
    function of [diff], and the probability of increasing is the mirrored
    0.10 / 0.20 / 0.30 / 0.35 / 0.40 / 0.45 at the same thresholds on
    [diff]. *)
Theorem C8_probability_tables (magnitude diff expectedUsage : F64.t) :
  Main.calculateAdjustProbability magnitude
  = Spec.adjust_probability magnitude /\
  (F64.lt diff (F64.of_int 0) = true ->
   Main.abs diff = F64.neg diff /\
   Main.calculateAdjustProbability (Main.abs diff)
   = Spec.adjust_probability (F64.neg diff) /\
   Main.calculateDirectionProbability diff expectedUsage
   = Spec.increase_probability_under (F64.neg diff)) /\
  (F64.ge diff (F64.of_int 0) = true ->
   Main.abs diff = diff /\
   Main.calculateAdjustProbability (Main.abs diff)
   = Spec.adjust_probability diff /\
   Main.calculateDirectionProbability diff expectedUsage
   = Spec.increase_probability_over diff).
Proof.
  split; [apply calculateAdjustProbability_spec|]. split; intros H.
  - assert (Ha : Main.abs diff = F64.neg diff).
    { unfold Main.abs. rewrite H. reflexivity. }
    split; [exact Ha|]. split.
    + rewrite Ha. apply calculateAdjustProbability_spec.
    + unfold Main.calculateDirectionProbability. cbv zeta.
      rewrite H, Ha. reflexivity.
  - pose proof (le_true_lt_false _ _ H) as Hlt.
    assert (Ha : Main.abs diff = diff).
    { unfold Main.abs. rewrite Hlt. reflexivity. }
    split; [exact Ha|]. split.
    + rewrite Ha. apply calculateAdjustProbability_spec.
    + unfold Main.calculateDirectionProbability. cbv zeta.
      rewrite Hlt, Ha. reflexivity.
Qed.

Lemma C8_probability_tables_witness :
  (Main.abs (F64.of_int (-60)) = F64.of_int 60 /\
   Main.calculateAdjustProbability (Main.abs (F64.of_int (-60)))
   = F64.lit 90 100 /\
   Main.calculateDirectionProbability (F64.of_int (-60)) (F64.of_int 70)
   = F64.lit 90 100) /\
  (Main.abs (F64.lit 35 10) = F64.lit 35 10 /\
   Main.calculateAdjustProbability (Main.abs (F64.lit 35 10))
   = F64.lit 70 100 /\
   Main.calculateDirectionProbability (F64.lit 35 10) (F64.of_int 32)
   = F64.lit 40 100).
Proof.
  split.
  - destruct (proj1 (proj2 (C8_probability_tables (F64.of_int 60)
                              (F64.of_int (-60)) (F64.of_int 70))) eq_refl)
      as [Ha [Hp Hd]].
    rewrite Hp, Hd, Ha. repeat split; reflexivity.
  - destruct (proj2 (proj2 (C8_probability_tables (F64.lit 35 10)
                              (F64.lit 35 10) (F64.of_int 32))) eq_refl)
      as [Ha [Hp Hd]].
    rewrite Hp, Hd, Ha. repeat split; reflexivity.
Defined.

Example adjust_probability_examples :
  Main.calculateAdjustProbability (F64.lit 501 100) = F64.lit 90 100 /\
  Main.calculateAdjustProbability (F64.of_int 5) = F64.lit 70 100 /\
  Main.calculateAdjustProbability (F64.of_int 2) = F64.lit 70 100 /\
  Main.calculateAdjustProbability (F64.lit 199 100) = F64.lit 60 100 /\
  Main.calculateAdjustProbability S754_nan = F64.lit 60 100.
Proof. vm_compute. repeat split. Qed.

(** ** The target calculator *)

Lemma of_int_not_nan (n : Z) : F64.is_nan (F64.of_int n) = false.
Proof.
  unfold F64.of_int, binary_normalize, binary_round.
  destruct n as [|p|p]; [reflexivity| |];
    destruct (shl_align _ _ _) as [mz ez]; apply binary_round_aux_not_nan.
Qed.

Lemma mul_finite_not_nan (x : F64.t) (s : bool) (m : positive) (e : Z) :
  F64.is_nan x = false ->
  F64.is_nan (F64.mul x (S754_finite s m e)) = false.
Proof.
  destruct x as [sx|sx| |sx mx ex]; cbn [F64.mul SFmul F64.is_nan];
    try reflexivity; try discriminate.
  intros _. apply binary_round_aux_not_nan.
Qed.

Lemma calculateExpectedUsage_target (userPeakUsage : Z) (w : Main.World) :
  snd (Main.calculateExpectedUsage userPeakUsage w) = w /\
  fst (Main.calculateExpectedUsage userPeakUsage w)
  = Spec.target userPeakUsage (fst (Main.isNightTime w)) /\
  F64.le (fst (Main.calculateExpectedUsage userPeakUsage w)) (F64.of_int 70)
  = true.
Proof.
  set (night := fst (Main.isNightTime w)).
  set (r := fst (Main.calculateExpectedUsage userPeakUsage w)).
  set (desired := if night then F64.of_int userPeakUsage
                  else F64.mul (F64.of_int userPeakUsage) Main.c0_8).
  assert (Hr : r = if F64.gt desired (F64.of_int 70) then F64.of_int 70
                   else desired) by reflexivity.
  assert (Hnan : F64.is_nan desired = false).
  { unfold desired. destruct night; [apply of_int_not_nan|].
    apply mul_finite_not_nan, of_int_not_nan. }
  split; [reflexivity|]. split.
  - rewrite Hr. unfold Spec.target. fold desired. cbv zeta.
    destruct (F64.gt desired (F64.of_int 70)) eqn:E.
    + rewrite (gt_true_le_false _ _ E). reflexivity.
    + rewrite (gt_false_le desired (F64.of_int 70) Hnan eq_refl E).
      reflexivity.
  - rewrite Hr. destruct (F64.gt desired (F64.of_int 70)) eqn:E;
      [reflexivity|apply (gt_false_le desired (F64.of_int 70) Hnan eq_refl E)].
Qed.

(** C2: [calculateExpectedUsage] changes nothing and depends on the world
    only through the night flag, so two calls with the same ceiling and the
    same flag agree: it returns the ceiling when the flag is set and the
    ceiling times 0.8 when it is not, clamped in both cases to at most 70.
    With ceiling 40 at night the result is 40; with ceiling 90 outside the
    night window the raw value 72 is clamped to 70. *)
Theorem C2_calculateExpectedUsage (userPeakUsage : Z) (w w2 : Main.World) :
  let night := fst (Main.isNightTime w) in
  let r := fst (Main.calculateExpectedUsage userPeakUsage w) in
  snd (Main.calculateExpectedUsage userPeakUsage w) = w /\
  night = ((16 <=? Main.utc_hour w) && (Main.utc_hour w <? 20)) /\
  r = Spec.target userPeakUsage night /\
  (fst (Main.isNightTime w2) = night ->
   fst (Main.calculateExpectedUsage userPeakUsage w2) = r) /\
  F64.le r (F64.of_int 70) = true /\
  (night = true -> F64.le (F64.of_int userPeakUsage) (F64.of_int 70) = true ->
   r = F64.of_int userPeakUsage) /\
  (night = false ->
   F64.le (F64.mul (F64.of_int userPeakUsage) (F64.lit 8 10)) (F64.of_int 70)
   = true ->
   r = F64.mul (F64.of_int userPeakUsage) (F64.lit 8 10)) /\
  (night = true ->
   fst (Main.calculateExpectedUsage 40 w) = F64.of_int 40) /\
  (night = false ->
   F64.mul (F64.of_int 90) (F64.lit 8 10) = F64.of_int 72 /\
   fst (Main.calculateExpectedUsage 90 w) = F64.of_int 70).
Proof.
  intros night r.
  destruct (calculateExpectedUsage_target userPeakUsage w)
    as (Hw & Hspec & Hle70).
  fold night in Hspec. fold r in Hspec, Hle70.
  split; [exact Hw|]. split; [reflexivity|]. split; [exact Hspec|].
  split; [|split; [exact Hle70|split; [|split; [|split]]]].
  - intros H2.
    destruct (calculateExpectedUsage_target userPeakUsage w2) as (_ & -> & _).
    rewrite H2. symmetry. exact Hspec.
  - intros Hn Hle. rewrite Hspec. unfold Spec.target. rewrite Hn. cbv zeta.
    rewrite Hle. reflexivity.
  - intros Hn Hle. rewrite Hspec. unfold Spec.target. rewrite Hn. cbv zeta.
    change Main.c0_8 with (F64.lit 8 10). rewrite Hle. reflexivity.
  - intros Hn. destruct (calculateExpectedUsage_target 40 w) as (_ & -> & _).
    fold night. rewrite Hn. vm_compute. reflexivity.
  - intros Hn. split; [vm_compute; reflexivity|].
    destruct (calculateExpectedUsage_target 90 w) as (_ & -> & _).
    fold night. rewrite Hn. vm_compute. reflexivity.
Qed.

Lemma C2_calculateExpectedUsage_witness :
  let w h := {| Main.environ := fun _ => None; Main.utc_hour := h;
                Main.rand_src := fun _ => F64.of_int 0; Main.rand_pos := 0;
                Main.log := []; Main.peakUsageOrigin := 40;
                Main.peakUsage := 40;
                Main.cpuController := Cpu.cpuController;
                Main.memoryController := Mem.memoryController |} in
  fst (Main.calculateExpectedUsage 40 (w 17)) = F64.of_int 40 /\
  fst (Main.calculateExpectedUsage 90 (w 9)) = F64.of_int 70 /\
  fst (Main.calculateExpectedUsage 40 (w 9)) = F64.of_int 32.
Proof.
  intros w.
  pose proof (C2_calculateExpectedUsage 40 (w 17) (w 17))
    as (_ & _ & _ & _ & _ & _ & _ & Hnight & _).
  pose proof (C2_calculateExpectedUsage 40 (w 9) (w 9))
    as (_ & _ & _ & _ & _ & _ & Hday & _ & H90).
  split; [|split].
  - apply Hnight; reflexivity.
  - apply H90; reflexivity.
  - rewrite Hday; reflexivity.
Defined.

(** ** The drift of the ceiling *)


Lemma sval_shift (m e k : Z) :
  0 <= k -> -2200 <= e -> sval (m * 2 ^ k) e = sval m (e + k).
Proof.
  intros Hk He. unfold sval.
  replace (e + k + 2200) with (k + (e + 2200)) by lia.
  rewrite (Z.pow_add_r 2 k (e + 2200)) by lia. ring.
Qed.

Lemma bounded_facts (m : positive) (e : Z) :
  bounded 53 1024 m e = true ->
  Zpos m < 2 ^ 53 /\ -1074 <= e <= 971 /\
  e = Z.max (Zpos (digits2_pos m) + e - 53) (-1074).
Proof.
  unfold bounded, canonical_mantissa. rewrite fexp_eq.
  intros [Hc%Z.eqb_eq Hb%Z.leb_le]%andb_true_iff.
  pose proof (digits2_bounds m) as Hd.
  assert (Zpos (digits2_pos m) <= 53) by lia.
  assert (2 ^ Zpos (digits2_pos m) <= 2 ^ 53) by (apply Z.pow_le_mono_r; lia).
  change (1024 - 53) with 971 in Hb. lia.
Qed.

(** Rounding never goes past a float of the format that bounds the exact
    value from above. *)
Lemma binary_round_aux_le (s : bool) (mx : positive) (ex : Z)
      (mb : positive) (eb : Z) :
  -2200 <= ex <= 971 ->
  bounded 53 1024 mb eb = true ->
  sval (Zpos mx) ex <= sval (Zpos mb) eb ->
  match binary_round_aux 53 1024 s (Zpos mx) ex loc_Exact with
  | S754_zero s' => s' = s
  | S754_finite s' m e =>
      s' = s /\ ex <= e /\ sval (Zpos m) e <= sval (Zpos mb) eb
  | _ => False
  end.
Proof.
  intros Hex Hbd Hle.
  destruct (bounded_facts mb eb Hbd) as (Hmb & Heb & Hcan).
  destruct (binary_round_aux_exact s mx ex)
    as (m' & m1 & Hm0 & Hb & Hm1 & Hm1le & ->).
  pose proof (digits2_bounds mx) as Hd. pose proof (digits2_bounds mb) as Hdb.
  rewrite fexp_eq in *.
  set (d := Zpos (digits2_pos mx)) in *.
  set (db := Zpos (digits2_pos mb)) in *.
  set (n := Z.max 0 (Z.max (d + ex - 53) (-1074) - ex)) in *.
  assert (Hn0 : 0 <= n) by lia.
  pose proof (Z.pow_pos_nonneg 2 n ltac:(lia) Hn0) as Hpn.
  pose proof (Z.pow_pos_nonneg 2 (ex + 2200) ltac:(lia) ltac:(lia)) as Hpx.
  unfold sval in Hle.
  destruct (Z.eq_dec n 0) as [Hz|Hnz].
  - (* nothing is cut off *)
    rewrite Hz in *. rewrite Z.pow_0_r, Z.add_0_r in *.
    assert (m' = Zpos mx) by lia. subst m'.
    assert (m1 = Zpos mx) by lia. subst m1.
    assert (Hd53 : d <= 53) by lia.
    assert (2 ^ d <= 2 ^ 53) by (apply Z.pow_le_mono_r; lia).
    unfold pack. destruct (Pos.eqb_spec mx 9007199254740992) as [->|_].
    { exfalso. change (Zpos 9007199254740992) with (2 ^ 53) in *. lia. }
    destruct (Z.leb_spec ex 971); [|lia].
    unfold sval. repeat split; lia.
  - (* the mantissa is cut to the exponent [ex + n] of its binade *)
    assert (He' : ex + n = Z.max (d + ex - 53) (-1074)) by lia.
    assert (Hdd : d + ex <= db + eb).
    { assert (2 ^ (d - 1) * 2 ^ (ex + 2200) < 2 ^ db * 2 ^ (eb + 2200)).
      { pose proof (Z.pow_pos_nonneg 2 (eb + 2200) ltac:(lia) ltac:(lia)). nia. }
      rewrite <- !Z.pow_add_r in H by lia.
      apply Z.pow_lt_mono_r_iff in H; lia. }
    assert (Hee : ex + n <= eb) by lia.
    set (j := eb - (ex + n)).
    assert (Hj : 0 <= j) by (unfold j; lia).
    pose proof (Z.pow_pos_nonneg 2 j ltac:(lia) Hj) as Hpj.
    assert (Hsb : Zpos mb * 2 ^ (eb + 2200)
                  = Zpos mb * 2 ^ j * 2 ^ n * 2 ^ (ex + 2200)).
    { replace (eb + 2200) with (j + (n + (ex + 2200))) by (unfold j; lia).
      rewrite !Z.pow_add_r by lia. ring. }
    assert (Hmx : Zpos mx <= Zpos mb * 2 ^ j * 2 ^ n).
    { rewrite Hsb in Hle. apply Z.mul_le_mono_pos_r in Hle; assumption. }
    assert (Hm1b : m1 <= Zpos mb * 2 ^ j) by (destruct Hm1 as [->|[-> Hlt]]; nia).
    assert (Hsv : forall m e, e = ex + n -> m <= Zpos mb * 2 ^ j ->
                              sval m e <= sval (Zpos mb) eb).
    { intros m e -> Hm. unfold sval.
      replace (eb + 2200) with (j + (ex + n + 2200)) by (unfold j; lia).
      rewrite (Z.pow_add_r 2 j (ex + n + 2200)) by lia.
      pose proof (Z.pow_pos_nonneg 2 (ex + n + 2200) ltac:(lia) ltac:(lia)). nia. }
    unfold pack. destruct m1 as [|p|p]; [reflexivity| |lia].
    destruct (Pos.eqb_spec p 9007199254740992) as [->|_].
    + change (Zpos 9007199254740992) with (2 ^ 53) in *.
      assert (Hj1 : 1 <= j).
      { destruct (Z.eq_dec j 0) as [Hj0|]; [|lia].
        rewrite Hj0, Z.pow_0_r in Hm1b. lia. }
      destruct (Z.leb_spec (ex + n + 1) 971); [|unfold j in Hj1; lia].
      split; [reflexivity|]. split; [lia|].
      change (Zpos 4503599627370496) with (2 ^ 52). unfold sval.
      replace (ex + n + 1 + 2200) with (1 + (ex + n + 2200)) by lia.
      rewrite (Z.pow_add_r 2 1 (ex + n + 2200)) by lia.
      specialize (Hsv (2 ^ 53) (ex + n) eq_refl Hm1b). unfold sval in Hsv.
      change (2 ^ 1) with 2. change (2 ^ 53) with (2 * 2 ^ 52) in Hsv. lia.
    + destruct (Z.leb_spec (ex + n) 971); [|lia].
      split; [reflexivity|]. split; [lia|]. apply Hsv; [reflexivity|assumption].
Qed.

Lemma binary_round_le (s : bool) (mx : positive) (ex : Z)
      (mb : positive) (eb : Z) :
  -2200 <= ex <= 971 ->
  bounded 53 1024 mb eb = true ->
  sval (Zpos mx) ex <= sval (Zpos mb) eb ->
  match binary_round 53 1024 s mx ex with
  | S754_zero s' => s' = s
  | S754_finite s' m e =>
      s' = s /\ -2200 <= e /\ sval (Zpos m) e <= sval (Zpos mb) eb
  | _ => False
  end.
Proof.
  intros Hex Hbd Hle. unfold binary_round.
  destruct (shl_align_spec mx ex (fexp 53 1024 (Zpos (digits2_pos mx) + ex)))
    as (k & Hk & -> & Hkeq).
  rewrite fexp_eq in Hkeq.
  pose proof (Z.pow_pos_nonneg 2 k ltac:(lia) Hk) as Hp.
  assert (Hz : Zpos (Z.to_pos (Zpos mx * 2 ^ k)) = Zpos mx * 2 ^ k)
    by (apply Z2Pos.id; nia).
  assert (Hsv : sval (Zpos (Z.to_pos (Zpos mx * 2 ^ k))) (ex - k)
                <= sval (Zpos mb) eb).
  { rewrite Hz, sval_shift by lia. replace (ex - k + k) with ex by lia.
    exact Hle. }
  pose proof (binary_round_aux_le s (Z.to_pos (Zpos mx * 2 ^ k)) (ex - k) mb eb
                ltac:(lia) Hbd Hsv) as H.
  destruct (binary_round_aux _ _ _ _ _ _) as [s'|s'| |s' m e]; try assumption.
  destruct H as (Hs & He & Hv). repeat split; try assumption. lia.
Qed.

Lemma trunc_le_of_sval (m : positive) (e o : Z) :
  -2200 <= e ->
  sval (Zpos m) e <= (2 * o + 1) * 2 ^ 2199 ->
  exists z : Z, F64.trunc (S754_finite false m e) = Some z /\ 0 <= z <= o.
Proof.
  intros He Hle. cbn [F64.trunc]. eexists; split; [reflexivity|].
  unfold sval in Hle.
  assert (HP : 0 < 2 ^ 2199) by (apply Z.pow_pos_nonneg; lia).
  assert (H2 : 2 ^ 2200 = 2 * 2 ^ 2199).
  { change 2200 with (1 + 2199). rewrite Z.pow_add_r by lia. reflexivity. }
  destruct (Z.leb_spec 0 e) as [Hpos|Hneg].
  - pose proof (Z.pow_pos_nonneg 2 e ltac:(lia) Hpos).
    rewrite (Z.pow_add_r 2 e 2200), H2 in Hle by lia. split; nia.
  - pose proof (Z.pow_pos_nonneg 2 (- e) ltac:(lia) ltac:(lia)) as Hp.
    pose proof (Z.pow_pos_nonneg 2 (e + 2200) ltac:(lia) ltac:(lia)) as Hq.
    assert (H3 : 2 ^ (- e) * 2 ^ (e + 2200) = 2 * 2 ^ 2199).
    { rewrite <- Z.pow_add_r by lia. replace (- e + (e + 2200)) with 2200 by lia.
      exact H2. }
    pose proof (Z.mul_div_le (Zpos m) (2 ^ (- e)) Hp) as Hdiv.
    assert (0 <= Zpos m / 2 ^ (- e)) by (apply Z.div_pos; lia).
    split; [assumption|]. nia.
Qed.

Lemma to_int_le (x : F64.t) (o : Z) :
  0 <= o ->
  match x with
  | S754_zero _ => True
  | S754_finite false m e =>
      -2200 <= e /\ sval (Zpos m) e <= (2 * o + 1) * 2 ^ 2199
  | _ => False
  end ->
  F64.to_int x <= o.
Proof.
  intros Ho Hx. unfold F64.to_int, F64.cvttsd2sq.
  assert (H63 : - 2 ^ 63 <= o) by (assert (- 2 ^ 63 < 0) by reflexivity; lia).
  destruct x as [s|s| |[|] m e]; try contradiction.
  - cbn [F64.trunc]. destruct (_ && _); lia.
  - destruct Hx as [He Hle].
    destruct (trunc_le_of_sval m e o He Hle) as (z & -> & Hz).
    destruct (_ && _); lia.
Qed.

(** The draws of [rand.Float64]: floats of the format in [0,1). *)
Lemma unit_interval_cases (r : F64.t) :
  valid_binary 53 1024 r = true ->
  F64.le (F64.of_int 0) r = true ->
  F64.lt r (F64.of_int 1) = true ->
  match r with
  | S754_zero _ => True
  | S754_finite false m e => -1074 <= e < 0 /\ Zpos m < 2 ^ (- e)
  | _ => False
  end.
Proof.
  destruct r as [s|[|]| |[|] m e].
  - exact (fun _ _ _ => I).
  - intros _ H _. discriminate H.
  - intros _ _ H. discriminate H.
  - intros _ H _. discriminate H.
  - intros _ H _. discriminate H.
  - cbn [valid_binary]. intros Hb _ Hlt.
    destruct (bounded_facts m e Hb) as (Hm & He & _). clear Hb.
    change (F64.of_int 1)
      with (S754_finite false 4503599627370496 (-52)) in Hlt.
    unfold F64.lt, SFltb in Hlt. cbn [SFcompare] in Hlt.
    change PosDef.Pos.compare_cont with Pos.compare_cont in Hlt.
    rewrite Pos.compare_cont_spec in Hlt. cbn [Pos.switch_Eq] in Hlt.
    destruct (Z.compare_spec e (-52)) as [E52|Hl|Hg]; try discriminate.
    + subst e. rewrite Pos2Z.inj_compare in Hlt.
      destruct (Z.compare_spec (Zpos m) (Zpos 4503599627370496)) as [|Hl|];
        try discriminate.
      clear Hlt. split; [lia|].
      change (2 ^ (- -52)) with (Zpos 4503599627370496). lia.
    + clear Hlt. split; [lia|].
      assert (2 ^ 53 <= 2 ^ (- e)) by (apply Z.pow_le_mono_r; lia). lia.
Qed.

Lemma drift_facts_all (o : Z) : 5 <= o <= 100 -> drift_facts o = true.
Proof.
  intros Ho.
  assert (Hall : forallb drift_facts (map Z.of_nat (seq 5 96)) = true)
    by (vm_compute; reflexivity).
  rewrite forallb_forall in Hall. apply Hall.
  apply in_map_iff. exists (Z.to_nat o). split; [lia|].
  apply in_seq. lia.
Qed.

Lemma sval_add (a b e : Z) : sval (a + b) e = sval a e + sval b e.
Proof. unfold sval. ring. Qed.

Lemma shl_align_sval (m : positive) (e ez : Z) :
  -2200 <= ez <= e ->
  sval (Zpos (fst (shl_align m e ez))) ez = sval (Zpos m) e.
Proof.
  intros He. destruct (shl_align_spec m e ez) as (k & Hk & -> & Hkeq).
  cbn [fst]. pose proof (Z.pow_pos_nonneg 2 k ltac:(lia) Hk) as Hp.
  rewrite Z2Pos.id by nia. rewrite sval_shift by lia. f_equal. lia.
Qed.

(** The drift stays at or below the origin, whatever the draw. *)
Lemma drift_upper (o : Z) (r : F64.t) :
  5 <= o <= 100 ->
  valid_binary 53 1024 r = true ->
  F64.le (F64.of_int 0) r = true ->
  F64.lt r (F64.of_int 1) = true ->
  let minValue := F64.mul (F64.of_int o) Main.c0_2 in
  let maxValue := F64.of_int o in
  F64.to_int (F64.add minValue (F64.mul r (F64.sub maxValue minValue))) <= o /\
  F64.to_int minValue <= o.
Proof.
  intros Ho Hv H0 H1. cbv zeta.
  pose proof (drift_facts_all o Ho) as Hf. unfold drift_facts in Hf.
  cbv zeta in Hf.
  destruct (F64.mul (F64.of_int o) Main.c0_2)
    as [?|?| |[|] mn en] eqn:Emin; try discriminate Hf.
  destruct (F64.sub (F64.of_int o) (S754_finite false mn en))
    as [?|?| |[|] md ed] eqn:Ed; try discriminate Hf.
  destruct (binary_normalize 53 1024 (2 * o + 1) (-1) false)
    as [?|?| |[|] mt et] eqn:Et; try discriminate Hf.
  do 7 (apply andb_true_iff in Hf; destruct Hf as [Hf ?]).
  repeat match goal with
         | H : (_ <=? _) = true |- _ => apply Z.leb_le in H
         end.
  rename Hf into Hbd.
  match goal with H : bounded 53 1024 mt et = true |- _ => rename H into Hbt end.
  match goal with H : F64.to_int _ <= o |- _ => rename H into Hmin end.
  match goal with H : _ + _ <= sval (Zpos mt) et |- _ => rename H into Hsum end.
  match goal with H : sval (Zpos mt) et <= _ |- _ => rename H into Htop end.
  split; [|exact Hmin].
  destruct (bounded_facts md ed Hbd) as (_ & Hed & _).
  pose proof (unit_interval_cases r Hv H0 H1) as Hr.
  destruct r as [s|s| |[|] mr er]; try contradiction.
  - (* the draw is zero *) exact Hmin.
  - destruct Hr as [Her Hmr].
    cbn [F64.mul SFmul xorb].
    change F64.prec with 53. change F64.emax with 1024.
    assert (Hq : sval (Zpos (mr * md)) (er + ed) <= sval (Zpos md) ed).
    { unfold sval. rewrite Pos2Z.inj_mul.
      replace (ed + 2200) with (- er + (er + ed + 2200)) by lia.
      rewrite (Z.pow_add_r 2 (- er) (er + ed + 2200)) by lia.
      pose proof (Z.pow_pos_nonneg 2 (er + ed + 2200) ltac:(lia) ltac:(lia)).
      nia. }
    pose proof (binary_round_aux_le false (mr * md) (er + ed) md ed
                  ltac:(lia) Hbd Hq) as Hmul.
    destruct (binary_round_aux 53 1024 false (Zpos (mr * md)) (er + ed) loc_Exact)
      as [sq|sq| |sq mq eq]; try contradiction.
    + exact Hmin.
    + destruct Hmul as (-> & Heq & Hmq).
      cbn [F64.add SFadd cond_Zopp].
      change F64.prec with 53. change F64.emax with 1024.
      set (ez := Z.min en eq).
      pose proof (shl_align_sval mn en ez ltac:(lia)) as Ha.
      pose proof (shl_align_sval mq eq ez ltac:(lia)) as Hb.
      set (a := fst (shl_align mn en ez)) in *.
      set (b := fst (shl_align mq eq ez)) in *.
      change (Zpos a + Zpos b) with (Zpos (a + b)).
      cbn [binary_normalize].
      assert (Hs : sval (Zpos (a + b)) ez <= sval (Zpos mt) et).
      { rewrite Pos2Z.inj_add, sval_add, Ha, Hb. lia. }
      pose proof (binary_round_le false (a + b) ez mt et ltac:(lia) Hbt Hs)
        as Hadd.
      apply to_int_le; [lia|].
      destruct (binary_round 53 1024 false (a + b) ez) as [?|?| |sr m e];
        try contradiction; [exact I|].
      destruct Hadd as (-> & He & Hm). split; [exact He|lia].
Qed.

(** C5, as the specification states it, fails: with origin ceiling 100 and
    the draw 0.99 the drift update sets the current ceiling to 99, above
    the hard safety ceiling of 70. *)
Lemma C5_counterexample :
  let w := {| Main.environ := fun _ => None; Main.utc_hour := 0;
              Main.rand_src := fun _ => F64.lit 99 100; Main.rand_pos := 0;
              Main.log := []; Main.peakUsageOrigin := 100;
              Main.peakUsage := 100;
              Main.cpuController := Cpu.cpuController;
              Main.memoryController := Mem.memoryController |} in
  ~ (Main.peakUsage (snd (Main.updatePeakUsage w)) <= 70).
Proof. vm_compute. intros H. apply H. reflexivity. Qed.

(** C5, amended: for every origin ceiling in [5,100] and every draw in
    [0,1), one drift update sets the current ceiling to the integer part of
    [minValue + draw * (origin - minValue)], where [minValue] is
    [0.2 * origin], all in float64, raised to the integer part of
    [minValue] and to the minimum usage 5 when it is below them; the
    resulting ceiling is at least 5 and never exceeds the origin ceiling.
    The update applies no cap at 70. *)
Theorem C5_updatePeakUsage (w : Main.World) :
  let origin := Main.peakUsageOrigin w in
  let r := Main.rand_src w (Main.rand_pos w) in
  let minValue := F64.mul (F64.of_int origin) (F64.lit 2 10) in
  let newValue :=
    F64.add minValue (F64.mul r (F64.sub (F64.of_int origin) minValue)) in
  let w' := snd (Main.updatePeakUsage w) in
  5 <= origin <= 100 ->
  valid_binary 53 1024 r = true ->
  F64.le (F64.of_int 0) r = true ->
  F64.lt r (F64.of_int 1) = true ->
  Main.peakUsage w'
  = Z.max (Z.max (F64.to_int newValue) (F64.to_int minValue)) 5 /\
  5 <= Main.peakUsage w' <= origin /\
  Main.peakUsageOrigin w' = origin /\
  Main.rand_pos w' = S (Main.rand_pos w).
Proof.
  intros origin r minValue newValue w' Ho Hv H0 H1.
  destruct (drift_upper origin r Ho Hv H0 H1) as [Hnew Hmin].
  change Main.c0_2 with (F64.lit 2 10) in Hnew, Hmin.
  fold minValue in Hnew, Hmin. fold newValue in Hnew.
  assert (Hp : Main.peakUsage w'
               = let p := F64.to_int newValue in
                 let p := if p <? F64.to_int minValue
                          then F64.to_int minValue else p in
                 if p <? Main.minPeakUsage then Main.minPeakUsage else p)
    by reflexivity.
  cbv zeta in Hp. change Main.minPeakUsage with 5 in Hp.
  split; [|split; [|split; reflexivity]].
  - rewrite Hp.
    destruct (Z.ltb_spec (F64.to_int newValue) (F64.to_int minValue));
      match goal with |- context [?a <? 5] => destruct (Z.ltb_spec a 5) end;
      lia.
  - rewrite Hp.
    destruct (Z.ltb_spec (F64.to_int newValue) (F64.to_int minValue));
      match goal with |- context [?a <? 5] => destruct (Z.ltb_spec a 5) end;
      lia.
Qed.

Lemma C5_updatePeakUsage_witness :
  let w := {| Main.environ := fun _ => None; Main.utc_hour := 0;
              Main.rand_src := fun _ => F64.lit 99 100; Main.rand_pos := 0;
              Main.log := []; Main.peakUsageOrigin := 100;
              Main.peakUsage := 100;
              Main.cpuController := Cpu.cpuController;
              Main.memoryController := Mem.memoryController |} in
  5 <= Main.peakUsage (snd (Main.updatePeakUsage w)) <= 100.
Proof.
  intros w.
  assert (Ho : 5 <= 100 <= 100) by (split; discriminate).
  exact (proj1 (proj2 (C5_updatePeakUsage w Ho eq_refl eq_refl eq_refl))).
Defined.

(* ================================================================== *)
(** * Part III: further properties of the code                          *)
(* ================================================================== *)

(** ** The memory load engine, step by step *)

Lemma blocksPerStep_bounds (total : Z) :
  0 <= total ->
  0 <= Mem.blocksPerStep total /\
  total / 1000 <= Mem.blocksPerStep total * Mem.blockSize /\
  (0 < total / 1000 -> 0 < Mem.blocksPerStep total).
Proof.
  intros Ht. unfold Mem.blocksPerStep.
  assert (Hbs : Mem.blockSize = 1048576) by reflexivity. rewrite Hbs.
  assert (Ha : 0 <= total / 1000) by (apply Z.div_pos; lia).
  set (adj := total / 1000) in *.
  pose proof (Z.div_mod (adj + 1048576 - 1) 1048576 ltac:(lia)) as Hd.
  pose proof (Z.mod_pos_bound (adj + 1048576 - 1) 1048576 ltac:(lia)) as Hm.
  assert (0 <= (adj + 1048576 - 1) / 1048576) by (apply Z.div_pos; lia).
  repeat split; try lia.
Qed.

Lemma getCurrentProgramMemory_fits (mc : Mem.MemoryController) :
  fits mc ->
  Mem.len mc = Z.of_nat (List.length (Mem.buffer mc)) /\
  Mem.getCurrentProgramMemory mc
  = Z.of_nat (List.length (Mem.buffer mc)) * Mem.blockSize.
Proof.
  intros [Ht Hf].
  destruct (blocksPerStep_bounds _ (proj1 Ht)) as (HB & _).
  assert (Hbs : Mem.blockSize = 1048576) by reflexivity.
  assert (H64 : 2 ^ 64 = 18446744073709551616) by reflexivity.
  rewrite Hbs, H64 in *.
  set (n := Z.of_nat (List.length (Mem.buffer mc))) in *.
  assert (Hn : 0 <= n) by apply Nat2Z.is_nonneg.
  assert (Hlen : Mem.len mc = n).
  { unfold Mem.len. fold n. apply wrap_small. lia. }
  split; [exact Hlen|].
  unfold Mem.getCurrentProgramMemory, U64.mul. rewrite Hlen, Hbs.
  apply wrap_small. lia.
Qed.

(** One step, exactly: an increase appends the blocks of one request after
    the blocks already held; a decrease drops that many blocks from the
    tail, or all of them when fewer are held. *)
Lemma AdjustMemoryRandom_exact (d : bool) (mc : Mem.MemoryController) :
  fits mc ->
  let n := List.length (Mem.buffer mc) in
  let b := Z.to_nat (Mem.blocksPerStep (Mem.totalMemory mc)) in
  let buf' := if d then Mem.buffer mc ++ repeat Mem.new_block b
              else firstn (n - b) (Mem.buffer mc) in
  Mem.AdjustMemoryRandom d mc
  = ((true, d, Z.of_nat (List.length buf') * Mem.blockSize),
     {| Mem.buffer := buf'; Mem.totalMemory := Mem.totalMemory mc |}).
Proof.
  intros Hfits n b buf'.
  destruct (getCurrentProgramMemory_fits mc Hfits) as [Hlen Hcur].
  destruct Hfits as [Ht Hf].
  destruct (blocksPerStep_bounds _ (proj1 Ht)) as (HB & HBadj & HBpos).
  assert (Hbs : Mem.blockSize = 1048576) by reflexivity.
  assert (H64 : 2 ^ 64 = 18446744073709551616) by reflexivity.
  set (B := Mem.blocksPerStep (Mem.totalMemory mc)) in *.
  set (adj := Mem.totalMemory mc / 1000) in *.
  assert (Hadj : 0 <= adj) by (apply Z.div_pos; lia).
  assert (Hn : Z.of_nat n = Z.of_nat (List.length (Mem.buffer mc))) by reflexivity.
  assert (Hb : Z.of_nat b = B) by (apply Z2Nat.id; exact HB).
  (* the controller the step ends in *)
  assert (Hgoal : forall mc' : Mem.MemoryController,
             Mem.buffer mc' = buf' -> Mem.totalMemory mc' = Mem.totalMemory mc ->
             (Z.of_nat (List.length buf') + 1) * Mem.blockSize <= 2 ^ 64 ->
             (Mem.getCurrentProgramMemory mc', mc')
             = (Z.of_nat (List.length buf') * Mem.blockSize,
                {| Mem.buffer := buf'; Mem.totalMemory := Mem.totalMemory mc |})).
  { intros [bf tm] Hbf Htm Hsz. cbn [Mem.buffer Mem.totalMemory] in Hbf, Htm.
    subst bf tm. f_equal.
    unfold Mem.getCurrentProgramMemory, U64.mul, Mem.len. cbn [Mem.buffer].
    rewrite Hbs, H64 in *.
    assert (0 <= Z.of_nat (List.length buf')) by apply Nat2Z.is_nonneg.
    rewrite (wrap_small (Z.of_nat (List.length buf'))) by lia.
    apply wrap_small. lia. }
  assert (Hlenb : List.length buf'
                  = if d then (n + b)%nat else (n - b)%nat).
  { unfold buf'. destruct d.
    - rewrite length_app, repeat_length. reflexivity.
    - rewrite length_firstn. fold n. lia. }
  assert (Hsz : (Z.of_nat (List.length buf') + 1) * Mem.blockSize <= 2 ^ 64).
  { rewrite Hlenb, Hbs, H64 in *. destruct d; lia. }
  unfold Mem.AdjustMemoryRandom. cbv zeta. fold adj. rewrite Hcur.
  fold n. rewrite <- Hn in *.
  match goal with
  | |- context [Mem.adjustTo ?t mc] =>
      assert (Hp : Mem.adjustTo t mc
                   = (Z.of_nat (List.length buf') * Mem.blockSize,
                      {| Mem.buffer := buf';
                         Mem.totalMemory := Mem.totalMemory mc |}));
        [|rewrite Hp; reflexivity]
  end.
  unfold Mem.adjustTo. cbv zeta. rewrite Hcur. fold n.
  rewrite Hbs, H64 in *.
  destruct d.
  - (* increase *)
    unfold U64.add. rewrite (wrap_small (Z.of_nat n * 1048576 + adj)) by lia.
    destruct (Z.ltb_spec (Z.of_nat n * 1048576) (Z.of_nat n * 1048576 + adj))
      as [Hlt|Hge].
    + apply Hgoal; [|reflexivity|exact Hsz].
      unfold Mem.allocateMemory. cbv zeta. cbn [Mem.buffer]. unfold buf'.
      do 2 f_equal. unfold b. f_equal.
      unfold U64.sub, U64.add. rewrite Hbs.
      replace (Z.of_nat n * 1048576 + adj - Z.of_nat n * 1048576) with adj by lia.
      rewrite (wrap_small adj) by lia.
      rewrite (wrap_small (adj + 1048576)) by lia.
      rewrite (wrap_small (adj + 1048576 - 1)) by lia.
      unfold B, Mem.blocksPerStep. fold adj. rewrite Hbs. reflexivity.
    + assert (adj = 0) by lia.
      assert (HB0 : B = 0).
      { unfold B, Mem.blocksPerStep. fold adj. rewrite Hbs.
        replace adj with 0 by lia. reflexivity. }
      destruct (Z.ltb_spec (Z.of_nat n * 1048576 + adj) (Z.of_nat n * 1048576));
        [lia|].
      apply Hgoal; [|reflexivity|exact Hsz].
      unfold buf'. replace b with 0%nat by lia. cbn [repeat].
      symmetry. apply app_nil_r.
  - (* decrease *)
    set (target := if adj <? Z.of_nat n * 1048576
                   then U64.sub (Z.of_nat n * 1048576) adj else 0).
    assert (Htar : target = Z.max 0 (Z.of_nat n * 1048576 - adj)).
    { unfold target. destruct (Z.ltb_spec adj (Z.of_nat n * 1048576)); [|lia].
      unfold U64.sub. rewrite wrap_small; lia. }
    destruct (Z.ltb_spec (Z.of_nat n * 1048576) target); [lia|].
    destruct (Z.ltb_spec target (Z.of_nat n * 1048576)) as [Hlt|Hge].
    + assert (Hrel : Mem.releaseMemory (U64.sub (Z.of_nat n * 1048576) target) mc
                     = {| Mem.buffer := buf';
                          Mem.totalMemory := Mem.totalMemory mc |});
        [|rewrite Hrel; apply Hgoal; [reflexivity|reflexivity|exact Hsz]].
      unfold Mem.releaseMemory. cbv zeta. rewrite Hlen. fold n.
      assert (Hblocks : U64.sub (U64.add (U64.sub (Z.of_nat n * 1048576) target)
                                         Mem.blockSize) 1 / Mem.blockSize
                        = Z.min B (Z.of_nat n)).
      { unfold U64.sub, U64.add. rewrite Hbs.
        rewrite (wrap_small (Z.of_nat n * 1048576 - target)) by lia.
        rewrite (wrap_small (Z.of_nat n * 1048576 - target + 1048576)) by lia.
        rewrite (wrap_small (Z.of_nat n * 1048576 - target + 1048576 - 1))
          by lia.
        destruct (Z_lt_ge_dec adj (Z.of_nat n * 1048576)) as [Hc|Hc].
        - replace (Z.of_nat n * 1048576 - target) with adj by lia.
          assert (HBn : B <= Z.of_nat n).
          { unfold B, Mem.blocksPerStep. fold adj. rewrite Hbs.
            apply Z.lt_succ_r, Z.div_lt_upper_bound; lia. }
          rewrite Z.min_l by exact HBn.
          unfold B, Mem.blocksPerStep. fold adj. rewrite Hbs. reflexivity.
        - replace (Z.of_nat n * 1048576 - target) with (Z.of_nat n * 1048576)
            by lia.
          assert (HnB : Z.of_nat n <= B) by nia.
          rewrite Z.min_r by exact HnB.
          replace (Z.of_nat n * 1048576 + 1048576 - 1)
            with (Z.of_nat n * 1048576 + 1048575) by lia.
          rewrite Z.div_add_l by lia. rewrite (Z.div_small 1048575) by lia.
          lia. }
      rewrite Hblocks.
      assert (Hpos : 0 < Z.min B (Z.of_nat n)).
      { assert (0 < Z.of_nat n) by lia.
        destruct (Z_lt_ge_dec adj (Z.of_nat n * 1048576)).
        - assert (0 < adj) by lia. specialize (HBpos ltac:(lia)). lia.
        - assert (0 < B) by nia. lia. }
      destruct (Z.ltb_spec (Z.of_nat n) (Z.min B (Z.of_nat n))); [lia|].
      destruct (Z.ltb_spec 0 (Z.min B (Z.of_nat n))); [|lia].
      unfold buf'. fold n. do 2 f_equal. lia.
    + assert (Hz : adj = 0 \/ n = 0%nat) by lia.
      apply Hgoal; [|reflexivity|exact Hsz].
      unfold buf'. fold n. destruct Hz as [Hz|Hz].
      * assert (HB0 : B = 0).
        { unfold B, Mem.blocksPerStep. fold adj. rewrite Hbs, Hz. reflexivity. }
        replace b with 0%nat by lia. rewrite Nat.sub_0_r.
        symmetry. apply firstn_all.
      * rewrite Hz. cbn [Nat.sub firstn].
        apply (proj1 (length_zero_iff_nil (Mem.buffer mc))). exact Hz.
Qed.

Lemma firstn_repeat (A : Type) (x : A) (m n : nat) :
  (m <= n)%nat -> firstn m (repeat x n) = repeat x m.
Proof.
  intros H. replace n with (m + (n - m))%nat by lia.
  rewrite repeat_app, firstn_app, repeat_length, Nat.sub_diag.
  rewrite firstn_all2 by (rewrite repeat_length; lia).
  cbn [firstn]. apply app_nil_r.
Qed.

Lemma firstn_prefix (A : Type) (k : nat) (l : list A) :
  l = firstn k l ++ skipn k l /\
  List.length (skipn k l) = (List.length l - k)%nat.
Proof. split; [symmetry; apply firstn_skipn|apply length_skipn]. Qed.

(** X1: as long as the balloon and one more request fit a [uint64] byte
    count, one call of [AdjustMemoryRandom] returns success, the direction
    it was given and the size that [GetCurrentMemory] reports afterwards,
    and leaves the total memory alone.  An increase appends the blocks of
    one request after the blocks already held and raises the size by
    exactly these blocks; a decrease drops blocks from the tail only, as
    many as one request has or all that are held, and lowers the size by
    exactly the blocks it drops. *)
Theorem balloon_step_is_lifo (d : bool) (mc : Mem.MemoryController) :
  fits mc ->
  let b := Z.to_nat (Mem.blocksPerStep (Mem.totalMemory mc)) in
  let r := Mem.AdjustMemoryRandom d mc in
  let mc' := snd r in
  fst r = (true, d, Mem.GetCurrentMemory mc') /\
  Mem.totalMemory mc' = Mem.totalMemory mc /\
  (d = true ->
   Mem.buffer mc' = Mem.buffer mc ++ repeat Mem.new_block b /\
   Mem.GetCurrentMemory mc'
   = Mem.GetCurrentMemory mc + Z.of_nat b * Mem.blockSize) /\
  (d = false ->
   exists dropped : list Mem.Block,
     Mem.buffer mc = Mem.buffer mc' ++ dropped /\
     List.length dropped = Nat.min b (List.length (Mem.buffer mc)) /\
     Mem.GetCurrentMemory mc'
     = Mem.GetCurrentMemory mc - Z.of_nat (List.length dropped) * Mem.blockSize).
Proof.
  intros Hfits b r mc'.
  pose proof (AdjustMemoryRandom_exact d mc Hfits) as Hstep. cbv zeta in Hstep.
  fold b in Hstep.
  destruct (getCurrentProgramMemory_fits mc Hfits) as [_ Hcur].
  assert (Hbs : Mem.blockSize = 1048576) by reflexivity.
  assert (H64 : 2 ^ 64 = 18446744073709551616) by reflexivity.
  assert (Hb : Z.of_nat b = Mem.blocksPerStep (Mem.totalMemory mc)).
  { apply Z2Nat.id. destruct Hfits as [Ht _].
    apply (blocksPerStep_bounds _ (proj1 Ht)). }
  assert (Hcur' : Mem.GetCurrentMemory mc'
                  = Z.of_nat (List.length (Mem.buffer mc')) * Mem.blockSize).
  { unfold mc', r. rewrite Hstep. cbn [snd].
    unfold Mem.GetCurrentMemory, Mem.getCurrentProgramMemory, U64.mul, Mem.len.
    cbn [Mem.buffer].
    match goal with |- context [List.length ?l] => set (n' := List.length l) end.
    assert (Hn' : (n' <= List.length (Mem.buffer mc) + b)%nat).
    { unfold n'. destruct d.
      - rewrite length_app, repeat_length. lia.
      - rewrite length_firstn. lia. }
    destruct Hfits as [_ Hf]. rewrite Hbs, H64 in *.
    rewrite (wrap_small (Z.of_nat n')) by lia. apply wrap_small. lia. }
  unfold Mem.GetCurrentMemory in *. rewrite Hcur', Hcur.
  unfold mc', r. rewrite Hstep. cbn [fst snd Mem.buffer Mem.totalMemory].
  split; [reflexivity|]. split; [reflexivity|]. split.
  - intros ->. split; [reflexivity|].
    rewrite length_app, repeat_length, Nat2Z.inj_add. ring.
  - intros ->.
    set (n := List.length (Mem.buffer mc)).
    destruct (firstn_prefix _ (n - b) (Mem.buffer mc)) as [Hsplit Hlen].
    exists (skipn (n - b) (Mem.buffer mc)). split; [exact Hsplit|].
    fold n in Hlen. split; [lia|].
    rewrite Hlen, length_firstn. fold n. lia.
Qed.

Lemma balloon_step_is_lifo_witness :
  let mc := Mem.SetTotalMemory (10 * 2 ^ 30) Mem.memoryController in
  Mem.buffer (snd (Mem.AdjustMemoryRandom true mc))
  = Mem.buffer mc ++ repeat Mem.new_block 11.
Proof.
  intros mc.
  assert (Hf : fits mc) by (unfold fits; vm_compute; intuition discriminate).
  exact (proj1 (proj1 (proj2 (proj2 (balloon_step_is_lifo true mc Hf)))
                      eq_refl)).
Defined.

(** X2: when two more requests still fit a [uint64] byte count, a decrease
    step right after an increase step gives back the controller as it was:
    the same blocks and the same total memory. *)
Theorem balloon_decrease_undoes_increase (mc : Mem.MemoryController) :
  0 <= Mem.totalMemory mc < 2 ^ 64 ->
  (Z.of_nat (List.length (Mem.buffer mc))
   + 2 * Mem.blocksPerStep (Mem.totalMemory mc) + 1) * Mem.blockSize < 2 ^ 64 ->
  snd (Mem.AdjustMemoryRandom false (snd (Mem.AdjustMemoryRandom true mc)))
  = mc.
Proof.
  intros Ht Hf.
  destruct (blocksPerStep_bounds _ (proj1 Ht)) as (HB & _).
  assert (Hbs : Mem.blockSize = 1048576) by reflexivity.
  assert (Hfits : fits mc) by (split; [exact Ht|rewrite Hbs in *; lia]).
  rewrite (AdjustMemoryRandom_exact true mc Hfits). cbn [snd].
  set (b := Z.to_nat (Mem.blocksPerStep (Mem.totalMemory mc))).
  assert (Hb : Z.of_nat b = Mem.blocksPerStep (Mem.totalMemory mc))
    by (apply Z2Nat.id; exact HB).
  match goal with |- context [Mem.AdjustMemoryRandom false ?m] =>
    assert (Hfits' : fits m) end.
  { split; cbn [Mem.totalMemory Mem.buffer]; [exact Ht|].
    rewrite length_app, repeat_length, Nat2Z.inj_add, Hbs in *. fold b. lia. }
  rewrite (AdjustMemoryRandom_exact false _ Hfits').
  cbn [snd Mem.buffer Mem.totalMemory]. fold b.
  rewrite length_app, repeat_length.
  replace (List.length (Mem.buffer mc) + b - b)%nat
    with (List.length (Mem.buffer mc)) by lia.
  rewrite firstn_app, Nat.sub_diag, firstn_all. cbn [firstn].
  rewrite app_nil_r. destruct mc; reflexivity.
Qed.

Lemma balloon_decrease_undoes_increase_witness :
  let mc := Mem.SetTotalMemory (10 * 2 ^ 30) Mem.memoryController in
  snd (Mem.AdjustMemoryRandom false (snd (Mem.AdjustMemoryRandom true mc)))
  = mc.
Proof.
  intros mc. apply balloon_decrease_undoes_increase;
    vm_compute; intuition discriminate.
Defined.

(** X4: with a total memory below 1000 bytes, as it is before
    [SetTotalMemory] is called, a step asks for 0 bytes: [AdjustMemoryRandom]
    reports success and the present size in either direction and leaves
    the controller as it is. *)
Theorem balloon_needs_total_memory (d : bool) (mc : Mem.MemoryController) :
  0 <= Mem.totalMemory mc < 1000 ->
  Mem.AdjustMemoryRandom d mc = ((true, d, Mem.GetCurrentMemory mc), mc).
Proof.
  intros Ht. unfold Mem.AdjustMemoryRandom, Mem.GetCurrentMemory. cbv zeta.
  rewrite (Z.div_small (Mem.totalMemory mc) 1000) by lia.
  pose proof (wrap_range (Mem.len mc * Mem.blockSize)) as Hr.
  change (U64.wrap (Mem.len mc * Mem.blockSize))
    with (Mem.getCurrentProgramMemory mc) in Hr.
  set (cur := Mem.getCurrentProgramMemory mc) in *.
  assert (Htar : (if d then U64.add cur 0
                  else if 0 <? cur then U64.sub cur 0 else 0) = cur).
  { unfold U64.add, U64.sub. rewrite Z.add_0_r, Z.sub_0_r.
    destruct d; [apply wrap_small; exact Hr|].
    destruct (Z.ltb_spec 0 cur); [apply wrap_small; exact Hr|lia]. }
  rewrite Htar. unfold Mem.adjustTo. cbv zeta. fold cur.
  rewrite Z.ltb_irrefl. reflexivity.
Qed.

Lemma balloon_needs_total_memory_witness :
  Mem.AdjustMemoryRandom true Mem.memoryController
  = ((true, true, 0), Mem.memoryController).
Proof.
  apply (balloon_needs_total_memory true Mem.memoryController).
  vm_compute. intuition discriminate.
Defined.

Lemma run_level_from (total : Z) (steps : list bool) :
  forall k : nat,
    0 <= total < 2 ^ 64 ->
    ((Z.of_nat k + Z.of_nat (List.length steps) + 1) * Mem.blocksPerStep total
     + 1) * Mem.blockSize < 2 ^ 64 ->
    Mem.run steps
      {| Mem.buffer :=
           repeat Mem.new_block (k * Z.to_nat (Mem.blocksPerStep total));
         Mem.totalMemory := total |}
    = {| Mem.buffer :=
           repeat Mem.new_block
             (fold_left (fun j (d : bool) => if d then S j else Nat.pred j)
                        steps k
              * Z.to_nat (Mem.blocksPerStep total));
         Mem.totalMemory := total |}.
Proof.
  destruct (Z_lt_ge_dec total 0) as [|Ht0]; [intros; lia|].
  destruct (blocksPerStep_bounds total ltac:(lia)) as (HB & _).
  set (B := Mem.blocksPerStep total) in *.
  set (b := Z.to_nat B).
  assert (Hb : Z.of_nat b = B) by (apply Z2Nat.id; exact HB).
  assert (Hbs : Mem.blockSize = 1048576) by reflexivity.
  unfold Mem.run.
  induction steps as [|d steps IH]; intros k Ht Hf; cbn [fold_left];
    [reflexivity|].
  cbn [List.length] in Hf. rewrite Nat2Z.inj_succ in Hf.
  set (mc := {| Mem.buffer := repeat Mem.new_block (k * b);
                Mem.totalMemory := total |}).
  assert (Hfits : fits mc).
  { unfold fits, mc. cbn [Mem.totalMemory Mem.buffer]. split; [exact Ht|].
    rewrite repeat_length, Nat2Z.inj_mul, Hb. fold B. rewrite Hbs in *. nia. }
  rewrite (AdjustMemoryRandom_exact d mc Hfits). unfold mc.
  cbn [snd Mem.buffer Mem.totalMemory]. fold B. fold b.
  rewrite repeat_length.
  assert (Hbuf : (if d then repeat Mem.new_block (k * b) ++ repeat Mem.new_block b
                  else firstn (k * b - b) (repeat Mem.new_block (k * b)))
                 = repeat Mem.new_block ((if d then S k else Nat.pred k) * b)).
  { destruct d.
    - rewrite <- repeat_app. f_equal. lia.
    - rewrite firstn_repeat by lia. f_equal. destruct k; cbn [Nat.pred]; lia. }
  rewrite Hbuf. apply IH; [exact Ht|].
  rewrite Hbs in *. destruct d; [|destruct k; cbn [Nat.pred]]; nia.
Qed.

(** X3: from the empty balloon, as long as one request more than the
    steps made fits a [uint64] byte count, the balloon after any sequence
    of steps holds a whole number of requests: [level steps] of them, where
    an increase adds one and a decrease takes one away unless there is
    none.  The blocks are all blocks as [allocateMemory] makes them, the
    reported size is [level steps] times the blocks of a request times the
    block size, and the level is at most the number of increase steps. *)
Theorem balloon_counts_requests (total : Z) (steps : list bool) :
  0 <= total < 2 ^ 64 ->
  ((Z.of_nat (List.length steps) + 1) * Mem.blocksPerStep total + 1)
  * Mem.blockSize < 2 ^ 64 ->
  let mc := Mem.run steps (Mem.SetTotalMemory total Mem.memoryController) in
  Mem.buffer mc
  = repeat Mem.new_block
      (level steps * Z.to_nat (Mem.blocksPerStep total)) /\
  Mem.GetCurrentMemory mc
  = Z.of_nat (level steps) * Mem.blocksPerStep total * Mem.blockSize /\
  (level steps <= count_occ bool_dec steps true)%nat.
Proof.
  intros Ht Hf mc.
  pose proof (run_level_from total steps 0 Ht) as Hrun.
  cbn [Nat.mul repeat Z.of_nat Z.add] in Hrun.
  specialize (Hrun Hf).
  change {| Mem.buffer := []; Mem.totalMemory := total |}
    with (Mem.SetTotalMemory total Mem.memoryController) in Hrun.
  fold mc in Hrun. fold (level steps) in Hrun.
  destruct (blocksPerStep_bounds total (proj1 Ht)) as (HB & _).
  assert (Hlevel : forall k,
             (fold_left (fun j (d : bool) => if d then S j else Nat.pred j)
                        steps k
              <= k + count_occ bool_dec steps true)%nat
             /\ (fold_left (fun j (d : bool) => if d then S j else Nat.pred j)
                           steps k
                 <= k + List.length steps)%nat).
  { clear. induction steps as [|d steps IH]; intros k; cbn [fold_left].
    - cbn. lia.
    - destruct d.
      + rewrite count_occ_cons_eq by reflexivity. cbn [List.length].
        specialize (IH (S k)). lia.
      + rewrite count_occ_cons_neq by discriminate. cbn [List.length].
        specialize (IH (Nat.pred k)). lia. }
  destruct (Hlevel 0%nat) as [Hocc Hlen]. fold (level steps) in Hocc, Hlen.
  split; [rewrite Hrun; reflexivity|]. split; [|exact Hocc].
  unfold Mem.GetCurrentMemory, Mem.getCurrentProgramMemory, U64.mul, Mem.len.
  rewrite Hrun. cbn [Mem.buffer].
  rewrite repeat_length, Nat2Z.inj_mul, Z2Nat.id by exact HB.
  assert (Hbs : Mem.blockSize = 1048576) by reflexivity.
  assert (H64 : 2 ^ 64 = 18446744073709551616) by reflexivity.
  rewrite Hbs, H64 in *.
  set (B := Mem.blocksPerStep total) in *.
  assert (0 <= Z.of_nat (level steps) * B <= Z.of_nat (List.length steps) * B)
    by nia.
  rewrite (wrap_small (Z.of_nat (level steps) * B)) by lia.
  apply wrap_small. lia.
Qed.

Lemma balloon_counts_requests_witness :
  Mem.GetCurrentMemory
    (Mem.run [true; true; false]
             (Mem.SetTotalMemory (10 * 2 ^ 30) Mem.memoryController))
  = 11 * Mem.blockSize.
Proof.
  refine (proj1 (proj2 (balloon_counts_requests (10 * 2 ^ 30)
                          [true; true; false] _ _)));
    vm_compute; intuition discriminate.
Defined.

(** ** The CPU load engine: where the count moves and where it stalls *)

Lemma low_region_all (c : Z) : 1 <= c <= 1000 -> low_region_ok c = true.
Proof.
  intros Hc.
  assert (Hall : forallb low_region_ok (map Z.of_nat (seq 1 1000)) = true)
    by (vm_compute; reflexivity).
  rewrite forallb_forall in Hall. apply Hall.
  apply in_map_iff. exists (Z.to_nat c). split; [lia|]. apply in_seq. lia.
Qed.

Lemma AdjustCountRandom_shape (d : bool) (cc : Cpu.CPUController) :
  Cpu.AdjustCountRandom d cc
  = ((true, d, snd (fst (Cpu.AdjustCountRandom d cc))),
     {| Cpu.count := snd (fst (Cpu.AdjustCountRandom d cc)) |}).
Proof. reflexivity. Qed.

Lemma low_region_step (d : bool) (c : Z) :
  1 <= c <= 1000 ->
  Cpu.AdjustCountRandom d {| Cpu.count := c |}
  = ((true, d, if d then c else Z.max 1 (c - 1)),
     {| Cpu.count := if d then c else Z.max 1 (c - 1) |}).
Proof.
  intros Hc. pose proof (low_region_all c Hc) as H.
  unfold low_region_ok in H. apply andb_true_iff in H.
  destruct H as [Hi%Z.eqb_eq Hd%Z.eqb_eq].
  rewrite AdjustCountRandom_shape. destruct d; rewrite ?Hi, ?Hd; reflexivity.
Qed.

Lemma run_app (l1 l2 : list bool) :
  forall cc,
    Cpu.run (l1 ++ l2) cc
    = (fst (Cpu.run l1 cc) ++ fst (Cpu.run l2 (snd (Cpu.run l1 cc))),
       snd (Cpu.run l2 (snd (Cpu.run l1 cc)))).
Proof.
  induction l1 as [|d l1 IH]; intros cc.
  - cbn [app Cpu.run fst snd]. destruct (Cpu.run l2 cc); reflexivity.
  - cbn [app Cpu.run]. rewrite (AdjustCountRandom_shape d cc).
    rewrite IH.
    destruct (Cpu.run l1 _) as [tr1 cc1]. cbn [fst snd].
    destruct (Cpu.run l2 cc1) as [tr2 cc2]. reflexivity.
Qed.

(** In the low region a run only ever counts its decrease steps. *)
Lemma low_region_run (dirs : list bool) :
  forall c : Z,
    1 <= c <= 1000 ->
    Cpu.GetCount (snd (Cpu.run dirs {| Cpu.count := c |}))
    = Z.max 1 (c - Z.of_nat (count_occ bool_dec dirs false)) /\
    Forall (fun r => 1 <= fst r <= c /\ snd r = fst r)
           (fst (Cpu.run dirs {| Cpu.count := c |})).
Proof.
  induction dirs as [|d dirs IH]; intros c Hc.
  - cbn. split; [lia|constructor].
  - cbn [Cpu.run]. rewrite (low_region_step d c Hc).
    set (c' := if d then c else Z.max 1 (c - 1)).
    assert (Hc' : 1 <= c' <= 1000) by (unfold c'; destruct d; lia).
    specialize (IH c' Hc'). destruct (Cpu.run dirs _) as [tr cc].
    cbn [fst snd Cpu.GetCount Cpu.count] in *. destruct IH as [IH1 IH2].
    split.
    + rewrite IH1. unfold c'. destruct d.
      * rewrite count_occ_cons_neq by discriminate. reflexivity.
      * rewrite count_occ_cons_eq by reflexivity. lia.
    + constructor.
      * cbn [fst snd]. unfold c'. destruct d; lia.
      * eapply Forall_impl; [|exact IH2]. cbn beta.
        intros r [Hr1 Hr2]. split; [|exact Hr2]. unfold c' in Hr1.
        destruct d; lia.
Qed.

(** X5: at a count between 1 and 1000 an increase step changes nothing:
    the float64 product [count * 1.001] is below [count + 1] and is cut
    back to [count].  A decrease step takes exactly one away, down to 1.
    So from such a count a run of steps only ever counts its decrease
    steps, and no step returns more than the count the run started
    from. *)
Theorem intensity_stalls_at_1000 (c : Z) (dirs : list bool) :
  1 <= c <= 1000 ->
  Cpu.AdjustCountRandom true {| Cpu.count := c |}
  = ((true, true, c), {| Cpu.count := c |}) /\
  Cpu.GetCount (snd (Cpu.run dirs {| Cpu.count := c |}))
  = Z.max 1 (c - Z.of_nat (count_occ bool_dec dirs false)) /\
  Forall (fun r => 1 <= fst r <= c) (fst (Cpu.run dirs {| Cpu.count := c |})).
Proof.
  intros Hc. split; [exact (low_region_step true c Hc)|].
  destruct (low_region_run dirs c Hc) as [H1 H2]. split; [exact H1|].
  eapply Forall_impl; [|exact H2]. cbn beta. intros r [H _]. exact H.
Qed.

Lemma intensity_stalls_at_1000_witness :
  Cpu.AdjustCountRandom true {| Cpu.count := 1000 |}
  = ((true, true, 1000), {| Cpu.count := 1000 |}).
Proof.
  refine (proj1 (intensity_stalls_at_1000 1000 [] _)). lia.
Defined.

(** X6: the counts at which an increase step changes nothing are within
    reach of the initial count: 1928 decrease steps take 10000 to exactly
    1000, and from then on no sequence of steps brings the count above 1000
    again. *)
Theorem intensity_can_get_stuck (dirs : list bool) :
  Cpu.GetCount (snd (Cpu.run (repeat false 1928) Cpu.cpuController)) = 1000 /\
  Cpu.GetCount
    (snd (Cpu.run (repeat false 1928 ++ dirs) Cpu.cpuController)) <= 1000.
Proof.
  assert (H : snd (Cpu.run (repeat false 1928) Cpu.cpuController)
              = {| Cpu.count := 1000 |}) by (vm_compute; reflexivity).
  split; [rewrite H; reflexivity|].
  rewrite run_app. cbn [snd]. rewrite H.
  destruct (low_region_run dirs 1000 ltac:(lia)) as [-> _]. lia.
Qed.

(** *** Exact conversions and bounds from below *)

Lemma digits2_unique (p : positive) (k : Z) :
  2 ^ (k - 1) <= Zpos p < 2 ^ k -> Zpos (digits2_pos p) = k.
Proof.
  intros [Hlo Hhi]. pose proof (digits2_bounds p) as [Dlo Dhi].
  set (d := Zpos (digits2_pos p)) in *.
  assert (Hd : 1 <= d) by (unfold d; lia).
  destruct (Z_lt_ge_dec k 1) as [Hk|Hk].
  { exfalso. assert (2 ^ k <= 2 ^ 0) by (destruct (Z_lt_ge_dec k 0);
      [rewrite Z.pow_neg_r by lia; lia|apply Z.pow_le_mono_r; lia]).
    change (2 ^ 0) with 1 in *. lia. }
  destruct (Z.lt_trichotomy d k) as [Hlt|[Heq|Hgt]]; [exfalso|exact Heq|exfalso].
  - assert (2 ^ d <= 2 ^ (k - 1)) by (apply Z.pow_le_mono_r; lia). lia.
  - assert (2 ^ k <= 2 ^ (d - 1)) by (apply Z.pow_le_mono_r; lia). lia.
Qed.

(** A mantissa of at most 53 bits in the normal range is kept as it is:
    [binary_round] only shifts it to 53 bits. *)
Lemma binary_round_exact (s : bool) (p : positive) (e0 : Z) :
  let d := Zpos (digits2_pos p) in
  d <= 53 -> -1074 <= d + e0 - 53 <= 971 ->
  exists m : positive,
    Zpos m = Zpos p * 2 ^ (53 - d) /\
    binary_round 53 1024 s p e0 = S754_finite s m (d + e0 - 53) /\
    bounded 53 1024 m (d + e0 - 53) = true.
Proof.
  intros d Hd He. unfold binary_round.
  destruct (shl_align_spec p e0 (fexp 53 1024 (Zpos (digits2_pos p) + e0)))
    as (k & Hk & -> & Hkeq).
  rewrite fexp_eq in Hkeq. fold d in Hkeq.
  assert (Hk53 : k = 53 - d) by lia. clear Hkeq.
  pose proof (digits2_bounds p) as [Dlo Dhi]. fold d in Dlo, Dhi.
  pose proof (Z.pow_pos_nonneg 2 k ltac:(lia) Hk) as Hp.
  set (m := Z.to_pos (Zpos p * 2 ^ k)).
  assert (Hm : Zpos m = Zpos p * 2 ^ k) by (apply Z2Pos.id; nia).
  assert (Hdm : Zpos (digits2_pos m) = 53).
  { replace 53 with (d + k) by lia. apply digits2_unique. rewrite Hm.
    replace (d + k - 1) with (d - 1 + k) by lia.
    rewrite !Z.pow_add_r by lia. nia. }
  exists m. rewrite <- Hk53. split; [exact Hm|].
  replace (d + e0 - 53) with (e0 - k) by lia.
  assert (Hbd : bounded 53 1024 m (e0 - k) = true).
  { unfold bounded, canonical_mantissa. rewrite fexp_eq, Hdm.
    apply andb_true_iff. split; [apply Z.eqb_eq|apply Z.leb_le]; lia. }
  split; [|exact Hbd].
  destruct (binary_round_aux_exact s m (e0 - k))
    as (m' & m1 & Hm0 & Hb & Hm1 & _ & ->).
  rewrite fexp_eq, Hdm in Hb, Hm1.
  replace (Z.max 0 (Z.max (53 + (e0 - k) - 53) (-1074) - (e0 - k))) with 0
    in * by lia.
  rewrite fexp_eq, Hdm.
  replace (Z.max 0 (Z.max (53 + (e0 - k) - 53) (-1074) - (e0 - k))) with 0
    by lia.
  rewrite Z.pow_0_r, Z.add_0_r in *.
  assert (m' = Zpos m) by lia. subst m'.
  assert (m1 = Zpos m) by lia. subst m1.
  assert (Hlt : Zpos m < 2 ^ 53).
  { pose proof (digits2_bounds m) as [_ H]. rewrite Hdm in H. exact H. }
  unfold pack. destruct (Pos.eqb_spec m 9007199254740992) as [E|_].
  { exfalso. rewrite E in Hlt. change (Zpos 9007199254740992) with (2 ^ 53) in Hlt.
    lia. }
  destruct (Z.leb_spec (e0 - k) 971); [reflexivity|lia].
Qed.

(** Integers below [2^53] convert to float64 exactly. *)
Lemma of_int_exact (c : Z) :
  1 <= c < 2 ^ 53 ->
  exists (m : positive) (e : Z),
    F64.of_int c = S754_finite false m e /\
    bounded 53 1024 m e = true /\
    - 52 <= e <= 0 /\
    sval (Zpos m) e = c * 2 ^ 2200.
Proof.
  intros Hc. destruct c as [|p|p]; try lia.
  pose proof (digits2_bounds p) as [Dlo Dhi].
  set (d := Zpos (digits2_pos p)) in *.
  assert (Hd1 : 1 <= d) by (unfold d; lia).
  assert (Hd : d <= 53).
  { destruct (Z_le_gt_dec d 53); [assumption|exfalso].
    assert (2 ^ 53 <= 2 ^ (d - 1)) by (apply Z.pow_le_mono_r; lia). lia. }
  destruct (binary_round_exact false p 0 Hd ltac:(fold d; lia))
    as (m & Hm & Hr & Hb).
  fold d in Hm, Hr, Hb.
  exists m, (d + 0 - 53). split; [exact Hr|]. split; [exact Hb|].
  split; [lia|].
  unfold sval. rewrite Hm.
  replace 2200 with (53 - d + (d + 0 - 53 + 2200)) at 2 by lia.
  rewrite (Z.pow_add_r 2 (53 - d) (d + 0 - 53 + 2200)) by lia. ring.
Qed.

(** Rounding never goes below a float of the format that bounds the exact
    value from below. *)
Lemma binary_round_aux_ge (s : bool) (mx : positive) (ex : Z)
      (mb : positive) (eb : Z) :
  -2200 <= ex <= 971 ->
  bounded 53 1024 mb eb = true ->
  sval (Zpos mb) eb <= sval (Zpos mx) ex ->
  match binary_round_aux 53 1024 s (Zpos mx) ex loc_Exact with
  | S754_finite s' m e =>
      s' = s /\ sval (Zpos mb) eb <= sval (Zpos m) e /\
      ex <= e <= Z.max ex (Z.max (Zpos (digits2_pos mx) + ex - 53) (-1074)) + 1
  | S754_infinity s' => s' = s
  | _ => False
  end.
Proof.
  intros Hex Hbd Hle.
  destruct (bounded_facts mb eb Hbd) as (Hmb & Heb & Hcan).
  destruct (binary_round_aux_exact s mx ex)
    as (m' & m1 & Hm0 & Hb & Hm1 & Hm1le & ->).
  pose proof (digits2_bounds mx) as Hd. pose proof (digits2_bounds mb) as Hdb.
  rewrite fexp_eq in *.
  set (d := Zpos (digits2_pos mx)) in *.
  set (db := Zpos (digits2_pos mb)) in *.
  set (n := Z.max 0 (Z.max (d + ex - 53) (-1074) - ex)) in *.
  assert (Hn0 : 0 <= n) by lia.
  pose proof (Z.pow_pos_nonneg 2 n ltac:(lia) Hn0) as Hpn.
  pose proof (Z.pow_pos_nonneg 2 (ex + 2200) ltac:(lia) ltac:(lia)) as Hpx.
  pose proof (Z.pow_pos_nonneg 2 (eb + 2200) ltac:(lia) ltac:(lia)) as Hpb.
  assert (Hm1ge : m' <= m1) by (destruct Hm1 as [->|[-> _]]; lia).
  (* the truncated mantissa already bounds the float from above *)
  assert (Hkey : sval (Zpos mb) eb <= sval m' (ex + n) /\ 0 < m').
  { unfold sval in *.
    replace (ex + n + 2200) with (n + (ex + 2200)) by lia.
    rewrite (Z.pow_add_r 2 n (ex + 2200)) by lia.
    destruct (Z.eq_dec n 0) as [Hz|Hnz].
    - rewrite Hz in *. rewrite Z.pow_0_r in *. split; nia.
    - assert (He' : ex + n = Z.max (d + ex - 53) (-1074)) by lia.
      assert (Hdd : db + eb <= d + ex).
      { assert (2 ^ (db - 1) * 2 ^ (eb + 2200) < 2 ^ d * 2 ^ (ex + 2200)) by nia.
        rewrite <- !Z.pow_add_r in H by lia.
        apply Z.pow_lt_mono_r_iff in H; lia. }
      assert (Hee : eb <= ex + n) by lia.
      destruct (Z.eq_dec eb (ex + n)) as [Heq|Hne].
      + (* same exponent: compare the mantissas *)
        rewrite Heq in Hle.
        replace (ex + n + 2200) with (n + (ex + 2200)) in Hle by lia.
        rewrite (Z.pow_add_r 2 n (ex + 2200)) in Hle by lia.
        assert (Zpos mb * 2 ^ n <= Zpos mx).
        { apply (Z.mul_le_mono_pos_r _ _ (2 ^ (ex + 2200))); lia. }
        assert (Zpos mb <= m') by nia.
        rewrite Heq.
        replace (ex + n + 2200) with (n + (ex + 2200)) by lia.
        rewrite (Z.pow_add_r 2 n (ex + 2200)) by lia.
        split; nia.
      + (* a lower binade: the float is below the first float of this one *)
        assert (Hnorm : ex + n = d + ex - 53) by lia.
        assert (Hn : n = d - 53) by lia.
        assert (H52 : 2 ^ 52 <= m').
        { assert (2 ^ (d - 1) = 2 ^ 52 * 2 ^ n).
          { rewrite <- Z.pow_add_r by lia. f_equal. lia. }
          assert (2 ^ 52 * 2 ^ n < (m' + 1) * 2 ^ n) by lia.
          assert (2 ^ 52 < m' + 1) by nia. lia. }
        assert (Hj : eb + 1 <= ex + n) by lia.
        assert (Hpow : 2 ^ (ex + n + 2200)
                       = 2 ^ (ex + n - eb - 1) * 2 * 2 ^ (eb + 2200)).
        { replace (ex + n + 2200) with (ex + n - eb - 1 + (1 + (eb + 2200)))
            by lia.
          rewrite !Z.pow_add_r by lia. change (2 ^ 1) with 2. ring. }
        replace (2 ^ n * 2 ^ (ex + 2200)) with (2 ^ (ex + n + 2200))
          by (rewrite <- Z.pow_add_r by lia; f_equal; lia).
        rewrite Hpow.
        pose proof (Z.pow_pos_nonneg 2 (ex + n - eb - 1) ltac:(lia) ltac:(lia)).
        change (2 ^ 53) with (2 * 2 ^ 52) in Hmb.
        split; [|lia].
        assert (Zpos mb * 2 ^ (eb + 2200)
                <= 2 ^ 52 * 2 * 2 ^ (eb + 2200)) by nia.
        assert (2 ^ 52 * 2 * 2 ^ (eb + 2200)
                <= m' * (2 ^ (ex + n - eb - 1) * 2 * 2 ^ (eb + 2200))) by nia.
        lia. }
  destruct Hkey as [Hkey Hm'pos].
  assert (Hsv1 : sval (Zpos mb) eb <= sval m1 (ex + n)).
  { unfold sval in *.
    pose proof (Z.pow_pos_nonneg 2 (ex + n + 2200) ltac:(lia) ltac:(lia)). nia. }
  fold d.
  unfold pack. destruct m1 as [|p|p]; [lia| |lia].
  destruct (Pos.eqb_spec p 9007199254740992) as [->|_].
  - destruct (Z.leb_spec (ex + n + 1) 971); [|reflexivity].
    split; [reflexivity|]. split; [|lia].
    change (Zpos 9007199254740992) with (2 * 2 ^ 52) in Hsv1.
    change (Zpos 4503599627370496) with (2 ^ 52). unfold sval in *.
    replace (ex + n + 1 + 2200) with (1 + (ex + n + 2200)) by lia.
    rewrite (Z.pow_add_r 2 1 (ex + n + 2200)) by lia.
    change (2 ^ 1) with 2. lia.
  - destruct (Z.leb_spec (ex + n) 971); [|reflexivity].
    split; [reflexivity|]. split; [exact Hsv1|lia].
Qed.

Lemma trunc_ge_of_sval (m : positive) (e N : Z) :
  -2200 <= e -> 0 <= N ->
  N * 2 ^ 2200 <= sval (Zpos m) e ->
  exists z : Z, F64.trunc (S754_finite false m e) = Some z /\ N <= z.
Proof.
  intros He HN Hle. cbn [F64.trunc]. eexists; split; [reflexivity|].
  unfold sval in Hle.
  assert (HK : 0 < 2 ^ 2200) by (apply Z.pow_pos_nonneg; lia).
  destruct (Z.leb_spec 0 e) as [Hpos|Hneg].
  - pose proof (Z.pow_pos_nonneg 2 e ltac:(lia) Hpos).
    rewrite (Z.pow_add_r 2 e 2200) in Hle by lia.
    remember (2 ^ 2200) as K. nia.
  - pose proof (Z.pow_pos_nonneg 2 (- e) ltac:(lia) ltac:(lia)) as Hp.
    pose proof (Z.pow_pos_nonneg 2 (e + 2200) ltac:(lia) ltac:(lia)) as Hq.
    assert (H3 : 2 ^ 2200 = 2 ^ (- e) * 2 ^ (e + 2200)).
    { rewrite <- Z.pow_add_r by lia. f_equal. lia. }
    rewrite H3 in Hle.
    apply Z.div_le_lower_bound; [lia|].
    apply (Z.mul_le_mono_pos_r _ _ (2 ^ (e + 2200))); [lia|]. lia.
Qed.

(** *** The size of a step *)

(** Every half-integer below [2^52] is a float of the format. *)
Lemma half_exact (h : Z) :
  1 <= h < 2 ^ 53 ->
  exists (m : positive) (e : Z),
    bounded 53 1024 m e = true /\ -2200 <= e /\
    sval (Zpos m) e = h * 2 ^ 2199.
Proof.
  intros Hh. destruct h as [|p|p]; try lia.
  pose proof (digits2_bounds p) as [Dlo Dhi].
  set (d := Zpos (digits2_pos p)) in *.
  assert (Hd1 : 1 <= d) by (unfold d; lia).
  assert (Hd : d <= 53).
  { destruct (Z_le_gt_dec d 53); [assumption|exfalso].
    assert (2 ^ 53 <= 2 ^ (d - 1)) by (apply Z.pow_le_mono_r; lia). lia. }
  destruct (binary_round_exact false p (-1) Hd ltac:(fold d; lia))
    as (m & Hm & _ & Hb).
  fold d in Hm, Hb. exists m, (d + -1 - 53). split; [exact Hb|].
  split; [lia|]. unfold sval. rewrite Hm.
  assert (Hpw : 2 ^ 2199 = 2 ^ (53 - d) * 2 ^ (d + -1 - 53 + 2200)).
  { rewrite <- Z.pow_add_r by lia. f_equal. lia. }
  rewrite Hpw. ring.
Qed.

(** The float64 product of [float64(c)] and a positive constant lies
    between any two floats that enclose the exact product. *)
Lemma mul_of_int_between (c : Z) (M : positive) (eM : Z) (L H : Z) :
  1 <= c < 2 ^ 53 -> Zpos M < 2 ^ 53 -> -100 <= eM <= -44 ->
  1 <= L < 2 ^ 53 -> 1 <= H < 2 ^ 53 ->
  L * 2 ^ (- eM) <= 2 * c * Zpos M <= H * 2 ^ (- eM) ->
  exists (m : positive) (e : Z),
    F64.mul (F64.of_int c) (S754_finite false M eM) = S754_finite false m e /\
    -2200 <= e <= 10 /\
    L * 2 ^ 2199 <= sval (Zpos m) e <= H * 2 ^ 2199.
Proof.
  intros Hc HM HeM HL HH [Hlo Hhi].
  destruct (of_int_exact c Hc) as (m0 & e0 & -> & Hb0 & He0 & Hv0).
  destruct (half_exact L HL) as (ml & el & Hbl & Hel & Hvl).
  destruct (half_exact H HH) as (mh & eh & Hbh & Heh & Hvh).
  destruct (bounded_facts m0 e0 Hb0) as (Hm0 & _ & _).
  unfold F64.mul, SFmul. cbn [xorb].
  change F64.prec with 53. change F64.emax with 1024.
  pose proof (Z.pow_pos_nonneg 2 (- eM) ltac:(lia) ltac:(lia)) as Hp.
  pose proof (Z.pow_pos_nonneg 2 (e0 + eM + 2200) ltac:(lia) ltac:(lia)) as Hq.
  assert (HP : 0 < 2 ^ 2199) by (apply Z.pow_pos_nonneg; lia).
  assert (H2 : 2 ^ 2200 = 2 * 2 ^ 2199).
  { change 2200 with (1 + 2199). rewrite Z.pow_add_r by lia. reflexivity. }
  assert (Hsv : sval (Zpos (m0 * M)) (e0 + eM) * 2 ^ (- eM)
                = c * Zpos M * 2 ^ 2200).
  { replace (c * Zpos M * 2 ^ 2200) with (c * 2 ^ 2200 * Zpos M) by ring.
    rewrite <- Hv0. unfold sval. rewrite Pos2Z.inj_mul.
    replace (e0 + 2200) with (e0 + eM + 2200 + - eM) by lia.
    rewrite (Z.pow_add_r 2 (e0 + eM + 2200) (- eM)) by lia. ring. }
  assert (Hle : sval (Zpos (m0 * M)) (e0 + eM) <= sval (Zpos mh) eh).
  { apply (Z.mul_le_mono_pos_r _ _ (2 ^ (- eM))); [exact Hp|].
    rewrite Hsv, Hvh, H2. nia. }
  assert (Hge : sval (Zpos ml) el <= sval (Zpos (m0 * M)) (e0 + eM)).
  { apply (Z.mul_le_mono_pos_r _ _ (2 ^ (- eM))); [exact Hp|].
    rewrite Hsv, Hvl, H2. nia. }
  pose proof (binary_round_aux_le false (m0 * M) (e0 + eM) mh eh
                ltac:(lia) Hbh Hle) as Hup.
  pose proof (binary_round_aux_ge false (m0 * M) (e0 + eM) ml el
                ltac:(lia) Hbl Hge) as Hdn.
  pose proof (digits2_bounds (m0 * M)) as [Dlo _].
  assert (Hd : Zpos (digits2_pos (m0 * M)) <= 106).
  { destruct (Z_le_gt_dec (Zpos (digits2_pos (m0 * M))) 106);
      [assumption|exfalso].
    assert (2 ^ 106 <= 2 ^ (Zpos (digits2_pos (m0 * M)) - 1))
      by (apply Z.pow_le_mono_r; lia).
    rewrite Pos2Z.inj_mul in Dlo.
    change (2 ^ 106) with (2 ^ 53 * 2 ^ 53) in *. nia. }
  destruct (binary_round_aux 53 1024 false (Zpos (m0 * M)) (e0 + eM) loc_Exact)
    as [s|s| |s m e]; try contradiction.
  destruct Hup as (-> & He & Hu). destruct Hdn as (_ & Hl & He').
  exists m, e. split; [reflexivity|]. split; [lia|]. lia.
Qed.

(** [uint64] of a float whose value lies between two integers. *)
Lemma to_uint64_between (m : positive) (e lo hi : Z) :
  -2200 <= e <= 10 -> 0 <= lo -> hi < 2 ^ 63 ->
  (2 * lo) * 2 ^ 2199 <= sval (Zpos m) e <= (2 * hi + 1) * 2 ^ 2199 ->
  lo <= F64.to_uint64 (S754_finite false m e) <= hi.
Proof.
  intros He Hlo Hhi [Hl Hh].
  assert (H2 : 2 ^ 2200 = 2 * 2 ^ 2199).
  { change 2200 with (1 + 2199). rewrite Z.pow_add_r by lia. reflexivity. }
  destruct (trunc_le_of_sval m e hi ltac:(lia) Hh) as (z & Hz & Hzh).
  destruct (trunc_ge_of_sval m e lo ltac:(lia) Hlo ltac:(rewrite H2; lia))
    as (z' & Hz' & Hzl).
  rewrite Hz in Hz'. assert (z' = z) by congruence. subst z'.
  unfold F64.to_uint64.
  assert (Hlt : F64.lt (S754_finite false m e) F64.two63 = true).
  { change F64.two63 with (S754_finite false 4503599627370496 11).
    unfold F64.lt, SFltb, SFcompare.
    destruct (Z.compare_spec e 11); [lia|reflexivity|lia]. }
  rewrite Hlt. unfold F64.cvttsd2sq. rewrite Hz.
  assert (H63 : 2 ^ 63 < 2 ^ 64) by reflexivity.
  assert (H0 : - 2 ^ 63 < 0) by reflexivity.
  destruct (Z.leb_spec (- 2 ^ 63) z); [|lia].
  destruct (Z.ltb_spec z (2 ^ 63)); [|lia].
  cbn [andb]. rewrite wrap_small by lia. lia.
Qed.

Lemma increase_bounds (c : Z) :
  1001 <= c < 2 ^ 51 ->
  c + 1 <= F64.to_uint64 (F64.mul (F64.of_int c) Cpu.c1_001)
        <= c + c / 1000 + 1.
Proof.
  intros Hc.
  change (2 ^ 51) with 2251799813685248 in Hc.
  pose proof (Z.div_mod c 1000 ltac:(lia)) as Hdm.
  pose proof (Z.mod_pos_bound c 1000 ltac:(lia)) as Hmb.
  set (q := c / 1000) in *.
  change Cpu.c1_001 with (S754_finite false 4508103226997866 (-52)).
  destruct (mul_of_int_between c 4508103226997866 (-52)
              (2 * (c + 1)) (2 * (c + q + 1)))
    as (m & e & -> & He & Hl & Hh);
    change (2 ^ 53) with 9007199254740992;
    try change (2 ^ (- -52)) with 4503599627370496;
    try change (2 ^ (- -53)) with 9007199254740992; try lia.
  apply to_uint64_between; change (2 ^ 63) with 9223372036854775808; lia.
Qed.

Lemma decrease_bounds (c : Z) :
  501 <= c < 2 ^ 51 ->
  c - c / 1000 - 2 <= F64.to_uint64 (F64.mul (F64.of_int c) Cpu.c0_999)
                   <= c - 1.
Proof.
  intros Hc.
  change (2 ^ 51) with 2251799813685248 in Hc.
  pose proof (Z.div_mod c 1000 ltac:(lia)) as Hdm.
  pose proof (Z.mod_pos_bound c 1000 ltac:(lia)) as Hmb.
  set (q := c / 1000) in *.
  change Cpu.c0_999 with (S754_finite false 8998192055486251 (-53)).
  destruct (mul_of_int_between c 8998192055486251 (-53)
              (2 * (c - q - 2)) (2 * (c - 1) + 1))
    as (m & e & -> & He & Hl & Hh);
    change (2 ^ 53) with 9007199254740992;
    try change (2 ^ (- -52)) with 4503599627370496;
    try change (2 ^ (- -53)) with 9007199254740992; try lia.
  apply to_uint64_between; change (2 ^ 63) with 9223372036854775808; lia.
Qed.

(** X7: away from that region a step does move the count.  For a count
    of at least 2 and below [2^51], a decrease step lowers it by at least 1 and by at
    most a thousandth of it (rounded down) plus 2; for a count from 1001,
    an increase step raises it by at least 1 and by at most a thousandth
    of it (rounded down) plus 1. *)
Theorem intensity_step_bounds (c : Z) :
  2 <= c < 2 ^ 51 ->
  (let n := snd (fst (Cpu.AdjustCountRandom false {| Cpu.count := c |})) in
   c - c / 1000 - 2 <= n <= c - 1) /\
  (1001 <= c ->
   let n := snd (fst (Cpu.AdjustCountRandom true {| Cpu.count := c |})) in
   c + 1 <= n <= c + c / 1000 + 1).
Proof.
  intros Hc. split.
  - cbv zeta. destruct (Z_le_gt_dec c 1000) as [Hlow|Hhigh].
    + rewrite (low_region_step false c ltac:(lia)). cbn [fst snd].
      assert (0 <= c / 1000) by (apply Z.div_pos; lia). lia.
    + unfold Cpu.AdjustCountRandom. cbv zeta. cbn [fst snd Cpu.count].
      pose proof (decrease_bounds c ltac:(lia)) as Hb.
      destruct (Z.ltb_spec
                  (F64.to_uint64 (F64.mul (F64.of_int c) Cpu.c0_999)) 1); lia.
  - intros Hhigh. cbv zeta. unfold Cpu.AdjustCountRandom. cbv zeta.
    cbn [fst snd Cpu.count]. apply increase_bounds. lia.
Qed.

Lemma intensity_step_bounds_witness :
  10000 + 1
  <= snd (fst (Cpu.AdjustCountRandom true {| Cpu.count := 10000 |}))
  <= 10000 + 10000 / 1000 + 1.
Proof.
  refine (proj2 (intensity_step_bounds 10000 _) _); vm_compute;
    intuition discriminate.
Defined.

(** *** The workers *)

Lemma div_succ (j c : Z) :
  0 <= j -> 0 < c ->
  (j + 1) / c = j / c + (if (j + 1) mod c =? 0 then 1 else 0).
Proof.
  intros Hj Hc.
  pose proof (Z.div_mod j c ltac:(lia)) as Hd.
  pose proof (Z.mod_pos_bound j c Hc) as Hm.
  pose proof (Z.div_mod (j + 1) c ltac:(lia)) as Hd1.
  pose proof (Z.mod_pos_bound (j + 1) c Hc) as Hm1.
  destruct (Z.eqb_spec ((j + 1) mod c) 0) as [E|E].
  - assert (j / c = (j + 1) / c - 1); [|lia].
    symmetry. apply (Z.div_unique j c _ (c - 1)); lia.
  - rewrite Z.add_0_r.
    symmetry. apply (Z.div_unique (j + 1) c (j / c) (j mod c + 1)); [|lia].
    assert (j mod c + 1 <> c); [|lia].
    intros Heq. apply E.
    replace (j + 1) with (0 + (j / c + 1) * c) by lia.
    rewrite Z.mod_add by lia. apply Z.mod_0_l. lia.
Qed.

Lemma cpuWorker_steady (c : Z) (k : nat) :
  forall (j : Z) (sleeps : nat),
    1 <= c -> 0 <= j -> j + Z.of_nat k < 2 ^ 64 ->
    Cpu.cpuWorker (repeat (false, c) k) j sleeps
    = Cpu.Running (j + Z.of_nat k)
              (sleeps + Z.to_nat ((j + Z.of_nat k) / c - j / c))%nat.
Proof.
  induction k as [|k IH]; intros j sleeps Hc Hj Hk.
  - cbn [repeat Cpu.cpuWorker Z.of_nat]. rewrite Z.add_0_r, Z.sub_diag.
    cbn [Z.to_nat]. rewrite Nat.add_0_r. reflexivity.
  - cbn [repeat Cpu.cpuWorker]. unfold Cpu.cpuWorkerIter. cbv zeta.
    rewrite Nat2Z.inj_succ in *.
    unfold U64.add. rewrite wrap_small by lia.
    destruct (Z.eqb_spec c 0); [lia|].
    rewrite IH by lia.
    replace (j + 1 + Z.of_nat k) with (j + Z.succ (Z.of_nat k)) by lia.
    f_equal.
    pose proof (div_succ j c Hj ltac:(lia)) as Hs.
    assert (Hmono : (j + 1) / c <= (j + Z.succ (Z.of_nat k)) / c)
      by (apply Z.div_le_mono; lia).
    assert (0 <= j / c) by (apply Z.div_pos; lia).
    destruct ((j + 1) mod c =? 0); lia.
Qed.

(** X8: a worker that is not cancelled and reads the same [count] at
    every pass sleeps once every [count] passes: after [k] passes its
    counter is [k] and it has slept [k / count] times (the counter does not
    wrap before [2^64] passes). *)
Theorem worker_sleeps_once_per_count (c : Z) (k : nat) :
  1 <= c -> Z.of_nat k < 2 ^ 64 ->
  Cpu.cpuWorker (repeat (false, c) k) 0 0
  = Cpu.Running (Z.of_nat k) (Z.to_nat (Z.of_nat k / c)).
Proof.
  intros Hc Hk. rewrite (cpuWorker_steady c k 0 0%nat Hc ltac:(lia) ltac:(lia)).
  rewrite Z.add_0_l, Z.div_0_l, Z.sub_0_r by lia. reflexivity.
Qed.

Lemma worker_sleeps_once_per_count_witness :
  Cpu.cpuWorker (repeat (false, 10) 25) 0 0 = Cpu.Running 25 2.
Proof.
  refine (worker_sleeps_once_per_count 10 25 _ _); vm_compute;
    intuition discriminate.
Defined.

Lemma cpuWorker_stops (obs : list (bool * Z)) :
  forall (j : Z) (sleeps : nat),
    Forall (fun o => 1 <= snd o) obs ->
    Cpu.cpuWorker obs j sleeps <> Cpu.Panicked /\
    (forall pre post c,
        obs = pre ++ (true, c) :: post ->
        Forall (fun o => fst o = false) pre ->
        exists (counter : Z) (slept : nat),
          Cpu.cpuWorker pre j sleeps = Cpu.Running counter slept /\
          Cpu.cpuWorker obs j sleeps = Cpu.Returned slept).
Proof.
  induction obs as [|[done c] obs IH]; intros j sleeps Hall.
  - split; [cbn; discriminate|]. intros [|? ?] ? ? H; discriminate H.
  - inversion Hall as [|? ? Hc Hall']; subst. cbn [snd] in Hc.
    cbn [Cpu.cpuWorker]. unfold Cpu.cpuWorkerIter. cbv zeta.
    destruct done.
    + split; [discriminate|]. intros pre post c' Heq Hpre.
      destruct pre as [|[dp cp] pre].
      * exists j, sleeps. split; reflexivity.
      * inversion Heq; subst. inversion Hpre as [|? ? Hf _]; subst.
        discriminate Hf.
    + destruct (Z.eqb_spec c 0); [lia|].
      destruct (IH (U64.add j 1)
                   (if U64.add j 1 mod c =? 0 then S sleeps else sleeps) Hall')
        as [IH1 IH2].
      split; [exact IH1|]. intros pre post c' Heq Hpre.
      destruct pre as [|[dp cp] pre]; [discriminate Heq|].
      inversion Heq; subst. inversion Hpre; subst.
      cbn [Cpu.cpuWorker]. unfold Cpu.cpuWorkerIter. cbv zeta.
      destruct (Z.eqb_spec cp 0); [lia|].
      eapply IH2; [reflexivity|assumption].
Qed.

(** X9: a worker that reads, at each pass, one of the counts that some
    sequence of [AdjustCountRandom] calls has stored in the controller
    (or the initial count) never divides by zero, whatever its counter is;
    and at the first pass that finds the context done it returns, having
    slept as often as in the passes before. *)
Theorem worker_never_panics_and_honours_cancel
  (dirs : list bool) (obs : list (bool * Z)) (j : Z) :
  (forall o, In o obs ->
             In (snd o) (Cpu.initCount
                           :: map snd (fst (Cpu.run dirs Cpu.cpuController)))) ->
  Cpu.cpuWorker obs j 0 <> Cpu.Panicked /\
  (forall pre post c,
      obs = pre ++ (true, c) :: post ->
      Forall (fun o => fst o = false) pre ->
      exists (counter : Z) (slept : nat),
        Cpu.cpuWorker pre j 0 = Cpu.Running counter slept /\
        Cpu.cpuWorker obs j 0 = Cpu.Returned slept).
Proof.
  intros Hobs.
  assert (Hall : Forall (fun o => 1 <= snd o) obs).
  { apply Forall_forall. intros o Ho. specialize (Hobs o Ho).
    destruct Hobs as [<-|Hin]; [vm_compute; discriminate|].
    apply in_map_iff in Hin. destruct Hin as (r & <- & Hr).
    destruct (run_at_least_one dirs Cpu.cpuController) as [Hf _];
      [vm_compute; discriminate|].
    rewrite Forall_forall in Hf. apply (Hf r Hr). }
  exact (cpuWorker_stops obs j 0%nat Hall).
Qed.

Lemma worker_never_panics_and_honours_cancel_witness :
  exists (counter : Z) (slept : nat),
    Cpu.cpuWorker [(false, 10000)] 0 0 = Cpu.Running counter slept /\
    Cpu.cpuWorker [(false, 10000); (true, 9990)] 0 0 = Cpu.Returned slept.
Proof.
  refine (proj2 (worker_never_panics_and_honours_cancel
                   [false] [(false, 10000); (true, 9990)] 0 _)
                [(false, 10000)] [] 9990 eq_refl _).
  - intros o [<-|[<-|[]]]; vm_compute; auto.
  - repeat constructor.
Defined.

Lemma calls_invariant (cs : list PoolCall) :
  forall rs : Cpu.RunState,
    (Cpu.started rs = false -> Cpu.workers rs = []) ->
    (Cpu.started rs = true ->
     exists n, (0 < n)%nat /\ Cpu.workers rs = map Z.of_nat (seq 0 n)) ->
    let rs' := fold_left pool_call cs rs in
    (Cpu.started rs' = false -> Cpu.workers rs' = []) /\
    (Cpu.started rs' = true ->
     exists n, (0 < n)%nat /\ Cpu.workers rs' = map Z.of_nat (seq 0 n)).
Proof.
  induction cs as [|c cs IH]; intros rs H0 H1; cbn [fold_left];
    [split; assumption|].
  apply IH.
  - destruct c as [n|]; cbn [pool_call]; unfold Cpu.Start, Cpu.Stop;
      destruct (Cpu.started rs) eqn:E; cbv zeta; cbn [Cpu.started Cpu.workers];
      intros Hs; try discriminate Hs; try reflexivity;
      try (rewrite E in Hs; discriminate Hs); apply H0; reflexivity.
  - destruct c as [n|]; cbn [pool_call]; unfold Cpu.Start, Cpu.Stop;
      destruct (Cpu.started rs) eqn:E; cbv zeta; cbn [Cpu.started Cpu.workers];
      intros Hs; try discriminate Hs;
      try (rewrite E in Hs; discriminate Hs); try (apply H1; reflexivity).
    rewrite (H0 eq_refl). cbn [app].
    exists (Z.to_nat (if n <=? 0 then 4 else n)). split; [|reflexivity].
    destruct (Z.leb_spec n 0); lia.
Qed.

(** X10: whatever sequence of [Start] and [Stop] calls is made on a
    controller that has not been started, there is at most one pool of
    workers: none when the controller is stopped, and when it is started
    the workers 0, 1, ... of one [Start] only.  A second [Start] changes
    nothing, a second [Stop] changes nothing, and [Start] after [Stop]
    gives a fresh pool of [numCPU] workers, or of 4 when [numCPU] is not
    positive. *)
Theorem start_stop_keep_one_pool (cs : list PoolCall) (n m : Z) :
  let rs := fold_left pool_call cs {| Cpu.started := false; Cpu.workers := [] |} in
  (Cpu.started rs = false -> Cpu.workers rs = []) /\
  (Cpu.started rs = true ->
   exists k, (0 < k)%nat /\ Cpu.workers rs = map Z.of_nat (seq 0 k)) /\
  Cpu.Start m (Cpu.Start n rs) = Cpu.Start n rs /\
  Cpu.Stop (Cpu.Stop rs) = Cpu.Stop rs /\
  Cpu.Start n (Cpu.Stop rs)
  = {| Cpu.started := true;
       Cpu.workers :=
         map Z.of_nat (seq 0 (Z.to_nat (if n <=? 0 then 4 else n))) |}.
Proof.
  intros rs.
  destruct (calls_invariant cs {| Cpu.started := false; Cpu.workers := [] |})
    as [H0 H1]; [reflexivity|discriminate|].
  fold rs in H0, H1.
  split; [exact H0|]. split; [exact H1|].
  unfold Cpu.Start, Cpu.Stop. cbv zeta. destruct (Cpu.started rs) eqn:E.
  - cbn [Cpu.started Cpu.workers app]. rewrite E. repeat split; reflexivity.
  - cbn [Cpu.started Cpu.workers app]. rewrite E. rewrite (H0 eq_refl).
    repeat split; reflexivity.
Qed.

(** ** The controller, pass by pass *)

Ltac compare_cases :=
  repeat match goal with
         | H : context [Z.compare ?a ?b] |- _ =>
             destruct (Z.compare_spec a b); try discriminate H
         | H : context [Pos.compare ?a ?b] |- _ =>
             destruct (Pos.compare_spec a b); try discriminate H
         | |- context [Z.compare ?a ?b] =>
             destruct (Z.compare_spec a b)
         | |- context [Pos.compare ?a ?b] =>
             destruct (Pos.compare_spec a b)
         end.

Lemma SFcompare_lt_trans (x y z : spec_float) :
  SFcompare x y = Some Lt -> SFcompare y z = Some Lt ->
  SFcompare x z = Some Lt.
Proof.
  destruct x as [sx|sx| |sx mx ex], y as [sy|sy| |sy my ey],
           z as [sz|sz| |sz mz ez];
    cbn [SFcompare];
    change PosDef.Pos.compare_cont with Pos.compare_cont;
    rewrite ?Pos.compare_cont_spec; cbn [Pos.switch_Eq];
    try destruct sx; try destruct sy; try destruct sz;
    intros H1 H2; try discriminate H1; try discriminate H2;
    try reflexivity;
    compare_cases; cbn [CompOpp] in *;
    try discriminate; try reflexivity; try (exfalso; lia).
Qed.

Lemma SFcompare_eq_r (x y z : spec_float) :
  SFcompare y z = Some Eq -> SFcompare x z = SFcompare x y.
Proof.
  destruct x as [sx|sx| |sx mx ex], y as [sy|sy| |sy my ey],
           z as [sz|sz| |sz mz ez];
    cbn [SFcompare];
    change PosDef.Pos.compare_cont with Pos.compare_cont;
    rewrite ?Pos.compare_cont_spec; cbn [Pos.switch_Eq];
    try destruct sx; try destruct sy; try destruct sz;
    intros H; try discriminate H; try reflexivity;
    compare_cases; cbn [CompOpp] in *;
    try discriminate; try reflexivity; try (exfalso; lia);
    subst; try reflexivity;
    rewrite ?Z.compare_refl, ?Pos.compare_refl; try reflexivity.
Qed.

Lemma lt_le_trans (x y z : F64.t) :
  F64.lt x y = true -> F64.le y z = true -> F64.lt x z = true.
Proof.
  unfold F64.lt, F64.le, SFltb, SFleb.
  destruct (SFcompare x y) as [[| |]|] eqn:E1; try discriminate. intros _.
  destruct (SFcompare y z) as [[| |]|] eqn:E2; try discriminate; intros _.
  - rewrite (SFcompare_eq_r x y z E2), E1. reflexivity.
  - rewrite (SFcompare_lt_trans x y z E1 E2). reflexivity.
Qed.

Lemma adjustCPU_cases
  (stats : Main.SystemStats) (expectedUsage : F64.t) (w : Main.World) :
  let cur := Main.CPUPercent stats in
  let diff := F64.sub cur expectedUsage in
  let adjustProb := Main.calculateAdjustProbability (Main.abs diff) in
  let increaseProb := Main.calculateDirectionProbability diff expectedUsage in
  let r1 := Main.rand_src w (Main.rand_pos w) in
  let r2 := Main.rand_src w (S (Main.rand_pos w)) in
  let w' := snd (Main.adjustCPU stats expectedUsage w) in
  same_outside w w' /\
  Main.memoryController w' = Main.memoryController w /\
  ((F64.gt cur (F64.of_int 70) = true /\
    Main.rand_pos w' = Main.rand_pos w /\
    Main.cpuController w'
    = snd (Cpu.AdjustCountRandom false (Main.cpuController w)) /\
    Main.log w'
    = Main.log w ++ [Main.WarnOverHardPeak Main.CPU cur;
                     Main.InfoForcedDecrease Main.CPU cur])
   \/
   (F64.gt cur (F64.of_int 70) = false /\ F64.lt r1 adjustProb = false /\
    Main.rand_pos w' = S (Main.rand_pos w) /\
    Main.cpuController w' = Main.cpuController w /\
    Main.log w' = Main.log w ++ [Main.InfoSkip Main.CPU cur])
   \/
   (F64.gt cur (F64.of_int 70) = false /\ F64.lt r1 adjustProb = true /\
    Main.rand_pos w' = S (S (Main.rand_pos w)) /\
    Main.cpuController w'
    = snd (Cpu.AdjustCountRandom (F64.lt r2 increaseProb)
                                 (Main.cpuController w)) /\
    Main.log w'
    = Main.log w ++ [Main.InfoAdjust Main.CPU cur increaseProb
                                     (F64.lt r2 increaseProb)])).
Proof.
  intros cur diff adjustProb increaseProb r1 r2 w'.
  unfold w', Main.adjustCPU. cbv zeta.
  change (F64.of_int Main.hardPeakLimit) with (F64.of_int 70).
  fold cur. fold diff. fold adjustProb. fold increaseProb.
  destruct (F64.gt cur (F64.of_int 70)) eqn:Eg.
  - split; [repeat split|]. split; [reflexivity|]. left.
    repeat split. cbn. rewrite <- app_assoc. reflexivity.
  - cbv beta iota zeta
        delta [Main.bind Main.shouldAdjust Main.rand_Float64 Main.ret].
    fold r1.
    destruct (F64.lt r1 adjustProb) eqn:Ea; cbn [negb].
    + split; [repeat split|]. split; [reflexivity|]. right. right.
      repeat split.
    + split; [repeat split|]. split; [reflexivity|]. right. left.
      repeat split.
Qed.

Lemma Mem_AdjustMemoryRandom_shape (d : bool) (mc : Mem.MemoryController) :
  Mem.AdjustMemoryRandom d mc
  = ((true, d, snd (fst (Mem.AdjustMemoryRandom d mc))),
     snd (Mem.AdjustMemoryRandom d mc)).
Proof.
  unfold Mem.AdjustMemoryRandom. cbv zeta.
  destruct (Mem.adjustTo _ _). reflexivity.
Qed.

Lemma adjustMemory_cases
  (stats : Main.SystemStats) (expectedUsage : F64.t) (w : Main.World) :
  let cur := Main.MemoryPercent stats in
  let diff := F64.sub cur expectedUsage in
  let adjustProb := Main.calculateAdjustProbability (Main.abs diff) in
  let increaseProb := Main.calculateDirectionProbability diff expectedUsage in
  let r1 := Main.rand_src w (Main.rand_pos w) in
  let r2 := Main.rand_src w (S (Main.rand_pos w)) in
  let w' := snd (Main.adjustMemory stats expectedUsage w) in
  same_outside w w' /\
  Main.cpuController w' = Main.cpuController w /\
  ((F64.gt cur (F64.of_int 70) = true /\
    Main.rand_pos w' = Main.rand_pos w /\
    Main.memoryController w'
    = snd (Mem.AdjustMemoryRandom false (Main.memoryController w)) /\
    Main.log w'
    = Main.log w ++ [Main.WarnOverHardPeak Main.Memory cur;
                     Main.InfoForcedDecrease Main.Memory cur])
   \/
   (F64.gt cur (F64.of_int 70) = false /\ F64.lt r1 adjustProb = false /\
    Main.rand_pos w' = S (Main.rand_pos w) /\
    Main.memoryController w' = Main.memoryController w /\
    Main.log w' = Main.log w ++ [Main.InfoSkip Main.Memory cur])
   \/
   (F64.gt cur (F64.of_int 70) = false /\ F64.lt r1 adjustProb = true /\
    Main.rand_pos w' = S (S (Main.rand_pos w)) /\
    Main.memoryController w'
    = snd (Mem.AdjustMemoryRandom (F64.lt r2 increaseProb)
                                  (Main.memoryController w)) /\
    Main.log w'
    = Main.log w ++ [Main.InfoAdjust Main.Memory cur increaseProb
                                     (F64.lt r2 increaseProb)])).
Proof.
  intros cur diff adjustProb increaseProb r1 r2 w'.
  unfold w', Main.adjustMemory. cbv zeta.
  change (F64.of_int Main.hardPeakLimit) with (F64.of_int 70).
  fold cur. fold diff. fold adjustProb. fold increaseProb.
  destruct (F64.gt cur (F64.of_int 70)) eqn:Eg.
  - cbv beta iota zeta
        delta [Main.bind Main.logger Main.modify Main.AdjustMemoryRandom
               Main.ret].
    cbn [Main.memoryController Main.set_log].
    rewrite (Mem_AdjustMemoryRandom_shape false (Main.memoryController w)).
    split; [repeat split|]. split; [reflexivity|]. left.
    repeat split. cbn. rewrite <- app_assoc. reflexivity.
  - cbv beta iota zeta
        delta [Main.bind Main.shouldAdjust Main.rand_Float64 Main.ret
               Main.logger Main.modify Main.AdjustMemoryRandom].
    fold r1. cbn [Main.rand_pos Main.rand_src Main.set_rand_pos]. fold r2.
    destruct (F64.lt r1 adjustProb) eqn:Ea; cbn [negb].
    + cbn [Main.memoryController Main.set_rand_pos].
      rewrite (Mem_AdjustMemoryRandom_shape (F64.lt r2 increaseProb)
                 (Main.memoryController w)).
      split; [repeat split|]. split; [reflexivity|]. right. right.
      repeat split.
    + split; [repeat split|]. split; [reflexivity|]. right. left.
      repeat split.
Qed.

(** X11: one pass of the controller over a resource, [adjustCPU] or
    [adjustMemory], branch by branch.  The pass leaves the environment, the
    clock, the random source, the two ceilings and the other engine alone.
    Above the hard ceiling it draws nothing, makes one decrease step and
    logs the warning and the forced decrease.  Otherwise it draws once:
    when the draw is not below the adjust probability it leaves the engine
    alone and logs the skip; when it is below, it draws a second time,
    makes one step of its engine, an increase exactly when the second draw
    is below the increase probability, and logs the adjustment. *)
Theorem controller_pass
  (stats : Main.SystemStats) (expectedUsage : F64.t) (w : Main.World) :
  let r1 := Main.rand_src w (Main.rand_pos w) in
  let r2 := Main.rand_src w (S (Main.rand_pos w)) in
  (let cur := Main.CPUPercent stats in
   let diff := F64.sub cur expectedUsage in
   let adjustProb := Main.calculateAdjustProbability (Main.abs diff) in
   let increaseProb := Main.calculateDirectionProbability diff expectedUsage in
   let w' := snd (Main.adjustCPU stats expectedUsage w) in
   same_outside w w' /\
   Main.memoryController w' = Main.memoryController w /\
   if F64.gt cur (F64.of_int 70) then
     Main.rand_pos w' = Main.rand_pos w /\
     Main.cpuController w'
     = snd (Cpu.AdjustCountRandom false (Main.cpuController w)) /\
     Main.log w'
     = Main.log w ++ [Main.WarnOverHardPeak Main.CPU cur;
                      Main.InfoForcedDecrease Main.CPU cur]
   else if F64.lt r1 adjustProb then
     Main.rand_pos w' = S (S (Main.rand_pos w)) /\
     Main.cpuController w'
     = snd (Cpu.AdjustCountRandom (F64.lt r2 increaseProb)
                                  (Main.cpuController w)) /\
     Main.log w'
     = Main.log w ++ [Main.InfoAdjust Main.CPU cur increaseProb
                                      (F64.lt r2 increaseProb)]
   else
     Main.rand_pos w' = S (Main.rand_pos w) /\
     Main.cpuController w' = Main.cpuController w /\
     Main.log w' = Main.log w ++ [Main.InfoSkip Main.CPU cur]) /\
  (let cur := Main.MemoryPercent stats in
   let diff := F64.sub cur expectedUsage in
   let adjustProb := Main.calculateAdjustProbability (Main.abs diff) in
   let increaseProb := Main.calculateDirectionProbability diff expectedUsage in
   let w' := snd (Main.adjustMemory stats expectedUsage w) in
   same_outside w w' /\
   Main.cpuController w' = Main.cpuController w /\
   if F64.gt cur (F64.of_int 70) then
     Main.rand_pos w' = Main.rand_pos w /\
     Main.memoryController w'
     = snd (Mem.AdjustMemoryRandom false (Main.memoryController w)) /\
     Main.log w'
     = Main.log w ++ [Main.WarnOverHardPeak Main.Memory cur;
                      Main.InfoForcedDecrease Main.Memory cur]
   else if F64.lt r1 adjustProb then
     Main.rand_pos w' = S (S (Main.rand_pos w)) /\
     Main.memoryController w'
     = snd (Mem.AdjustMemoryRandom (F64.lt r2 increaseProb)
                                   (Main.memoryController w)) /\
     Main.log w'
     = Main.log w ++ [Main.InfoAdjust Main.Memory cur increaseProb
                                      (F64.lt r2 increaseProb)]
   else
     Main.rand_pos w' = S (Main.rand_pos w) /\
     Main.memoryController w' = Main.memoryController w /\
     Main.log w' = Main.log w ++ [Main.InfoSkip Main.Memory cur]).
Proof.
  cbv zeta. split.
  - destruct (adjustCPU_cases stats expectedUsage w) as (H1 & H2 & H3).
    cbv zeta in H3. split; [exact H1|]. split; [exact H2|].
    destruct H3 as [(-> & H)|[(-> & -> & H)|(-> & -> & H)]]; exact H.
  - destruct (adjustMemory_cases stats expectedUsage w) as (H1 & H2 & H3).
    cbv zeta in H3. split; [exact H1|]. split; [exact H2|].
    destruct H3 as [(-> & H)|[(-> & -> & H)|(-> & -> & H)]]; exact H.
Qed.

(** What one round of the controller does to the two engines. *)
Lemma adjustResources_engines
  (stats : Main.SystemStats) (expectedUsage : F64.t) (w : Main.World) :
  let w' := snd (Main.adjustResources stats expectedUsage w) in
  same_outside w w' /\
  (Main.memoryController w' = Main.memoryController w \/
   exists d, Main.memoryController w'
             = snd (Mem.AdjustMemoryRandom d (Main.memoryController w))) /\
  (Main.cpuController w' = Main.cpuController w \/
   exists d, Main.cpuController w'
             = snd (Cpu.AdjustCountRandom d (Main.cpuController w))).
Proof.
  intros w'.
  set (wm := snd (Main.adjustMemory stats expectedUsage w)).
  assert (Hw' : w' = snd (Main.adjustCPU stats expectedUsage wm)).
  { unfold w', wm, Main.adjustResources, Main.bind.
    destruct (Main.adjustMemory stats expectedUsage w) as [[] w1]. reflexivity. }
  destruct (adjustMemory_cases stats expectedUsage w) as (Hm1 & Hm2 & Hm3).
  destruct (adjustCPU_cases stats expectedUsage wm) as (Hc1 & Hc2 & Hc3).
  cbv zeta in Hm3, Hc3. fold wm in Hm1, Hm2, Hm3.
  rewrite <- Hw' in Hc1, Hc2, Hc3.
  split.
  { unfold same_outside in *.
    destruct Hm1 as (A1 & A2 & A3 & A4 & A5), Hc1 as (B1 & B2 & B3 & B4 & B5).
    repeat split; congruence. }
  split.
  - rewrite Hc2.
    destruct Hm3 as [(_ & _ & H & _)|[(_ & _ & _ & H & _)|(_ & _ & _ & H & _)]];
      [right; eexists; exact H|left; exact H|right; eexists; exact H].
  - rewrite <- Hm2.
    destruct Hc3 as [(_ & _ & H & _)|[(_ & _ & _ & H & _)|(_ & _ & _ & H & _)]];
      [right; eexists; exact H|left; exact H|right; eexists; exact H].
Qed.


(** X12: one round of [adjustResources] is the memory pass followed by
    the CPU pass on the world the memory pass leaves.  It leaves the
    environment, the clock, the random source and the ceilings alone, moves
    each engine by at most one step of its own, takes at most two draws for
    each pass, and logs one or two lines about the memory first and then
    one or two lines about the CPU. *)
Theorem adjustResources_round
  (stats : Main.SystemStats) (expectedUsage : F64.t) (w : Main.World) :
  let wm := snd (Main.adjustMemory stats expectedUsage w) in
  let w' := snd (Main.adjustResources stats expectedUsage w) in
  w' = snd (Main.adjustCPU stats expectedUsage wm) /\
  same_outside w w' /\
  Main.memoryController w' = Main.memoryController wm /\
  (Main.memoryController w' = Main.memoryController w \/
   exists d, Main.memoryController w'
             = snd (Mem.AdjustMemoryRandom d (Main.memoryController w))) /\
  (Main.cpuController w' = Main.cpuController w \/
   exists d, Main.cpuController w'
             = snd (Cpu.AdjustCountRandom d (Main.cpuController w))) /\
  (Main.rand_pos w <= Main.rand_pos wm <= Main.rand_pos w + 2)%nat /\
  (Main.rand_pos wm <= Main.rand_pos w' <= Main.rand_pos wm + 2)%nat /\
  exists em ec : list Main.Event,
    Main.log wm = Main.log w ++ em /\
    Main.log w' = Main.log w ++ em ++ ec /\
    (1 <= List.length em <= 2)%nat /\ (1 <= List.length ec <= 2)%nat /\
    Forall (fun e => event_resource e = Some Main.Memory) em /\
    Forall (fun e => event_resource e = Some Main.CPU) ec.
Proof.
  intros wm w'.
  assert (Hw' : w' = snd (Main.adjustCPU stats expectedUsage wm)).
  { unfold w', wm, Main.adjustResources, Main.bind.
    destruct (Main.adjustMemory stats expectedUsage w) as [[] w1]. reflexivity. }
  destruct (adjustResources_engines stats expectedUsage w) as (Hout & Hm & Hc).
  cbv zeta in Hout, Hm, Hc. fold w' in Hout, Hm, Hc.
  destruct (adjustMemory_cases stats expectedUsage w) as (_ & _ & Hm3).
  destruct (adjustCPU_cases stats expectedUsage wm) as (_ & Hc2 & Hc3).
  cbv zeta in Hm3, Hc3. fold wm in Hm3. rewrite <- Hw' in Hc2, Hc3.
  split; [exact Hw'|]. split; [exact Hout|]. split; [exact Hc2|].
  split; [exact Hm|]. split; [exact Hc|].
  split.
  { destruct Hm3 as [(_ & H & _)|[(_ & _ & H & _)|(_ & _ & H & _)]]; lia. }
  split.
  { destruct Hc3 as [(_ & H & _)|[(_ & _ & H & _)|(_ & _ & H & _)]]; lia. }
  assert (Hem : exists em, Main.log wm = Main.log w ++ em /\
                           (1 <= List.length em <= 2)%nat /\
                           Forall (fun e => event_resource e = Some Main.Memory) em).
  { destruct Hm3 as [(_ & _ & _ & H)|[(_ & _ & _ & _ & H)|(_ & _ & _ & _ & H)]];
      eexists; (split; [exact H|]); (split; [cbn; lia|]);
      repeat constructor. }
  assert (Hec : exists ec, Main.log w' = Main.log wm ++ ec /\
                           (1 <= List.length ec <= 2)%nat /\
                           Forall (fun e => event_resource e = Some Main.CPU) ec).
  { destruct Hc3 as [(_ & _ & _ & H)|[(_ & _ & _ & _ & H)|(_ & _ & _ & _ & H)]];
      eexists; (split; [exact H|]); (split; [cbn; lia|]);
      repeat constructor. }
  destruct Hem as (em & He1 & He2 & He3). destruct Hec as (ec & Hc4 & Hc5 & Hc6).
  exists em, ec. split; [exact He1|]. split.
  { rewrite Hc4, He1, app_assoc. reflexivity. }
  repeat split; assumption || lia.
Qed.

Lemma table_cases_adjust (x : F64.t) :
  Main.calculateAdjustProbability x = Main.c0_90 \/
  Main.calculateAdjustProbability x = Main.c0_70 \/
  Main.calculateAdjustProbability x = Main.c0_60.
Proof.
  unfold Main.calculateAdjustProbability.
  destruct (F64.gt x _); [auto|]. destruct (F64.ge x _); auto.
Qed.

(** X13: the tables keep every decision open to the draw, whatever the
    readings are (a NaN included): a draw below 0.60 always passes the
    adjust-or-skip stage and a draw of 0.90 or more never does; a draw
    below 0.10 always gives an increase and a draw of 0.90 or more never
    does.  And the direction leans toward the target: below the target
    the increase probability is at least 0.55, otherwise at most 0.45. *)
Theorem probability_tables_range (diff expectedUsage r : F64.t) :
  let adjustProb := Main.calculateAdjustProbability (Main.abs diff) in
  let increaseProb := Main.calculateDirectionProbability diff expectedUsage in
  (F64.lt r Main.c0_60 = true -> F64.lt r adjustProb = true) /\
  (F64.le Main.c0_90 r = true -> F64.lt r adjustProb = false) /\
  (F64.lt r Main.c0_10 = true -> F64.lt r increaseProb = true) /\
  (F64.le Main.c0_90 r = true -> F64.lt r increaseProb = false) /\
  (if F64.lt diff (F64.of_int 0)
   then F64.le Main.c0_55 increaseProb = true
   else F64.le increaseProb Main.c0_45 = true).
Proof.
  cbv zeta.
  assert (Hup : forall p, F64.le p Main.c0_90 = true ->
                          F64.le Main.c0_90 r = true -> F64.lt r p = false).
  { intros p Hp Hr. destruct (F64.lt r p) eqn:E; [|reflexivity].
    pose proof (lt_le_trans r p Main.c0_90 E Hp) as Hlt.
    rewrite (le_true_lt_false _ _ Hr) in Hlt. discriminate Hlt. }
  split.
  { intros Hr.
    destruct (table_cases_adjust (Main.abs diff)) as [ -> | [ -> | -> ] ];
      [| |exact Hr]; apply (lt_le_trans r Main.c0_60); try exact Hr;
      vm_compute; reflexivity. }
  split.
  { destruct (table_cases_adjust (Main.abs diff)) as [ -> | [ -> | -> ] ];
      apply Hup; vm_compute; reflexivity. }
  unfold Main.calculateDirectionProbability. cbv zeta.
  destruct (F64.lt diff (F64.of_int 0));
    destruct (F64.gt (Main.abs diff) (F64.of_int 50));
    [| destruct (F64.gt (Main.abs diff) (F64.of_int 20));
       [| destruct (F64.gt (Main.abs diff) (F64.of_int 10));
          [| destruct (F64.gt (Main.abs diff) (F64.of_int 5));
             [| destruct (F64.ge (Main.abs diff) (F64.of_int 2)) ]]]
    | | destruct (F64.gt (Main.abs diff) (F64.of_int 20));
       [| destruct (F64.gt (Main.abs diff) (F64.of_int 10));
          [| destruct (F64.gt (Main.abs diff) (F64.of_int 5));
             [| destruct (F64.ge (Main.abs diff) (F64.of_int 2)) ]]]];
    (split; [intros Hr; first [exact Hr
                              |apply (lt_le_trans r Main.c0_10);
                               [exact Hr|vm_compute; reflexivity]]|]);
    (split; [apply Hup; vm_compute; reflexivity|]);
    vm_compute; reflexivity.
Qed.

(** ** Percentages *)

Lemma digits2_le_53 (p : positive) :
  Zpos p < 2 ^ 53 -> Zpos (digits2_pos p) <= 53.
Proof.
  intros Hp. pose proof (digits2_bounds p) as [Dlo _].
  destruct (Z_le_gt_dec (Zpos (digits2_pos p)) 53); [assumption|exfalso].
  assert (2 ^ 53 <= 2 ^ (Zpos (digits2_pos p) - 1))
    by (apply Z.pow_le_mono_r; lia).
  lia.
Qed.

(** A float of the format above the subnormal range has a full mantissa. *)
Lemma bounded_normal (m : positive) (e : Z) :
  bounded 53 1024 m e = true -> -1074 < e ->
  Zpos (digits2_pos m) = 53 /\ 2 ^ 52 <= Zpos m < 2 ^ 53.
Proof.
  intros Hb He. destruct (bounded_facts m e Hb) as (Hm & _ & Hc).
  pose proof (digits2_bounds m) as [Dlo Dhi].
  assert (Hd : Zpos (digits2_pos m) = 53) by lia.
  rewrite Hd in Dlo. change (53 - 1) with 52 in Dlo. lia.
Qed.

Lemma bounded_intro (m : positive) (e : Z) :
  -1074 <= e <= 971 -> Zpos m < 2 ^ 53 ->
  (-1074 < e -> 2 ^ 52 <= Zpos m) ->
  bounded 53 1024 m e = true.
Proof.
  intros He Hm Hn. unfold bounded, canonical_mantissa. rewrite fexp_eq.
  apply andb_true_iff. split; [|apply Z.leb_le; change (1024 - 53) with 971; lia].
  apply Z.eqb_eq. pose proof (digits2_le_53 m Hm) as Hd.
  destruct (Z.eq_dec e (-1074)) as [->|Hne]; [lia|].
  assert (H52 : 2 ^ 52 <= Zpos m) by (apply Hn; lia).
  rewrite (digits2_unique m 53); [lia|]. change (53 - 1) with 52. lia.
Qed.

(** What [binary_round_aux] returns is a float of the format, as long as
    the mantissa it is given is not shorter than the format's. *)
Lemma binary_round_aux_bounded (s : bool) (mx : positive) (ex : Z) :
  ex <= Z.max (Zpos (digits2_pos mx) + ex - 53) (-1074) ->
  match binary_round_aux 53 1024 s (Zpos mx) ex loc_Exact with
  | S754_finite _ m e => bounded 53 1024 m e = true
  | _ => True
  end.
Proof.
  intros Hex.
  destruct (binary_round_aux_exact s mx ex)
    as (m' & m1 & Hm0 & Hb & Hm1 & Hm1le & ->).
  pose proof (digits2_bounds mx) as [Dlo Dhi]. rewrite fexp_eq in *.
  set (d := Zpos (digits2_pos mx)) in *.
  set (n := Z.max 0 (Z.max (d + ex - 53) (-1074) - ex)) in *.
  assert (Hn : ex + n = Z.max (d + ex - 53) (-1074)) by lia.
  assert (Hn0 : 0 <= n) by lia.
  pose proof (Z.pow_pos_nonneg 2 n ltac:(lia) Hn0) as Hp.
  assert (Hnorm : -1074 < ex + n -> 2 ^ 52 <= m').
  { intros Hgt. assert (Hnd : n = d - 53) by lia.
    assert (2 ^ (d - 1) = 2 ^ 52 * 2 ^ n).
    { rewrite <- Z.pow_add_r by lia. f_equal. lia. }
    assert (2 ^ 52 * 2 ^ n < (m' + 1) * 2 ^ n) by lia.
    assert (2 ^ 52 < m' + 1) by nia. lia. }
  unfold pack. destruct m1 as [|p|p]; [exact I| |exact I].
  destruct (Pos.eqb_spec p 9007199254740992) as [->|Hne].
  - destruct (Z.leb_spec (ex + n + 1) 971); [|exact I].
    apply bounded_intro; [lia|reflexivity|intros _; reflexivity].
  - destruct (Z.leb_spec (ex + n) 971); [|exact I].
    assert (Zpos p <> 2 ^ 53) by (intros [= ->]; auto).
    apply bounded_intro; [lia|lia|]. intros Hgt. specialize (Hnorm Hgt).
    destruct Hm1 as [->|[-> _]]; lia.
Qed.

(** On floats of the format the comparison of the library is the
    comparison of the values. *)
Lemma SFcompare_bounded (m1 : positive) (e1 : Z) (m2 : positive) (e2 : Z) :
  bounded 53 1024 m1 e1 = true -> bounded 53 1024 m2 e2 = true ->
  SFcompare (S754_finite false m1 e1) (S754_finite false m2 e2)
  = Some (sval (Zpos m1) e1 ?= sval (Zpos m2) e2).
Proof.
  intros H1 H2.
  destruct (bounded_facts m1 e1 H1) as (Hm1 & He1 & _).
  destruct (bounded_facts m2 e2 H2) as (Hm2 & He2 & _).
  cbn [SFcompare]. change PosDef.Pos.compare_cont with Pos.compare_cont.
  rewrite Pos.compare_cont_spec. cbn [Pos.switch_Eq]. f_equal.
  unfold sval.
  pose proof (Z.pow_pos_nonneg 2 (e1 + 2200) ltac:(lia) ltac:(lia)) as Hp1.
  pose proof (Z.pow_pos_nonneg 2 (e2 + 2200) ltac:(lia) ltac:(lia)) as Hp2.
  destruct (Z.compare_spec e1 e2) as [->|Hlt|Hgt].
  - symmetry. destruct (Pos.compare_spec m1 m2) as [->|Hc|Hc].
    + apply Z.compare_refl.
    + apply Z.compare_lt_iff. apply Z.mul_lt_mono_pos_r; [assumption|].
      apply Pos2Z.pos_lt_pos. exact Hc.
    + apply Z.compare_gt_iff. apply Z.mul_lt_mono_pos_r; [assumption|].
      apply Pos2Z.pos_lt_pos. exact Hc.
  - symmetry. apply Z.compare_lt_iff.
    destruct (bounded_normal m2 e2 H2 ltac:(lia)) as (_ & Hn & _).
    assert (Hpw : 2 ^ (e2 + 2200) = 2 ^ (e2 - e1 - 1) * 2 * 2 ^ (e1 + 2200)).
    { replace (e2 + 2200) with (e2 - e1 - 1 + (1 + (e1 + 2200))) by lia.
      rewrite !Z.pow_add_r by lia. change (2 ^ 1) with 2. ring. }
    rewrite Hpw.
    pose proof (Z.pow_pos_nonneg 2 (e2 - e1 - 1) ltac:(lia) ltac:(lia)).
    change (2 ^ 53) with (2 * 2 ^ 52) in Hm1.
    assert (Zpos m1 * 2 ^ (e1 + 2200) < 2 ^ 52 * 2 * 2 ^ (e1 + 2200)) by nia.
    assert (2 ^ 52 * 2 * 2 ^ (e1 + 2200)
            <= Zpos m2 * (2 ^ (e2 - e1 - 1) * 2 * 2 ^ (e1 + 2200))) by nia.
    lia.
  - symmetry. apply Z.compare_gt_iff.
    destruct (bounded_normal m1 e1 H1 ltac:(lia)) as (_ & Hn & _).
    assert (Hpw : 2 ^ (e1 + 2200) = 2 ^ (e1 - e2 - 1) * 2 * 2 ^ (e2 + 2200)).
    { replace (e1 + 2200) with (e1 - e2 - 1 + (1 + (e2 + 2200))) by lia.
      rewrite !Z.pow_add_r by lia. change (2 ^ 1) with 2. ring. }
    rewrite Hpw.
    pose proof (Z.pow_pos_nonneg 2 (e1 - e2 - 1) ltac:(lia) ltac:(lia)).
    change (2 ^ 53) with (2 * 2 ^ 52) in Hm2.
    assert (Zpos m2 * 2 ^ (e2 + 2200) < 2 ^ 52 * 2 * 2 ^ (e2 + 2200)) by nia.
    assert (2 ^ 52 * 2 * 2 ^ (e2 + 2200)
            <= Zpos m1 * (2 ^ (e1 - e2 - 1) * 2 * 2 ^ (e2 + 2200))) by nia.
    lia.
Qed.

Lemma iter_pos_iter {A : Type} (f : A -> A) (p : positive) :
  forall x : A, iter_pos f p x = Pos.iter f x p.
Proof.
  induction p as [p IH|p IH|]; intros x; cbn [iter_pos Pos.iter].
  - rewrite !IH, <- !Pos.iter_swap. reflexivity.
  - rewrite !IH. reflexivity.
  - reflexivity.
Qed.

Lemma iter_pos_add {A : Type} (f : A -> A) (p q : positive) (x : A) :
  iter_pos f (p + q) x = iter_pos f p (iter_pos f q x).
Proof. rewrite !iter_pos_iter. apply Pos.iter_add. Qed.

(** Rounding a mantissa that comes with an inexact location is rounding
    the mantissa with the two bits of the location under it. *)
Lemma binary_round_aux_inexact (s : bool) (q : positive) (e : Z)
      (c : comparison) :
  53 <= Zpos (digits2_pos q) -> -1074 <= e ->
  binary_round_aux 53 1024 s (Zpos q) e (loc_Inexact c)
  = binary_round_aux 53 1024 s (Zpos (with_location q c)) (e - 2) loc_Exact.
Proof.
  intros Hd He. unfold binary_round_aux.
  assert (Hshr : shr_fexp 53 1024 (Zpos q) e (loc_Inexact c)
                 = shr_fexp 53 1024 (Zpos (with_location q c)) (e - 2)
                            loc_Exact);
    [|rewrite Hshr; reflexivity].
  unfold shr_fexp. rewrite !fexp_eq. cbn [Zdigits2].
  assert (Hdig : Zpos (digits2_pos (with_location q c))
                 = Zpos (digits2_pos q) + 2).
  { destruct c; cbn [with_location digits2_pos]; lia. }
  rewrite Hdig. set (d := Zpos (digits2_pos q)) in *.
  replace (Z.max (d + 2 + (e - 2) - 53) (-1074) - (e - 2))
    with (Z.max (d + e - 53) (-1074) - e + 2) by lia.
  assert (Htwo : iter_pos shr_1 2 (shr_record_of_loc
                                     (Zpos (with_location q c)) loc_Exact)
                 = shr_record_of_loc (Zpos q) (loc_Inexact c)).
  { destruct c; reflexivity. }
  unfold shr.
  destruct (Z.max (d + e - 53) (-1074) - e) as [|p|p] eqn:E; [| |lia].
  - cbn [Z.add]. rewrite Htwo. f_equal. lia.
  - replace (Zpos p + 2) with (Zpos (p + 2)) by lia.
    rewrite iter_pos_add, Htwo. f_equal. lia.
Qed.

Lemma new_location_cases (nb k : Z) :
  (k = 0 /\ new_location nb k = loc_Exact) \/
  (k <> 0 /\ exists c, new_location nb k = loc_Inexact c).
Proof.
  unfold new_location.
  destruct (Z.even nb); unfold new_location_even, new_location_odd;
    (destruct (Z.eqb_spec k 0) as [->|Hk];
     [left; split; reflexivity|right; split; [exact Hk|eexists; reflexivity]]).
Qed.

(** A float divided by itself is the float one. *)
Lemma SFdiv_self (s : bool) (m : positive) (e : Z) :
  SFdiv 53 1024 (S754_finite s m e) (S754_finite s m e)
  = S754_finite false 4503599627370496 (-52).
Proof.
  unfold SFdiv, SFdiv_core_binary. cbv zeta.
  replace (Zdigits2 (Zpos m) + e - (Zdigits2 (Zpos m) + e)) with 0 by lia.
  replace (e - e) with 0 by lia.
  change (Z.min (fexp 53 1024 0) 0) with (-53).
  change (0 - -53) with 53. cbv iota beta.
  rewrite Z.shiftl_mul_pow2 by lia.
  assert (Hq : Z.div_eucl (Zpos m * 2 ^ 53) (Zpos m) = (2 ^ 53, 0)).
  { assert (H : Z.div_eucl (Zpos m * 2 ^ 53) (Zpos m)
                = (Zpos m * 2 ^ 53 / Zpos m, (Zpos m * 2 ^ 53) mod Zpos m)).
    { unfold Z.div, Z.modulo.
      destruct (Z.div_eucl (Zpos m * 2 ^ 53) (Zpos m)); reflexivity. }
    rewrite H, (Z.mul_comm (Zpos m)), Z.div_mul, Z.mod_mul by lia.
    reflexivity. }
  rewrite Hq.
  assert (Hl : new_location (Zpos m) 0 = loc_Exact).
  { destruct (new_location_cases (Zpos m) 0) as [[_ H]|[H _]];
      [exact H|contradiction]. }
  rewrite Hl. destruct s; reflexivity.
Qed.

(** The quotient of two full-mantissa floats, the first not above the
    second in magnitude, is a float of the format that is at most one in
    magnitude and has the sign of the first. *)
Lemma SFdiv_le_one (s : bool) (m1 : positive) (e1 : Z)
      (m2 : positive) (e2 : Z) :
  bounded 53 1024 m1 e1 = true -> bounded 53 1024 m2 e2 = true ->
  -100 <= e1 <= 100 -> -100 <= e2 <= 100 ->
  sval (Zpos m1) e1 <= sval (Zpos m2) e2 ->
  exists (m : positive) (e : Z),
    SFdiv 53 1024 (S754_finite s m1 e1) (S754_finite false m2 e2)
    = S754_finite s m e /\
    bounded 53 1024 m e = true /\ -1000 <= e /\
    sval (Zpos m) e <= 2 ^ 2200.
Proof.
  intros Hb1 Hb2 He1 He2 Hle.
  destruct (bounded_normal m1 e1 Hb1 ltac:(lia)) as (Hd1 & Hn1 & Hm1).
  destruct (bounded_normal m2 e2 Hb2 ltac:(lia)) as (Hd2 & Hn2 & Hm2).
  (* the exponents are ordered as the values are *)
  assert (Hee : e1 <= e2).
  { destruct (Z_le_gt_dec e1 e2); [assumption|exfalso].
    unfold sval in Hle.
    assert (Hpw : 2 ^ (e1 + 2200) = 2 ^ (e1 - e2 - 1) * 2 * 2 ^ (e2 + 2200)).
    { replace (e1 + 2200) with (e1 - e2 - 1 + (1 + (e2 + 2200))) by lia.
      rewrite !Z.pow_add_r by lia. change (2 ^ 1) with 2. ring. }
    rewrite Hpw in Hle.
    pose proof (Z.pow_pos_nonneg 2 (e1 - e2 - 1) ltac:(lia) ltac:(lia)).
    pose proof (Z.pow_pos_nonneg 2 (e2 + 2200) ltac:(lia) ltac:(lia)).
    change (2 ^ 53) with (2 * 2 ^ 52) in Hm2.
    assert (Zpos m2 * 2 ^ (e2 + 2200) < 2 ^ 52 * 2 * 2 ^ (e2 + 2200)) by nia.
    assert (2 ^ 52 * 2 * 2 ^ (e2 + 2200)
            <= Zpos m1 * (2 ^ (e1 - e2 - 1) * 2 * 2 ^ (e2 + 2200))) by nia.
    lia. }
  set (k := e2 - e1).
  assert (Hk : 0 <= k) by (unfold k; lia).
  pose proof (Z.pow_pos_nonneg 2 k ltac:(lia) Hk) as Hpk.
  assert (Hmk : Zpos m1 <= Zpos m2 * 2 ^ k).
  { unfold sval in Hle.
    replace (e2 + 2200) with (k + (e1 + 2200)) in Hle by (unfold k; lia).
    rewrite (Z.pow_add_r 2 k (e1 + 2200)) in Hle by lia.
    pose proof (Z.pow_pos_nonneg 2 (e1 + 2200) ltac:(lia) ltac:(lia)).
    apply (Z.mul_le_mono_pos_r _ _ (2 ^ (e1 + 2200))); lia. }
  unfold SFdiv, SFdiv_core_binary. cbv zeta. cbn [Zdigits2].
  rewrite xorb_false_r, Hd1, Hd2, fexp_eq.
  replace (Z.min (Z.max (53 + e1 - (53 + e2) - 53) (-1074)) (e1 - e2))
    with (e1 - e2 - 53) by lia.
  replace (e1 - e2 - (e1 - e2 - 53)) with 53 by lia. cbv iota beta.
  rewrite Z.shiftl_mul_pow2 by lia.
  pose proof (Z_div_mod (Zpos m1 * 2 ^ 53) (Zpos m2) ltac:(lia)) as Hdm.
  destruct (Z.div_eucl (Zpos m1 * 2 ^ 53) (Zpos m2)) as [q r].
  destruct Hdm as [Hq Hr].
  assert (H53 : 2 ^ 53 = 2 * 2 ^ 52) by reflexivity.
  assert (Hq52 : 2 ^ 52 <= q).
  { assert (2 ^ 52 * Zpos m2 < (q + 1) * Zpos m2) by nia. nia. }
  assert (HqK : q * Zpos m2 + r <= Zpos m2 * (2 ^ k * 2 ^ 53)) by nia.
  assert (HqK1 : q <= 2 ^ k * 2 ^ 53) by nia.
  assert (HqK2 : r <> 0 -> q + 1 <= 2 ^ k * 2 ^ 53) by (intros; nia).
  destruct q as [|qp|qp]; try lia.
  assert (Hdq : 53 <= Zpos (digits2_pos qp)).
  { pose proof (digits2_bounds qp) as [_ Dhi].
    destruct (Z_le_gt_dec 53 (Zpos (digits2_pos qp))); [assumption|exfalso].
    assert (2 ^ Zpos (digits2_pos qp) <= 2 ^ 52)
      by (apply Z.pow_le_mono_r; lia).
    lia. }
  assert (Hone : 2 ^ 2200 = 2 ^ k * 2 ^ 53 * 2 ^ (e1 - e2 - 53 + 2200)).
  { rewrite <- !Z.pow_add_r by (unfold k; lia). f_equal. unfold k. lia. }
  set (e' := e1 - e2 - 53) in *.
  pose proof (Z.pow_pos_nonneg 2 (e' + 2200) ltac:(unfold e'; lia)
                ltac:(unfold e'; lia)) as Hpe.
  assert (Hfin : forall (mx : positive) (ex : Z),
             e' - 2 <= ex <= e' -> 53 <= Zpos (digits2_pos mx) ->
             sval (Zpos mx) ex <= 2 ^ 2200 ->
             exists (m : positive) (e : Z),
               binary_round_aux 53 1024 s (Zpos mx) ex loc_Exact
               = S754_finite s m e /\
               bounded 53 1024 m e = true /\ -1000 <= e /\
               sval (Zpos m) e <= 2 ^ 2200).
  { intros mx ex Hex Hdx Hv.
    pose proof (binary_round_aux_le s mx ex 4503599627370496 (-52)
                  ltac:(unfold e' in Hex; lia) eq_refl) as Hup.
    change (sval (Zpos 4503599627370496) (-52)) with (2 ^ 2200) in Hup.
    specialize (Hup Hv).
    pose proof (binary_round_aux_bounded s mx ex ltac:(lia)) as Hbd.
    assert (Htiny : sval 1 (-1074) <= sval (Zpos mx) ex).
    { unfold sval. rewrite Z.mul_1_l.
      assert (2 ^ (-1074 + 2200) <= 2 ^ (ex + 2200))
        by (apply Z.pow_le_mono_r; unfold e' in Hex; lia).
      assert (0 < 2 ^ (-1074 + 2200)) by (apply Z.pow_pos_nonneg; lia).
      nia. }
    pose proof (binary_round_aux_ge s mx ex 1 (-1074)
                  ltac:(unfold e' in Hex; lia) eq_refl Htiny) as Hdn.
    destruct (binary_round_aux 53 1024 s (Zpos mx) ex loc_Exact)
      as [s0|s0| |s0 m e]; try contradiction.
    destruct Hup as (-> & Hlo & Hv'). exists m, e.
    repeat split; try assumption. unfold e' in Hex. lia. }
  destruct (new_location_cases (Zpos m2) r) as [[Hr0 ->]|[Hr0 [c ->]]].
  - apply Hfin; [lia|assumption|]. unfold sval. rewrite Hone. nia.
  - rewrite binary_round_aux_inexact by (unfold e'; lia || assumption).
    apply Hfin; [lia|destruct c; cbn [with_location digits2_pos]; lia|].
    specialize (HqK2 Hr0). unfold sval.
    replace (e' - 2 + 2200) with (e' + 2200 - 2) by lia.
    assert (Hp4 : 2 ^ (e' + 2200) = 4 * 2 ^ (e' + 2200 - 2)).
    { replace (e' + 2200) with (2 + (e' + 2200 - 2)) at 1 by lia.
      rewrite Z.pow_add_r by (unfold e'; lia). reflexivity. }
    pose proof (Z.pow_pos_nonneg 2 (e' + 2200 - 2) ltac:(lia)
                  ltac:(unfold e'; lia)) as Hpe2.
    rewrite Hone, Hp4.
    assert (Zpos (with_location qp c) <= 4 * (Zpos qp + 1))
      by (destruct c; cbn [with_location]; lia).
    nia.
Qed.

(** [float64] of a positive [uint64] is a positive finite float. *)
Lemma of_int_uint64_finite (c : Z) :
  1 <= c < 2 ^ 64 ->
  exists (m : positive) (e : Z), F64.of_int c = S754_finite false m e.
Proof.
  intros Hc. destruct c as [|p|p]; try lia.
  unfold F64.of_int, binary_normalize.
  pose proof (binary_round_le false p 0 4503599627370496 12
                ltac:(lia) eq_refl) as Hup.
  assert (Hv : sval (Zpos p) 0 <= sval (Zpos 4503599627370496) 12).
  { unfold sval. change (12 + 2200) with (64 - 52 + (0 + 2200)).
    rewrite (Z.pow_add_r 2 (64 - 52) (0 + 2200)) by lia.
    change (Zpos 4503599627370496) with (2 ^ 52).
    pose proof (Z.pow_pos_nonneg 2 (0 + 2200) ltac:(lia) ltac:(lia)).
    assert (2 ^ 52 * 2 ^ (64 - 52) = 2 ^ 64) by reflexivity. nia. }
  specialize (Hup Hv).
  pose proof (of_int_at_least_one (Zpos p) ltac:(lia)) as Hone.
  unfold F64.of_int, binary_normalize in Hone.
  change F64.prec with 53 in *. change F64.emax with 1024 in *.
  destruct (binary_round 53 1024 false p 0) as [s|s| |s m e];
    try contradiction.
  - destruct Hup as (-> & _). exists m, e. reflexivity.
Qed.

(** The percentage the collectors compute, [float64(a) / float64(b) * 100],
    lies between 0 and 100 when [a] is at most [b]. *)
Lemma percent_range (a b : Z) :
  0 <= a <= b -> 1 <= b < 2 ^ 53 ->
  let p := F64.mul (F64.div (F64.of_int a) (F64.of_int b)) (F64.of_int 100) in
  F64.le (F64.of_int 0) p = true /\ F64.le p (F64.of_int 100) = true.
Proof.
  intros Ha Hb. cbv zeta.
  destruct (of_int_exact b Hb) as (m2 & e2 & -> & Hb2 & He2 & Hv2).
  change (F64.of_int 100) with (S754_finite false 7036874417766400 (-46)).
  change (F64.of_int 0) with (S754_zero false).
  destruct (Z.eq_dec a 0) as [->|Hne].
  { change (F64.of_int 0) with (S754_zero false). split; reflexivity. }
  destruct (of_int_exact a ltac:(lia)) as (m1 & e1 & -> & Hb1 & He1 & Hv1).
  assert (HK : 0 < 2 ^ 2200) by (apply Z.pow_pos_nonneg; lia).
  destruct (SFdiv_le_one false m1 e1 m2 e2 Hb1 Hb2 ltac:(lia) ltac:(lia)
              ltac:(rewrite Hv1, Hv2; nia)) as (m & e & Hd & Hbm & He & Hv).
  unfold F64.div. change F64.prec with 53. change F64.emax with 1024.
  rewrite Hd.
  destruct (bounded_normal m e Hbm ltac:(lia)) as (_ & Hn & Hm).
  destruct (bounded_facts m e Hbm) as (_ & Hee & _).
  unfold F64.mul, SFmul. cbn [xorb].
  change F64.prec with 53. change F64.emax with 1024.
  set (m100 := 7036874417766400%positive).
  assert (H100 : Zpos m100 = 100 * 2 ^ 46) by reflexivity.
  assert (Hsv : sval (Zpos (m * m100)) (e + -46) <= sval (Zpos m100) (-46)).
  { unfold sval in *. rewrite Pos2Z.inj_mul, H100.
    change (-46 + 2200) with 2154.
    assert (Hp1 : 2 ^ (e + 2200) = 2 ^ 46 * 2 ^ (e + -46 + 2200)).
    { rewrite <- Z.pow_add_r by lia. f_equal. lia. }
    assert (Hp2 : 2 ^ 2200 = 2 ^ 46 * 2 ^ 2154) by reflexivity.
    rewrite Hp1, Hp2 in Hv.
    pose proof (Z.pow_pos_nonneg 2 (e + -46 + 2200) ltac:(lia) ltac:(lia)).
    assert (0 < 2 ^ 2154) by (apply Z.pow_pos_nonneg; lia).
    assert (0 < 2 ^ 46) by reflexivity.
    assert (Zpos m * 2 ^ (e + -46 + 2200) <= 2 ^ 2154) by nia.
    nia. }
  pose proof (binary_round_aux_le false (m * m100) (e + -46) m100 (-46)
                ltac:(lia) eq_refl Hsv) as Hup.
  assert (Hdig : 105 <= Zpos (digits2_pos (m * m100))).
  { pose proof (digits2_bounds (m * m100)) as [_ Dhi].
    destruct (Z_le_gt_dec 105 (Zpos (digits2_pos (m * m100))));
      [assumption|exfalso].
    assert (2 ^ Zpos (digits2_pos (m * m100)) <= 2 ^ 104)
      by (apply Z.pow_le_mono_r; lia).
    rewrite Pos2Z.inj_mul, H100 in Dhi.
    change (2 ^ 104) with (2 ^ 52 * 2 ^ 52) in *.
    assert (0 < 2 ^ 46) by reflexivity.
    assert (2 ^ 52 <= 100 * 2 ^ 46) by (vm_compute; discriminate).
    nia. }
  pose proof (binary_round_aux_bounded false (m * m100) (e + -46)
                ltac:(lia)) as Hbd.
  destruct (binary_round_aux 53 1024 false (Zpos (m * m100)) (e + -46)
                             loc_Exact) as [s|s| |s m' e'];
    try contradiction.
  { subst s. split; reflexivity. }
  destruct Hup as (-> & _ & Hv'). split; [reflexivity|].
  unfold F64.le, SFleb. rewrite (SFcompare_bounded m' e' m100 (-46) Hbd eq_refl).
  destruct (Z.compare_spec (sval (Zpos m') e') (sval (Zpos m100) (-46)));
    try reflexivity. lia.
Qed.

(** ** The collectors *)

Lemma last_app_default {A : Type} (l1 l2 : list A) (d : A) :
  last (l1 ++ l2) d = last l2 (last l1 d).
Proof.
  revert d. induction l1 as [|x l1 IH]; intros d; [reflexivity|].
  cbn [app]. destruct l1 as [|y l1].
  - cbn [app last]. destruct l2 as [|z l2]; [reflexivity|].
    clear IH. revert z. induction l2 as [|z' l2 IH2]; intros z; [reflexivity|].
    cbn [last] in *. apply IH2.
  - change (last (x :: (y :: l1) ++ l2) d) with (last ((y :: l1) ++ l2) d).
    change (last (x :: y :: l1) d) with (last (y :: l1) d). apply IH.
Qed.

Lemma meminfo_line_entries (t a : Z) (fields : list string) :
  System.meminfo_line (t, a) fields
  = (match meminfo_entry "MemTotal:" fields with Some v => v | None => t end,
     match meminfo_entry "MemAvailable:" fields with
     | Some v => v | None => a end).
Proof.
  unfold System.meminfo_line, meminfo_entry.
  destruct fields as [|key [|field1 rest]]; try reflexivity.
  destruct (String.eqb_spec key "MemTotal:") as [->|Hk].
  - change (String.eqb "MemTotal:" "MemAvailable:") with false.
    destruct (System.ParseUint field1); reflexivity.
  - destruct (String.eqb key "MemAvailable:");
      destruct (System.ParseUint field1); reflexivity.
Qed.

Lemma meminfo_scan (ls : list (list string)) :
  forall t a : Z,
    fold_left System.meminfo_line ls (t, a)
    = (last (flat_map (fun fields =>
                         match meminfo_entry "MemTotal:" fields with
                         | Some v => [v] | None => [] end) ls) t,
       last (flat_map (fun fields =>
                         match meminfo_entry "MemAvailable:" fields with
                         | Some v => [v] | None => [] end) ls) a).
Proof.
  induction ls as [|fields ls IH]; intros t a; [reflexivity|].
  cbn [fold_left flat_map]. rewrite meminfo_line_entries, IH.
  rewrite !last_app_default.
  destruct (meminfo_entry "MemTotal:" fields),
           (meminfo_entry "MemAvailable:" fields); reflexivity.
Qed.

Lemma meminfo_entry_range (key : string) (fields : list string) (v : Z) :
  meminfo_entry key fields = Some v -> 0 <= v < 2 ^ 64.
Proof.
  unfold meminfo_entry. destruct fields as [|k [|f1 rest]]; try discriminate.
  destruct (String.eqb k key); [|discriminate].
  destruct (System.ParseUint f1); [|discriminate].
  intros [= <-]. apply wrap_range.
Qed.

Lemma last_entry_range (key : string) (ls : list (list string)) :
  0 <= last_entry key ls < 2 ^ 64.
Proof.
  unfold last_entry.
  assert (H : forall l d, 0 <= d < 2 ^ 64 ->
                Forall (fun v => 0 <= v < 2 ^ 64) l ->
                0 <= last l d < 2 ^ 64).
  { induction l as [|x l IH]; intros d Hd Hall; [exact Hd|].
    inversion Hall; subst. destruct l; [assumption|].
    change (last (x :: z :: l) d) with (last (z :: l) d). apply IH; assumption. }
  apply H; [split; [lia|reflexivity]|].
  apply Forall_forall. intros v Hv. apply in_flat_map in Hv.
  destruct Hv as (fields & _ & Hin).
  destruct (meminfo_entry key fields) eqn:E; [|contradiction].
  destruct Hin as [<-|[]]. exact (meminfo_entry_range _ _ _ E).
Qed.

(** X14: what [getMemoryStats] returns.  It fails when /proc/meminfo
    cannot be opened, when the scanner reports an error, and when the file
    gives no total memory; a failing call leaves [stats] as it was.  The
    loop keeps, for [MemTotal:] and for [MemAvailable:], the last line
    whose second field is a decimal [uint64], times 1024 in [uint64]
    arithmetic, and 0 when there is no such line; a successful call stores
    the total, the [uint64] difference of total and available, and their
    float64 ratio times 100, and leaves the CPU percentage alone. *)
Theorem getMemoryStats_outcome
  (meminfo : option System.File) (stats : Main.SystemStats) :
  match meminfo with
  | None => System.getMemoryStats meminfo stats = (Some System.OpenFailed, stats)
  | Some file =>
      let total := last_entry "MemTotal:" (System.lines file) in
      let available := last_entry "MemAvailable:" (System.lines file) in
      System.getMemoryStats meminfo stats
      = if System.scan_err file then (Some System.ScanFailed, stats)
        else if total =? 0 then (Some System.NoTotalMemory, stats)
        else
          (None,
           {| Main.CPUPercent := Main.CPUPercent stats;
              Main.MemoryPercent :=
                F64.mul (F64.div (F64.of_int (U64.sub total available))
                                 (F64.of_int total))
                        (F64.of_int 100);
              Main.TotalMemory := total;
              Main.UsedMemory := U64.sub total available |})
  end.
Proof.
  destruct meminfo as [file|]; [|reflexivity].
  cbv zeta. unfold System.getMemoryStats. rewrite meminfo_scan. reflexivity.
Qed.

(** X15: when the file is read without a scanner error and gives a
    total of at least 1 and below [2^53] bytes and an available memory
    that is not above it, [getMemoryStats] succeeds, the used
    memory is their difference, and the memory percentage is a float64
    between 0 and 100. *)
Theorem memory_percent_range
  (file : System.File) (stats : Main.SystemStats) :
  let total := last_entry "MemTotal:" (System.lines file) in
  let available := last_entry "MemAvailable:" (System.lines file) in
  System.scan_err file = false ->
  1 <= total < 2 ^ 53 -> available <= total ->
  exists stats' : Main.SystemStats,
    System.getMemoryStats (Some file) stats = (None, stats') /\
    Main.TotalMemory stats' = total /\
    Main.UsedMemory stats' = total - available /\
    F64.le (F64.of_int 0) (Main.MemoryPercent stats') = true /\
    F64.le (Main.MemoryPercent stats') (F64.of_int 100) = true.
Proof.
  intros total available Herr Ht Ha.
  pose proof (last_entry_range "MemAvailable:" (System.lines file)) as Hr.
  fold available in Hr.
  assert (H53 : 2 ^ 53 < 2 ^ 64) by reflexivity.
  assert (Hu : U64.sub total available = total - available).
  { unfold U64.sub. apply wrap_small. lia. }
  eexists. split.
  { unfold System.getMemoryStats. rewrite meminfo_scan, Herr.
    fold (last_entry "MemTotal:" (System.lines file)).
    fold (last_entry "MemAvailable:" (System.lines file)).
    fold total. fold available.
    destruct (Z.eqb_spec total 0); [lia|]. reflexivity. }
  cbn [Main.TotalMemory Main.UsedMemory Main.MemoryPercent].
  split; [reflexivity|]. split; [exact Hu|].
  rewrite Hu. apply percent_range; lia.
Qed.

Lemma memory_percent_range_witness :
  let file :=
    {| System.lines := [["MemTotal:"; "16384"; "kB"];
                        ["MemFree:"; "1024"; "kB"];
                        ["MemAvailable:"; "4096"; "kB"]]%string;
       System.scan_err := false |} in
  exists stats' : Main.SystemStats,
    System.getMemoryStats (Some file) Program.zeroStats = (None, stats') /\
    Main.TotalMemory stats' = 16384 * 1024 /\
    Main.UsedMemory stats' = 16384 * 1024 - 4096 * 1024 /\
    F64.le (F64.of_int 0) (Main.MemoryPercent stats') = true /\
    F64.le (Main.MemoryPercent stats') (F64.of_int 100) = true.
Proof.
  intros file.
  refine (memory_percent_range file Program.zeroStats _ _ _);
    vm_compute; intuition discriminate.
Defined.

Lemma no_entries (key : string) (ls : list (list string)) :
  Forall (fun fields => meminfo_entry key fields = None) ls ->
  flat_map (fun fields => match meminfo_entry key fields with
                          | Some v => [v] | None => [] end) ls = [].
Proof.
  induction 1 as [|fields ls' Hf _ IH]; [reflexivity|].
  cbn [flat_map]. rewrite Hf, IH. reflexivity.
Qed.

(** X16: when the file gives a total but no line gives [MemAvailable:]
    (kernels before 3.14 have none), the used memory is the total and the
    memory percentage is exactly 100.  With these stats [adjustMemory] is
    above the hard ceiling: whatever the target, it draws nothing and makes
    a decrease step. *)
Theorem memory_percent_without_MemAvailable
  (file : System.File) (stats : Main.SystemStats)
  (expectedUsage : F64.t) (w : Main.World) :
  System.scan_err file = false ->
  last_entry "MemTotal:" (System.lines file) <> 0 ->
  Forall (fun fields => meminfo_entry "MemAvailable:" fields = None)
         (System.lines file) ->
  exists stats' : Main.SystemStats,
    System.getMemoryStats (Some file) stats = (None, stats') /\
    Main.UsedMemory stats' = Main.TotalMemory stats' /\
    Main.MemoryPercent stats' = F64.of_int 100 /\
    let w' := snd (Main.adjustMemory stats' expectedUsage w) in
    Main.rand_pos w' = Main.rand_pos w /\
    Main.memoryController w'
    = snd (Mem.AdjustMemoryRandom false (Main.memoryController w)).
Proof.
  intros Herr Ht Hnone.
  pose proof (last_entry_range "MemTotal:" (System.lines file)) as Hr.
  set (total := last_entry "MemTotal:" (System.lines file)) in *.
  assert (Ha : last_entry "MemAvailable:" (System.lines file) = 0).
  { unfold last_entry.
    rewrite (no_entries _ _ Hnone). reflexivity. }
  assert (Hu : U64.sub total 0 = total).
  { unfold U64.sub. rewrite Z.sub_0_r. apply wrap_small. exact Hr. }
  assert (Hp : F64.mul (F64.div (F64.of_int total) (F64.of_int total))
                       (F64.of_int 100) = F64.of_int 100).
  { destruct (of_int_uint64_finite total ltac:(lia)) as (m & e & ->).
    unfold F64.div. change F64.prec with 53. change F64.emax with 1024.
    rewrite SFdiv_self. vm_compute. reflexivity. }
  eexists. split.
  { unfold System.getMemoryStats. rewrite meminfo_scan, Herr.
    fold (last_entry "MemTotal:" (System.lines file)).
    fold (last_entry "MemAvailable:" (System.lines file)).
    fold total. rewrite Ha, Hu, Hp.
    destruct (Z.eqb_spec total 0); [contradiction|]. reflexivity. }
  cbn [Main.TotalMemory Main.UsedMemory Main.MemoryPercent].
  split; [reflexivity|]. split; [reflexivity|].
  cbv zeta.
  destruct (adjustMemory_cases
              {| Main.CPUPercent := Main.CPUPercent stats;
                 Main.MemoryPercent := F64.of_int 100;
                 Main.TotalMemory := total;
                 Main.UsedMemory := total |} expectedUsage w)
    as (_ & _ & H).
  cbv zeta in H. cbn [Main.MemoryPercent] in H.
  destruct H as [(_ & H1 & H2 & _)|[(H & _)|(H & _)]];
    [split; assumption|vm_compute in H; discriminate H
    |vm_compute in H; discriminate H].
Qed.

Lemma memory_percent_without_MemAvailable_witness :
  let file :=
    {| System.lines := [["MemTotal:"; "16384"; "kB"];
                        ["MemFree:"; "1024"; "kB"]]%string;
       System.scan_err := false |} in
  exists stats' : Main.SystemStats,
    System.getMemoryStats (Some file) Program.zeroStats = (None, stats') /\
    Main.MemoryPercent stats' = F64.of_int 100.
Proof.
  intros file.
  destruct (memory_percent_without_MemAvailable
              file Program.zeroStats (F64.of_int 32)
              (Program.world (Program.boot (fun _ => None)
                                           (fun _ => F64.of_int 0))))
    as (stats' & H1 & _ & H3 & _).
  - reflexivity.
  - vm_compute. discriminate.
  - repeat constructor.
  - exists stats'. split; assumption.
Defined.

(** An integer below [2^53] in magnitude converts exactly, sign and all. *)
Lemma binary_round_int_exact (s : bool) (p : positive) :
  Zpos p < 2 ^ 53 ->
  exists (m : positive) (e : Z),
    binary_round 53 1024 s p 0 = S754_finite s m e /\
    bounded 53 1024 m e = true /\ -52 <= e <= 0 /\
    sval (Zpos m) e = Zpos p * 2 ^ 2200.
Proof.
  intros Hp. pose proof (digits2_bounds p) as [Dlo Dhi].
  pose proof (digits2_le_53 p Hp) as Hd.
  set (d := Zpos (digits2_pos p)) in *.
  assert (Hd1 : 1 <= d) by (unfold d; lia).
  destruct (binary_round_exact s p 0 Hd ltac:(fold d; lia))
    as (m & Hm & Hr & Hb).
  fold d in Hm, Hr, Hb.
  exists m, (d + 0 - 53). split; [exact Hr|]. split; [exact Hb|].
  split; [lia|]. unfold sval. rewrite Hm.
  assert (Hpw : 2 ^ 2200 = 2 ^ (53 - d) * 2 ^ (d + 0 - 53 + 2200)).
  { rewrite <- Z.pow_add_r by lia. f_equal. lia. }
  rewrite Hpw. ring.
Qed.

(** [binary_round] does not lose the sign, and gives no zero. *)
Lemma binary_round_signed (s : bool) (p : positive) (e : Z) :
  -1074 <= e <= 971 ->
  match binary_round 53 1024 s p e with
  | S754_finite s' _ _ | S754_infinity s' => s' = s
  | _ => False
  end.
Proof.
  intros He. unfold binary_round.
  destruct (shl_align_spec p e (fexp 53 1024 (Zpos (digits2_pos p) + e)))
    as (k & Hk & -> & Hkeq).
  rewrite fexp_eq in Hkeq.
  pose proof (Z.pow_pos_nonneg 2 k ltac:(lia) Hk) as Hp.
  assert (Hz : Zpos (Z.to_pos (Zpos p * 2 ^ k)) = Zpos p * 2 ^ k)
    by (apply Z2Pos.id; nia).
  assert (Htiny : sval 1 (-1074)
                  <= sval (Zpos (Z.to_pos (Zpos p * 2 ^ k))) (e - k)).
  { rewrite Hz. unfold sval. rewrite Z.mul_1_l.
    assert (2 ^ (-1074 + 2200) <= 2 ^ (e - k + 2200))
      by (apply Z.pow_le_mono_r; lia).
    assert (0 < 2 ^ (-1074 + 2200)) by (apply Z.pow_pos_nonneg; lia).
    nia. }
  pose proof (binary_round_aux_ge s (Z.to_pos (Zpos p * 2 ^ k)) (e - k)
                1 (-1074) ltac:(lia) eq_refl Htiny) as H.
  destruct (binary_round_aux 53 1024 s _ (e - k) loc_Exact)
    as [s0|s0| |s0 m e0]; try contradiction; [exact H|exact (proj1 H)].
Qed.

Lemma add_signed (s : bool) (x y : F64.t) :
  signed_or_zero s x -> signed_or_zero s y ->
  (x = S754_zero false /\ y = S754_zero false /\
   F64.add x y = S754_zero false) \/
  match F64.add x y with
  | S754_finite s' _ _ | S754_infinity s' => s' = s
  | _ => False
  end.
Proof.
  intros [->|(m1 & e1 & -> & Hb1)] [->|(m2 & e2 & -> & Hb2)].
  - left. repeat split.
  - right. reflexivity.
  - right. reflexivity.
  - right. unfold F64.add, SFadd. cbv zeta.
    change F64.prec with 53. change F64.emax with 1024.
    destruct (bounded_facts m1 e1 Hb1) as (_ & He1 & _).
    destruct (bounded_facts m2 e2 Hb2) as (_ & He2 & _).
    set (ez := Z.min e1 e2).
    set (a := fst (shl_align m1 e1 ez)). set (b := fst (shl_align m2 e2 ez)).
    destruct s; cbn [cond_Zopp Z.opp Z.add binary_normalize];
      apply binary_round_signed; unfold ez; lia.
Qed.

Lemma of_int_signed (c : Z) :
  - 2 ^ 53 < c < 2 ^ 53 ->
  (c = 0 /\ F64.of_int c = S754_zero false) \/
  (c <> 0 /\
   exists (m : positive) (e : Z),
     F64.of_int c = S754_finite (c <? 0) m e /\
     bounded 53 1024 m e = true /\ -52 <= e <= 0 /\
     sval (Zpos m) e = Z.abs c * 2 ^ 2200).
Proof.
  intros Hc. destruct c as [|p|p].
  - left. split; reflexivity.
  - right. split; [discriminate|].
    destruct (binary_round_int_exact false p ltac:(lia)) as (m & e & H).
    exists m, e. exact H.
  - right. split; [discriminate|].
    destruct (binary_round_int_exact true p ltac:(lia)) as (m & e & H).
    exists m, e. exact H.
Qed.

(** [Seconds] has the sign of the duration. *)
Lemma Duration_Seconds_sign (d : Z) :
  - 2 ^ 63 <= d < 2 ^ 63 ->
  F64.le (System.Duration_Seconds d) (F64.of_int 0) = (d <=? 0).
Proof.
  intros Hd.
  destruct (Z.eq_dec d 0) as [->|Hd0]; [vm_compute; reflexivity|].
  unfold System.Duration_Seconds. cbv zeta.
  set (G := 1000000000).
  assert (H63 : 2 ^ 63 = 9223372036854775808) by reflexivity.
  assert (H53 : 2 ^ 53 = 9007199254740992) by reflexivity.
  pose proof (Z.quot_rem d G ltac:(unfold G; lia)) as Hqr.
  pose proof (Z.rem_bound_abs d G ltac:(unfold G; lia)) as Hrb.
  assert (Hsgn : (0 <= d -> 0 <= Z.quot d G /\ 0 <= Z.rem d G) /\
                 (d <= 0 -> Z.quot d G <= 0 /\ Z.rem d G <= 0)).
  { split; intros H.
    - split; [apply Z.quot_pos; unfold G; lia|apply Z.rem_nonneg; unfold G; lia].
    - split.
      + rewrite <- (Z.opp_involutive d), Z.quot_opp_l by (unfold G; lia).
        assert (0 <= Z.quot (- d) G) by (apply Z.quot_pos; unfold G; lia). lia.
      + rewrite <- (Z.opp_involutive d), Z.rem_opp_l by (unfold G; lia).
        assert (0 <= Z.rem (- d) G) by (apply Z.rem_nonneg; unfold G; lia). lia. }
  assert (HG : Z.abs G = G) by reflexivity. rewrite HG in Hrb.
  generalize dependent (Z.quot d G). generalize dependent (Z.rem d G).
  intros nsec Hnb sec Hqr Hsgn.
  assert (Hsecb : - 2 ^ 53 < sec < 2 ^ 53).
  { rewrite H53. unfold G in *. lia. }
  set (s := d <? 0).
  (* the two summands *)
  assert (Hx : signed_or_zero s (F64.of_int sec)).
  { destruct (of_int_signed sec Hsecb) as [[H0 E]|(Hne & m & e & E & Hb & _)];
      rewrite E.
    - left; reflexivity.
    - right. exists m, e. split; [|exact Hb].
      f_equal. unfold s. destruct Hsgn as [Hp Hn].
      destruct (Z.ltb_spec sec 0), (Z.ltb_spec d 0); try reflexivity; lia. }
  assert (Hy : signed_or_zero s (F64.div (F64.of_int nsec) (F64.of_int G))).
  { destruct (of_int_exact G ltac:(rewrite H53; unfold G; lia))
      as (mg & eg & Eg & Hbg & Heg & Hvg).
    rewrite Eg.
    destruct (of_int_signed nsec ltac:(rewrite H53; unfold G in *; lia))
      as [[H0 E]|(Hne & m & e & E & Hb & He & Hv)]; rewrite E.
    - left; reflexivity.
    - assert (HK : 0 < 2 ^ 2200) by (apply Z.pow_pos_nonneg; lia).
      destruct (SFdiv_le_one (nsec <? 0) m e mg eg Hb Hbg ltac:(lia) ltac:(lia)
                  ltac:(rewrite Hv, Hvg; unfold G in *; nia))
        as (mq & eq & Hq & Hbq & _).
      unfold F64.div. change F64.prec with 53. change F64.emax with 1024.
      rewrite Hq. right. exists mq, eq.
      split; [|exact Hbq]. f_equal. unfold s. destruct Hsgn as [Hp Hn].
      destruct (Z.ltb_spec nsec 0), (Z.ltb_spec d 0); try reflexivity; lia. }
  assert (Hzero : F64.of_int sec = S754_zero false ->
                  F64.div (F64.of_int nsec) (F64.of_int G) = S754_zero false ->
                  False).
  { intros E1 E2.
    destruct (of_int_signed sec Hsecb) as [[H0 _]|(_ & m & e & E & _)];
      [|rewrite E in E1; discriminate E1].
    destruct (of_int_exact G ltac:(rewrite H53; unfold G; lia))
      as (mg & eg & Eg & Hbg & Heg & Hvg).
    rewrite Eg in E2.
    destruct (of_int_signed nsec ltac:(rewrite H53; unfold G in *; lia))
      as [[H1 _]|(Hne & m & e & E & Hb & He & Hv)]; [unfold G in *; lia|].
    rewrite E in E2.
    assert (HK : 0 < 2 ^ 2200) by (apply Z.pow_pos_nonneg; lia).
    destruct (SFdiv_le_one (nsec <? 0) m e mg eg Hb Hbg ltac:(lia) ltac:(lia)
                ltac:(rewrite Hv, Hvg; unfold G in *; nia))
      as (mq & eq & Hq & _).
    unfold F64.div in E2. change F64.prec with 53 in E2.
    change F64.emax with 1024 in E2. rewrite Hq in E2. discriminate E2. }
  change (F64.of_int 0) with (S754_zero false).
  destruct (add_signed s _ _ Hx Hy) as [(H1 & H2 & _)|H].
  - exfalso. exact (Hzero H1 H2).
  - destruct (F64.add _ _) as [s0|s0| |s0 m e]; try contradiction;
      subst s0; unfold s;
      destruct (Z.ltb_spec d 0), (Z.leb_spec d 0); try reflexivity; lia.
Qed.

Lemma Sprintf_field_inj (i j : nat) :
  System.Sprintf_field i = System.Sprintf_field j -> i = j.
Proof.
  unfold System.Sprintf_field. cbn [String.append]. intros H.
  injection H as H.
  assert (Hu : Nat.to_uint i = Nat.to_uint j).
  { pose proof (NilEmpty.usu (Nat.to_uint i)) as Hi.
    pose proof (NilEmpty.usu (Nat.to_uint j)) as Hj.
    rewrite H in Hi. congruence. }
  rewrite <- (Unsigned.of_to i), <- (Unsigned.of_to j), Hu. reflexivity.
Qed.

Lemma total_from (m : System.CPUTimes) :
  forall a : Z,
    fold_left (fun acc kv => U64.add acc (snd kv)) m (U64.wrap a)
    = U64.wrap (a + sum_values m).
Proof.
  induction m as [|kv m IH]; intros a; cbn [fold_left sum_values fold_right].
  - rewrite Z.add_0_r. reflexivity.
  - assert (E : U64.add (U64.wrap a) (snd kv) = U64.wrap (a + snd kv))
      by (unfold U64.add, U64.wrap; apply Zplus_mod_idemp_l).
    rewrite E, IH. f_equal. fold (sum_values m). lia.
Qed.

Lemma total_sum (m : System.CPUTimes) :
  System.total m = U64.wrap (sum_values m).
Proof.
  unfold System.total. change 0 with (U64.wrap 0) at 1.
  rewrite total_from. reflexivity.
Qed.

(** The order in which [range] visits the map does not matter. *)
Lemma total_permutation (m m' : System.CPUTimes) :
  Permutation m m' -> System.total m = System.total m'.
Proof.
  intros H. rewrite !total_sum. f_equal.
  induction H; cbn [sum_values fold_right] in *; try fold (sum_values l) in *;
    try fold (sum_values l') in *; lia.
Qed.

Lemma get_set (key key' : string) (v : Z) (m : System.CPUTimes) :
  System.get (System.set key v m) key'
  = if String.eqb key key' then v else System.get m key'.
Proof.
  unfold System.get, System.set. cbn [find fst snd].
  destruct (String.eqb_spec key key') as [->|Hne]; [reflexivity|].
  f_equal. induction m as [|[k x] m IH]; [reflexivity|].
  cbn [filter find fst].
  destruct (String.eqb_spec k key) as [->|Hk]; cbn [negb].
  - destruct (String.eqb_spec key key'); [contradiction|]. exact IH.
  - cbn [find fst]. destruct (String.eqb k key'); [reflexivity|exact IH].
Qed.

Lemma set_fresh (key : string) (v : Z) (m : System.CPUTimes) :
  ~ In key (map fst m) -> System.set key v m = (key, v) :: m.
Proof.
  intros Hnot. unfold System.set. f_equal.
  induction m as [|[k x] m IH]; [reflexivity|].
  cbn [filter fst]. cbn [map fst In] in Hnot.
  destruct (String.eqb_spec k key) as [->|Hk]; [tauto|].
  cbn [negb]. f_equal. apply IH. tauto.
Qed.

Lemma keys_set (key : string) (v : Z) (m : System.CPUTimes) (k : string) :
  In k (map fst (System.set key v m)) -> k = key \/ In k (map fst m).
Proof.
  unfold System.set. cbn [map fst In]. intros [H|H]; [left; auto|right].
  apply in_map_iff in H. destruct H as (kv & <- & Hin).
  apply filter_In in Hin. apply in_map. tauto.
Qed.

(** What the loop over the fields builds, when every field is a
    counter. *)
Lemma parseCPUTimes_spec (rest : list string) :
  forall (cs : list Z) (j : nat) (m : System.CPUTimes),
    Forall2 holds rest cs ->
    (forall t, (j <= t)%nat -> ~ In (System.Sprintf_field t) (map fst m)) ->
    let m' := System.parseCPUTimes (S j) rest m in
    sum_values m' = sum_values m + sum_list cs /\
    (forall k : nat,
        System.get m' (System.Sprintf_field k)
        = if ((j <=? k) && (k <? j + List.length cs))%nat
          then nth (k - j) cs 0
          else System.get m (System.Sprintf_field k)).
Proof.
  induction rest as [|field rest IH]; intros cs j m Hall Hfresh;
    inversion Hall as [|? c ? cs' Hc Hall']; subst; cbv zeta.
  - cbn [System.parseCPUTimes sum_list fold_right List.length].
    split; [lia|]. intros k.
    destruct (Nat.leb_spec j k), (Nat.ltb_spec k (j + 0)); try reflexivity; lia.
  - cbn [System.parseCPUTimes]. unfold holds in Hc. rewrite Hc.
    replace (S j - 1)%nat with j by lia.
    assert (Hf : ~ In (System.Sprintf_field j) (map fst m))
      by (apply Hfresh; lia).
    rewrite (set_fresh _ c m Hf).
    destruct (IH cs' (S j) ((System.Sprintf_field j, c) :: m) Hall')
      as [IH1 IH2].
    { intros t Ht. cbn [map fst In]. intros [E|Hin].
      - apply Sprintf_field_inj in E. lia.
      - apply (Hfresh t); [lia|exact Hin]. }
    cbv zeta in IH1, IH2. split.
    + rewrite IH1. cbn [sum_values sum_list fold_right snd].
      fold (sum_values m). fold (sum_list cs'). lia.
    + intros k. rewrite IH2. cbn [List.length].
      rewrite <- (set_fresh _ c m Hf), get_set.
      destruct (Nat.leb_spec (S j) k), (Nat.ltb_spec k (S j + List.length cs')),
               (Nat.leb_spec j k), (Nat.ltb_spec k (j + S (List.length cs')));
        cbn [andb];
        first
          [ lia
          | replace (k - j)%nat with (S (k - S j)) by lia; reflexivity
          | assert (k = j) by lia; subst k;
            rewrite String.eqb_refl, Nat.sub_diag; reflexivity
          | destruct (String.eqb_spec (System.Sprintf_field j)
                                      (System.Sprintf_field k)) as [E|E];
            [apply Sprintf_field_inj in E; lia|reflexivity] ].
Qed.

Lemma digits_value_nonneg (s : string) :
  forall acc n : Z, 0 <= acc -> Main.digits_value acc s = Some n -> 0 <= n.
Proof.
  induction s as [|c s IH]; intros acc n Hacc; cbn [Main.digits_value].
  - intros [= <-]. exact Hacc.
  - destruct (Main.is_digit c) eqn:E; [|discriminate].
    apply IH. unfold Main.is_digit in E. cbv zeta in E.
    apply andb_true_iff in E. destruct E as [E1%Z.leb_le _]. lia.
Qed.

Lemma holds_range (field : string) (c : Z) :
  holds field c -> 0 <= c < 2 ^ 64.
Proof.
  unfold holds, System.ParseUint. destruct field as [|a field]; [discriminate|].
  destruct (Main.digits_value 0 (String a field)) as [n|] eqn:E;
    [|discriminate].
  destruct (Z.ltb_spec n (2 ^ 64)); [|discriminate].
  intros [= <-]. split; [|assumption].
  exact (digits_value_nonneg _ 0 n ltac:(lia) E).
Qed.

Lemma Time_Sub_sign (t u : Z) :
  - 2 ^ 63 <= System.Time_Sub t u < 2 ^ 63 /\
  (System.Time_Sub t u <=? 0) = (t <=? u).
Proof.
  unfold System.Time_Sub. cbv zeta.
  assert (H63 : 2 ^ 63 = 9223372036854775808) by reflexivity.
  destruct (Z.ltb_spec (t - u) (- 2 ^ 63));
    [|destruct (Z.ltb_spec (2 ^ 63 - 1) (t - u))];
    rewrite H63 in *; (split; [lia|]);
    match goal with
    | |- (?a <=? 0) = (t <=? u) =>
        destruct (Z.leb_spec a 0), (Z.leb_spec t u); try reflexivity; lia
    end.
Qed.

(** X17: the baseline of the CPU measurement.  On a first line of
    /proc/stat that starts with [cpu] and has at least 8 fields: the first
    call reports 0 and stores the counters it read and the time as the
    baseline; a later call made when the clock has not advanced past the
    baseline reports 0 and keeps the old baseline; any other call succeeds
    and moves the baseline to the counters it read and to its time. *)
Theorem getCPUStats_baseline
  (file : System.File) (fields : list string) (others : list (list string))
  (now : Z) (st : System.CPUState) (stats : Main.SystemStats) :
  System.lines file = fields :: others ->
  (8 <= List.length fields)%nat -> hd EmptyString fields = "cpu"%string ->
  let cpuTimes := System.parseCPUTimes 1 (tl fields) [] in
  let r := System.getCPUStats (Some file) now st stats in
  match System.lastCPUTime st with
  | None =>
      r = (None,
           {| System.lastCPUStats := cpuTimes;
              System.lastCPUTime := Some now |},
           System.set_CPUPercent (F64.of_int 0) stats)
  | Some last =>
      if now <=? last
      then r = (None, st, System.set_CPUPercent (F64.of_int 0) stats)
      else fst r = (None,
                    {| System.lastCPUStats := cpuTimes;
                       System.lastCPUTime := Some now |})
  end.
Proof.
  intros Hl Hlen Hhd. cbv zeta. unfold System.getCPUStats. rewrite Hl, Hhd.
  destruct (Z.ltb_spec (Z.of_nat (List.length fields)) 8); [lia|].
  cbn [orb negb String.eqb Ascii.eqb Bool.eqb andb]. cbv zeta.
  change (String.eqb "cpu" "cpu") with true. cbn [negb].
  destruct (System.lastCPUTime st) as [last|]; [|reflexivity].
  destruct (Time_Sub_sign now last) as [Hr Hs].
  rewrite (Duration_Seconds_sign _ Hr), Hs.
  destruct (now <=? last); reflexivity.
Qed.

Lemma getCPUStats_baseline_witness :
  let file :=
    {| System.lines := [["cpu"; "100"; "0"; "50"; "800"; "10"; "0"; "5"]]%string;
       System.scan_err := false |} in
  snd (System.getCPUStats (Some file) 1000000000 System.initial
                          Program.zeroStats)
  = System.set_CPUPercent (F64.of_int 0) Program.zeroStats.
Proof.
  intros file.
  pose proof (getCPUStats_baseline
                file ["cpu"; "100"; "0"; "50"; "800"; "10"; "0"; "5"]%string
                [] 1000000000 System.initial Program.zeroStats
                eq_refl ltac:(vm_compute; lia) eq_refl) as H.
  cbv zeta in H. cbn [System.lastCPUTime System.initial] in H.
  rewrite H. reflexivity.
Defined.

Lemma sum_list_le (ps cs : list Z) :
  Forall2 Z.le ps cs -> sum_list ps <= sum_list cs.
Proof.
  induction 1; cbn [sum_list fold_right]; [lia|].
  fold (sum_list l) (sum_list l'). lia.
Qed.

Lemma holds_all (fs : list string) (cs : list Z) :
  Forall2 holds fs cs -> Forall (fun c => 0 <= c < 2 ^ 64) cs.
Proof.
  induction 1 as [|f c fs cs Hc _ IH]; constructor;
    [exact (holds_range f c Hc)|exact IH].
Qed.

Lemma sum_list_nonneg (cs : list Z) :
  Forall (fun c => 0 <= c < 2 ^ 64) cs -> 0 <= sum_list cs.
Proof.
  induction 1 as [|c cs Hc _ IH]; cbn [sum_list fold_right]; [lia|].
  fold (sum_list cs). lia.
Qed.

(** X18: between two readings of /proc/stat whose fields are all
    counters, none of which went backwards, with the clock advanced, the
    sum of the counters below [2^64] and their total increase below
    [2^53], [getCPUStats] succeeds, moves the baseline to the new reading,
    and reports a CPU percentage that is a float64 between 0 and 100. *)
Theorem cpu_percent_range
  (file : System.File) (fs pfs : list string) (others : list (list string))
  (cs ps : list Z) (now last : Z)
  (st : System.CPUState) (stats : Main.SystemStats) :
  System.lines file = ("cpu"%string :: fs) :: others ->
  Forall2 holds fs cs -> (7 <= List.length cs)%nat ->
  System.lastCPUTime st = Some last -> last < now ->
  System.lastCPUStats st = System.parseCPUTimes 1 pfs [] ->
  Forall2 holds pfs ps -> Forall2 Z.le ps cs ->
  sum_list cs < 2 ^ 64 -> sum_list cs - sum_list ps < 2 ^ 53 ->
  exists p : F64.t,
    System.getCPUStats (Some file) now st stats
    = (None,
       {| System.lastCPUStats := System.parseCPUTimes 1 fs [];
          System.lastCPUTime := Some now |},
       System.set_CPUPercent p stats) /\
    F64.le (F64.of_int 0) p = true /\ F64.le p (F64.of_int 100) = true.
Proof.
  intros Hl Hfs Hlen Hlast Hnow Hprev Hpfs Hle Hsum Hdelta.
  assert (H64 : 2 ^ 64 = 18446744073709551616) by reflexivity.
  assert (H53 : 2 ^ 53 = 9007199254740992) by reflexivity.
  unfold System.getCPUStats. rewrite Hl. cbn [hd tl List.length].
  rewrite (Forall2_length Hfs).
  destruct (Z.ltb_spec (Z.of_nat (S (List.length cs))) 8); [lia|].
  change (String.eqb "cpu" "cpu") with true. cbn [orb negb]. cbv zeta.
  rewrite Hlast.
  destruct (Time_Sub_sign now last) as [Hr Hs].
  rewrite (Duration_Seconds_sign _ Hr), Hs.
  destruct (Z.leb_spec now last); [lia|].
  destruct (parseCPUTimes_spec fs cs 0 [] Hfs ltac:(intros t _ []))
    as [Hsc Hgc].
  destruct (parseCPUTimes_spec pfs ps 0 [] Hpfs ltac:(intros t _ []))
    as [Hsp Hgp].
  cbv zeta in Hsc, Hgc, Hsp, Hgp. rewrite Hprev.
  change "field3"%string with (System.Sprintf_field 3).
  change "field4"%string with (System.Sprintf_field 4).
  rewrite !Hgc, !Hgp, !total_sum, Hsc, Hsp.
  cbn [sum_values fold_right Z.add].
  pose proof (Forall2_length Hle) as Hlen2.
  pose proof (holds_all _ _ Hfs) as Hcb.
  pose proof (holds_all _ _ Hpfs) as Hpb.
  clear Hsc Hgc Hsp Hgp Hfs Hpfs Hprev Hl.
  (* name the first seven counters of both readings *)
  destruct cs as [|c0 [|c1 [|c2 [|c3 [|c4 [|c5 [|c6 cr]]]]]]];
    cbn [List.length] in Hlen; try lia.
  destruct ps as [|p0 [|p1 [|p2 [|p3 [|p4 [|p5 [|p6 pr]]]]]]];
    cbn [List.length] in Hlen2; try lia.
  repeat match goal with
         | H : Forall2 _ (_ :: _) (_ :: _) |- _ =>
             apply Forall2_cons_iff in H; destruct H as [? H]
         | H : Forall _ (_ :: _) |- _ =>
             apply Forall_cons_iff in H; destruct H as [? H]
         end.
  pose proof (sum_list_le _ _ Hle) as Hrest.
  pose proof (sum_list_nonneg _ Hcb) as Hcr.
  pose proof (sum_list_nonneg _ Hpb) as Hpr.
  cbn [List.length Nat.leb Nat.ltb Nat.add andb Nat.sub nth].
  cbn [sum_list fold_right] in *. fold (sum_list cr) in *. fold (sum_list pr) in *.
  rewrite H64, H53 in *.
  set (Sc := c0 + (c1 + (c2 + (c3 + (c4 + (c5 + (c6 + sum_list cr))))))) in *.
  set (Sp := p0 + (p1 + (p2 + (p3 + (p4 + (p5 + (p6 + sum_list pr))))))) in *.
  replace (0 + Sc) with Sc by lia. replace (0 + Sp) with Sp by lia.
  rewrite (wrap_small Sc) by (unfold Sc in *; lia).
  rewrite (wrap_small Sp) by (unfold Sc, Sp in *; lia).
  unfold U64.add, U64.sub.
  rewrite (wrap_small (c3 + c4)) by (unfold Sc in *; lia).
  rewrite (wrap_small (p3 + p4)) by (unfold Sc, Sp in *; lia).
  rewrite (wrap_small (Sc - Sp)) by (unfold Sc, Sp in *; lia).
  rewrite (wrap_small (c3 + c4 - (p3 + p4))) by (unfold Sc, Sp in *; lia).
  rewrite (wrap_small (Sc - Sp - (c3 + c4 - (p3 + p4))))
    by (unfold Sc, Sp in *; lia).
  eexists. split; [reflexivity|].
  destruct (Z.eqb_spec (Sc - Sp) 0); [split; reflexivity|].
  apply percent_range; unfold Sc, Sp in *; lia.
Qed.

Lemma cpu_percent_range_witness :
  let file :=
    {| System.lines := [["cpu"; "100"; "0"; "50"; "800"; "10"; "0"; "5"]]%string;
       System.scan_err := false |} in
  let st :=
    {| System.lastCPUStats :=
         System.parseCPUTimes 1 ["90"; "0"; "40"; "700"; "10"; "0"; "5"]%string
                              [];
       System.lastCPUTime := Some 0 |} in
  exists p : F64.t,
    Main.CPUPercent (snd (System.getCPUStats (Some file) 3000000000 st
                                             Program.zeroStats)) = p /\
    F64.le (F64.of_int 0) p = true /\ F64.le p (F64.of_int 100) = true.
Proof.
  intros file st.
  assert (Hc : Forall2 holds ["100"; "0"; "50"; "800"; "10"; "0"; "5"]%string
                       [100; 0; 50; 800; 10; 0; 5])
    by (repeat (constructor; [reflexivity|]); constructor).
  assert (Hp : Forall2 holds ["90"; "0"; "40"; "700"; "10"; "0"; "5"]%string
                       [90; 0; 40; 700; 10; 0; 5])
    by (repeat (constructor; [reflexivity|]); constructor).
  assert (Hle : Forall2 Z.le [90; 0; 40; 700; 10; 0; 5]
                        [100; 0; 50; 800; 10; 0; 5])
    by (repeat (constructor; [discriminate|]); constructor).
  destruct (cpu_percent_range
              file ["100"; "0"; "50"; "800"; "10"; "0"; "5"]%string
              ["90"; "0"; "40"; "700"; "10"; "0"; "5"]%string []
              [100; 0; 50; 800; 10; 0; 5] [90; 0; 40; 700; 10; 0; 5]
              3000000000 0 st Program.zeroStats
              eq_refl Hc (le_n 7) eq_refl eq_refl eq_refl Hp Hle
              eq_refl eq_refl)
    as (p & Hr & H0 & H100).
  exists p. rewrite Hr. repeat split; assumption.
Defined.

(** ** The program *)

Lemma call_spec {A : Type} (m : Main.M A) (p : Program.Process) :
  let r := m (Main.set_log [] (Program.world p)) in
  fst (Program.call m p) = fst r /\
  Program.world (snd (Program.call m p)) = Main.set_log [] (snd r) /\
  Program.collector (snd (Program.call m p)) = Program.collector p /\
  Program.pool (snd (Program.call m p)) = Program.pool p /\
  Program.lastStats (snd (Program.call m p)) = Program.lastStats p /\
  Program.out (snd (Program.call m p))
  = Program.out p ++ map Program.Controller (Main.log (snd r)).
Proof.
  cbv zeta. unfold Program.call.
  destruct (m (Main.set_log [] (Program.world p))) as [a w].
  repeat split.
Qed.

Lemma getPeakUsage_frame (w : Main.World) :
  5 <= fst (Main.getPeakUsage w) <= 100 /\
  exists l, snd (Main.getPeakUsage w) = Main.set_log l w.
Proof.
  destruct w as [env hour src pos lg origin peak cc mc].
  unfold Main.getPeakUsage, Main.bind, Main.Getenv, Main.gets, Main.ret,
    Main.logger, Main.modify.
  change Main.minPeakUsage with 5. change Main.defaultPeakUsage with 40.
  repeat (cbn [Main.environ fst snd orb];
          match goal with
          | |- context [match env ?k with _ => _ end] => destruct (env k)
          | |- context [String.eqb ?a ?b] => destruct (String.eqb a b)
          | |- context [Main.Atoi ?s] => destruct (Main.Atoi s)
          | |- context [Z.ltb ?a ?b] => destruct (Z.ltb_spec a b)
          end);
    cbn [Main.environ fst snd orb];
    (split; [lia|eexists; reflexivity]).
Qed.

Lemma settled_updatePeakUsage (origin total : Z) (src : nat -> F64.t)
      (w : Main.World) :
  unit_draws src -> origin <= 100 ->
  settled origin total src w ->
  settled origin total src (snd (Main.updatePeakUsage w)).
Proof.
  intros Hd Ho (H1 & H2 & H3 & H4 & H5).
  destruct (Hd (Main.rand_pos w)) as (Hv & H0 & Hlt). rewrite <- H5 in Hv, H0, Hlt.
  destruct (drift_upper (Main.peakUsageOrigin w)
              (Main.rand_src w (Main.rand_pos w)) ltac:(lia) Hv H0 Hlt)
    as [Hnew Hmin].
  cbv zeta in Hnew, Hmin.
  set (w' := snd (Main.updatePeakUsage w)).
  set (minValue := F64.mul (F64.of_int (Main.peakUsageOrigin w)) Main.c0_2) in *.
  set (newValue :=
         F64.add minValue
                 (F64.mul (Main.rand_src w (Main.rand_pos w))
                          (F64.sub (F64.of_int (Main.peakUsageOrigin w))
                                   minValue))) in *.
  assert (Hp : Main.peakUsage w'
               = let p := F64.to_int newValue in
                 let p := if p <? F64.to_int minValue
                          then F64.to_int minValue else p in
                 if p <? Main.minPeakUsage then Main.minPeakUsage else p)
    by reflexivity.
  cbv zeta in Hp. change Main.minPeakUsage with 5 in Hp.
  unfold settled.
  change (Main.peakUsageOrigin w') with (Main.peakUsageOrigin w).
  change (Main.cpuController w') with (Main.cpuController w).
  change (Main.memoryController w') with (Main.memoryController w).
  change (Main.rand_src w') with (Main.rand_src w).
  repeat split; try assumption; rewrite Hp;
    destruct (Z.ltb_spec (F64.to_int newValue) (F64.to_int minValue));
    match goal with |- context [?a <? 5] => destruct (Z.ltb_spec a 5) end;
    lia.
Qed.

Lemma settled_adjustResources (origin total : Z) (src : nat -> F64.t)
      (stats : Main.SystemStats) (expectedUsage : F64.t) (w : Main.World) :
  settled origin total src w ->
  settled origin total src (snd (Main.adjustResources stats expectedUsage w)).
Proof.
  intros (H1 & H2 & H3 & H4 & H5).
  destruct (adjustResources_engines stats expectedUsage w)
    as ((_ & _ & A3 & A4 & A5) & Hm & Hc).
  cbv zeta in *. unfold settled. rewrite A3, A4, A5.
  split; [assumption|]. split; [assumption|]. split; [|split; [|assumption]].
  - destruct Hc as [->|[d ->]]; [assumption|].
    destruct (AdjustCountRandom_at_least_one d _ H3) as (n & -> & Hn).
    exact Hn.
  - destruct Hm as [->|[d ->]]; [assumption|].
    rewrite AdjustMemoryRandom_totalMemory. assumption.
Qed.

Lemma GetSystemStats_cases (meminfo stat : option System.File) (now : Z)
      (st : System.CPUState) :
  exists st',
    (exists err, System.GetSystemStats meminfo stat now st = (inl err, st')) \/
    (exists stats, System.GetSystemStats meminfo stat now st = (inr stats, st')).
Proof.
  unfold System.GetSystemStats. cbv zeta.
  destruct (System.getMemoryStats meminfo _) as [[err|] stats].
  - eexists. left. eexists. reflexivity.
  - destruct (System.getCPUStats stat now st stats) as [[[err|] st'] stats'];
      eexists; [left|right]; eexists; reflexivity.
Qed.

(** A property of the package variables that the log and the clock do not
    touch, and that the drift and the controller keep, holds after every
    tick; the worker pool is not touched at all. *)
Section Preservation.

Variable P : Main.World -> Prop.
Hypothesis P_set_log : forall l w, P w -> P (Main.set_log l w).
Hypothesis P_at_hour : forall h w, P w -> P (Program.at_hour h w).
Hypothesis P_update : forall w, P w -> P (snd (Main.updatePeakUsage w)).
Hypothesis P_adjust :
  forall stats e w, P w -> P (snd (Main.adjustResources stats e w)).

Lemma call_keeps {A : Type} (m : Main.M A) (p : Program.Process) :
  (forall w, P w -> P (snd (m w))) ->
  P (Program.world p) ->
  P (Program.world (snd (Program.call m p))) /\
  Program.pool (snd (Program.call m p)) = Program.pool p.
Proof.
  intros Hm Hp. destruct (call_spec m p) as (_ & Hw & _ & Hpool & _).
  cbv zeta in Hw. rewrite Hw, Hpool. split; [|reflexivity].
  apply P_set_log, Hm, P_set_log, Hp.
Qed.

Lemma main_tick_keeps (p : Program.Process) (t : Program.Tick) :
  P (Program.world p) ->
  P (Program.world (Program.main_tick p t)) /\
  Program.pool (Program.main_tick p t) = Program.pool p.
Proof.
  intros Hw.
  destruct t as [| |meminfo stat now h1 h2]; cbn [Program.main_tick].
  - split; [exact Hw|reflexivity].
  - apply call_keeps; [exact P_update|exact Hw].
  - assert (Hpool : Program.pool p = Program.pool p) by reflexivity.
    assert (Hpure1 : forall u w, P w ->
                                 P (snd (Main.calculateExpectedUsage u w))).
    { intros u w H.
      rewrite (proj1 (calculateExpectedUsage_target u w)). exact H. }
    assert (Hpure2 : forall w, P w -> P (snd (Main.isNightTime w)))
      by (intros w H; exact H).
    destruct (GetSystemStats_cases meminfo stat now (Program.collector p))
      as (st' & [[err ->]|[stats ->]]);
      cbn [Program.write Program.world Program.pool Program.lastStats
           Program.set_world Program.collector Program.out];
      repeat
        match goal with
        | |- context [let '(_, _) := Program.call ?m ?q0 in _] =>
            let H := fresh "Hcall" in
            pose proof (call_keeps m q0) as H;
            cbn [Program.set_world Program.write Program.world
                 Program.pool] in H;
            specialize (H ltac:(first [exact (Hpure1 _)|exact Hpure2])
                          ltac:(first [apply P_at_hour; exact Hw|exact Hw]));
            destruct (Program.call m q0) as [? ?]; cbn [snd] in H;
            clear Hw; destruct H as [Hw H];
            let H' := fresh "Hpool" in
            pose proof (eq_trans H Hpool) as H'; clear H Hpool;
            rename H' into Hpool
        end;
      match goal with
      | |- context [Program.call ?m ?q0] =>
          destruct (call_keeps m q0) as [H1 H2];
            [intros w; apply P_adjust|exact Hw|]
      end;
      (split; [exact H1|]); rewrite H2; cbn [Program.write Program.pool];
      exact Hpool.
Qed.

Lemma ticks_keep (ticks : list Program.Tick) :
  forall p : Program.Process,
    P (Program.world p) ->
    P (Program.world (fold_left Program.main_tick ticks p)) /\
    Program.pool (fold_left Program.main_tick ticks p) = Program.pool p.
Proof.
  induction ticks as [|t ticks IH]; intros p Hp; cbn [fold_left].
  - split; [exact Hp|reflexivity].
  - destruct (main_tick_keeps p t Hp) as [H1 H2].
    destruct (IH _ H1) as [H3 H4]. split; [exact H3|congruence].
Qed.

End Preservation.

(** What [main] has set up when it enters its loop. *)
Lemma main_init_spec (environ : string -> option string)
      (src : nat -> F64.t) (numCPU : Z) (meminfo stat : option System.File)
      (now : Z) :
  let p0 := Program.main_init numCPU meminfo stat now
                              (Program.boot environ src) in
  let origin :=
    fst (Main.getPeakUsage (Program.world (Program.boot environ src))) in
  let res := fst (System.GetSystemStats meminfo stat now System.initial) in
  5 <= origin <= 100 /\
  Main.peakUsageOrigin (Program.world p0) = origin /\
  Main.peakUsage (Program.world p0) = origin /\
  Main.cpuController (Program.world p0) = Cpu.cpuController /\
  Main.memoryController (Program.world p0)
  = match res with
    | inr stats => Mem.SetTotalMemory (Main.TotalMemory stats)
                                      Mem.memoryController
    | inl _ => Mem.memoryController
    end /\
  Main.rand_src (Program.world p0) = src /\
  Program.pool p0 = Cpu.Start numCPU {| Cpu.started := false; Cpu.workers := [] |} /\
  Program.lastStats p0
  = match res with inr stats => stats | inl _ => Program.zeroStats end.
Proof.
  cbv zeta. unfold Program.main_init.
  destruct (call_spec Main.getPeakUsage (Program.boot environ src))
    as (Hf & Hw & Hc & Hp & Hl & _).
  cbv zeta in Hf, Hw.
  change (Main.set_log [] (Program.world (Program.boot environ src)))
    with (Program.world (Program.boot environ src)) in Hf, Hw.
  destruct (getPeakUsage_frame (Program.world (Program.boot environ src)))
    as (Ho & l & Hs).
  rewrite Hs in Hw.
  destruct (Program.call Main.getPeakUsage (Program.boot environ src))
    as [origin p1].
  cbn [fst snd] in Hf, Hw, Hc, Hp, Hl. subst origin.
  cbn [Program.write Program.set_world Program.world Program.collector
       Program.pool Program.lastStats Program.out].
  rewrite Hc. change (Program.collector (Program.boot environ src))
    with System.initial.
  destruct (System.GetSystemStats meminfo stat now System.initial)
    as [[err|stats] st'];
    cbn [fst Program.write Program.set_world Program.world Program.collector
         Program.pool Program.lastStats Program.out];
    rewrite Hw, Hp; repeat split; try assumption; try reflexivity; lia.
Qed.

(** X19: what [main] sets up before its loop stays as it is, whatever
    ticks follow and whatever the process reads at them: the configured
    ceiling is the value of [getPeakUsage], between 5 and 100; the count of
    the CPU engine is at least 1; the total memory of the balloon is the
    one of the first reading of the system, or 0 when that reading failed;
    and the worker pool is the one that [Start] made, of [numCPU] workers,
    or of 4. *)
Theorem main_keeps_its_setup
  (environ : string -> option string) (rand_src : nat -> F64.t)
  (numCPU : Z) (meminfo stat : option System.File) (now : Z)
  (ticks : list Program.Tick) :
  let p := Program.main environ rand_src numCPU meminfo stat now ticks in
  let origin :=
    fst (Main.getPeakUsage (Program.world (Program.boot environ rand_src))) in
  5 <= origin <= 100 /\
  Main.peakUsageOrigin (Program.world p) = origin /\
  1 <= Cpu.GetCount (Main.cpuController (Program.world p)) /\
  Mem.totalMemory (Main.memoryController (Program.world p))
  = match fst (System.GetSystemStats meminfo stat now System.initial) with
    | inr stats => Main.TotalMemory stats
    | inl _ => 0
    end /\
  Program.pool p
  = {| Cpu.started := true;
       Cpu.workers :=
         map Z.of_nat (seq 0 (Z.to_nat (if numCPU <=? 0 then 4 else numCPU)))
    |}.
Proof.
  intros p origin.
  destruct (main_init_spec environ rand_src numCPU meminfo stat now)
    as (Ho & I1 & _ & I3 & I4 & _ & I6 & _).
  cbv zeta in I1, I3, I4, I6. fold origin in I1, Ho.
  set (total := match fst (System.GetSystemStats meminfo stat now
                                                  System.initial) with
                | inr stats => Main.TotalMemory stats
                | inl _ => 0
                end).
  destruct (ticks_keep
              (fun w => Main.peakUsageOrigin w = origin /\
                        1 <= Cpu.count (Main.cpuController w) /\
                        Mem.totalMemory (Main.memoryController w) = total)
              ltac:(intros l w H; exact H) ltac:(intros h w H; exact H)
              ltac:(intros w H; exact H)) with
    (ticks := ticks)
    (p := Program.main_init numCPU meminfo stat now
                            (Program.boot environ rand_src))
    as [(K1 & K2 & K3) K4].
  - intros stats e w (H1 & H2 & H3).
    destruct (adjustResources_engines stats e w)
      as ((_ & _ & _ & A4 & _) & Hm & Hc).
    cbv zeta in *. rewrite A4. split; [exact H1|]. split.
    + destruct Hc as [->|[d ->]]; [assumption|].
      destruct (AdjustCountRandom_at_least_one d _ H2) as (n & -> & Hn).
      exact Hn.
    + destruct Hm as [->|[d ->]]; [assumption|].
      rewrite AdjustMemoryRandom_totalMemory. assumption.
  - rewrite I1, I3, I4. split; [reflexivity|]. split; [vm_compute; discriminate|].
    unfold total.
    destruct (fst (System.GetSystemStats meminfo stat now System.initial));
      reflexivity.
  - fold (Program.main environ rand_src numCPU meminfo stat now ticks) in *.
    fold p in K1, K2, K3, K4.
    split; [exact Ho|]. split; [exact K1|]. split; [exact K2|].
    split; [exact K3|]. rewrite K4, I6. reflexivity.
Qed.

(** X20: with draws in [0,1), the current ceiling of the running program
    is always between 5 and the configured ceiling, which is at most
    100. *)
Theorem main_ceiling_range
  (environ : string -> option string) (rand_src : nat -> F64.t)
  (numCPU : Z) (meminfo stat : option System.File) (now : Z)
  (ticks : list Program.Tick) :
  unit_draws rand_src ->
  let p := Program.main environ rand_src numCPU meminfo stat now ticks in
  5 <= Main.peakUsage (Program.world p)
    <= Main.peakUsageOrigin (Program.world p) /\
  Main.peakUsageOrigin (Program.world p) <= 100.
Proof.
  intros Hd p.
  destruct (main_init_spec environ rand_src numCPU meminfo stat now)
    as (Ho & I1 & I2 & I3 & I4 & I5 & _).
  cbv zeta in Ho, I1, I2, I3, I4, I5.
  set (origin := fst (Main.getPeakUsage
                        (Program.world (Program.boot environ rand_src)))) in *.
  destruct (ticks_keep
              (settled origin
                 (Mem.totalMemory
                    (Main.memoryController
                       (Program.world
                          (Program.main_init numCPU meminfo stat now
                             (Program.boot environ rand_src)))))
                 rand_src)
              ltac:(intros l w H; exact H) ltac:(intros h w H; exact H))
    with (ticks := ticks)
         (p := Program.main_init numCPU meminfo stat now
                                 (Program.boot environ rand_src))
    as [(K1 & K2 & _) _].
  - intros w. apply settled_updatePeakUsage; [exact Hd|lia].
  - intros stats e w. apply settled_adjustResources.
  - unfold settled. rewrite I1, I2, I3, I5.
    repeat split; try lia. vm_compute; discriminate.
  - fold (Program.main environ rand_src numCPU meminfo stat now ticks) in *.
    fold p in K1, K2. rewrite K1. lia.
Qed.

Lemma main_ceiling_range_witness :
  let p := Program.main (fun _ => None) (fun _ => F64.lit 1 2) 8 None None 0
                        [Program.PeakUsageTick; Program.GcTick] in
  5 <= Main.peakUsage (Program.world p)
    <= Main.peakUsageOrigin (Program.world p).
Proof.
  refine (proj1 (main_ceiling_range (fun _ => None) (fun _ => F64.lit 1 2)
                   8 None None 0
                   [Program.PeakUsageTick; Program.GcTick] _)).
  intros n. repeat split.
Defined.

(** X21: when the first reading of the system fails, the balloon of the
    running program stays empty for good, also when later readings
    succeed: [SetTotalMemory] is called before the loop only, so every
    step asks for 0 bytes. *)
Theorem balloon_needs_initial_stats
  (environ : string -> option string) (rand_src : nat -> F64.t)
  (numCPU : Z) (meminfo stat : option System.File) (now : Z)
  (ticks : list Program.Tick) (err : System.Error) :
  fst (System.GetSystemStats meminfo stat now System.initial) = inl err ->
  let p := Program.main environ rand_src numCPU meminfo stat now ticks in
  Main.memoryController (Program.world p) = Mem.memoryController /\
  Mem.GetCurrentMemory (Main.memoryController (Program.world p)) = 0.
Proof.
  intros Hfail p.
  destruct (main_init_spec environ rand_src numCPU meminfo stat now)
    as (_ & _ & _ & _ & I4 & _).
  cbv zeta in I4. rewrite Hfail in I4.
  destruct (ticks_keep
              (fun w => Main.memoryController w = Mem.memoryController)
              ltac:(intros l w H; exact H) ltac:(intros h w H; exact H)
              ltac:(intros w H; exact H)) with
    (ticks := ticks)
    (p := Program.main_init numCPU meminfo stat now
                            (Program.boot environ rand_src))
    as [K _].
  - intros stats e w H.
    destruct (adjustResources_engines stats e w) as (_ & Hm & _).
    cbv zeta in Hm. destruct Hm as [->|[d ->]]; [exact H|].
    rewrite H. destruct d; vm_compute; reflexivity.
  - exact I4.
  - fold (Program.main environ rand_src numCPU meminfo stat now ticks) in K.
    fold p in K. rewrite K. split; reflexivity.
Qed.

Lemma balloon_needs_initial_stats_witness :
  let file :=
    {| System.lines := [["MemTotal:"; "16384"; "kB"]]%string;
       System.scan_err := false |} in
  let p :=
    Program.main (fun _ => None) (fun _ => F64.of_int 0) 8 None None 0
                 [Program.MonitorTick (Some file) None 1000000000 3 3] in
  Mem.GetCurrentMemory (Main.memoryController (Program.world p)) = 0.
Proof.
  intros file.
  refine (proj2 (balloon_needs_initial_stats
                   (fun _ => None) (fun _ => F64.of_int 0) 8 None None 0
                   [Program.MonitorTick (Some file) None 1000000000 3 3]
                   (System.MemoryFailed System.OpenFailed) _)).
  reflexivity.
Defined.
